(** * CRID materialization (materialize_crid.py)

    A shallow embedding of the batch transform that fills
    [metrics.crid_monthly] from [gold.nh_quality_mds],
    [gold.nh_quality_claims] and [gold.nh_measure_definitions], of the
    connection discipline of [main], and the properties of both.

    Conventions.
    - A SQL relation is a list of records; a nullable column is an [option].
    - SQL NUMERIC values are rationals ([Q]).  The arithmetic of the
      SELECT is exact: the finite scale PostgreSQL gives to a quotient,
      an average or a square root is not modelled.
    - A [CridRecord] holds the columns the INSERT names; [id] and
      [created_at], which the table fills in by itself, are left out.
      [materialize_sql] yields the rows of the SELECT and [insert_into]
      keeps them as they are; [store_row] and [stored_table] give the
      records the table holds for them, each NUMERIC(12,6) column
      rounded to six decimals, a value that does not fit its column
      failing the statement.
    - [extract_id] holds the six digits YYYYMM written by the ingest; it is
      represented by the integer that [extract_id::int] yields, so the
      cast does not fail.
    - The square root behind STDDEV_POP is a parameter of the transform
      ([numeric_sqrt]); [sqrt_floor] is an executable instance.

    The module [Ingest] embeds the helpers of ingest.py that write the
    ccn and the extract_id of the source relations. *)

From Stdlib Require Import List ZArith QArith Qround Qabs String Ascii Bool Lia Lqa.
From Stdlib Require Import Sorted Permutation.
Import ListNotations.

Local Open Scope Z_scope.

(** ** Failures *)

Inductive Error :=
| ValueError           (* raised by materialize_crid *)
| UsageError           (* argparse rejects the command line *)
| DivisionByZero       (* a SQL division whose divisor is zero *)
| UniqueViolation      (* crid_monthly_unique *)
| UndefinedTable       (* metrics.crid_monthly does not exist *)
| NumericValueOutOfRange (* a value does not fit the column it goes to *)
| FileNotFoundError.   (* open() of a file that is not there *)

Inductive result (A : Type) :=
| Ok (a : A)
| Raise (e : Error).
Arguments Ok {A} a.
Arguments Raise {A} e.

Definition bind {A B} (x : result A) (k : A -> result B) : result B :=
  match x with
  | Ok a => k a
  | Raise e => Raise e
  end.

Notation "x <- c ;; k" := (bind c (fun x => k))
  (at level 61, c at next level, right associativity).

Fixpoint map_result {A B} (f : A -> result B) (l : list A) : result (list B) :=
  match l with
  | [] => Ok []
  | a :: t => b <- f a ;; bs <- map_result f t ;; Ok (b :: bs)
  end.

(** ** SQL values: three-valued logic, NULL propagation, aggregates *)

Module Sql.

(** A SQL boolean: [None] is NULL. *)
Definition tri := option bool.

Definition and3 (a b : tri) : tri :=
  match a, b with
  | Some false, _ => Some false
  | _, Some false => Some false
  | Some true, Some true => Some true
  | _, _ => None
  end.

Definition not3 (a : tri) : tri := option_map negb a.

(** What WHERE, ON and CASE WHEN do with a condition: only TRUE passes. *)
Definition holds (a : tri) : bool :=
  match a with Some true => true | _ => false end.

Definition is_not_null {A} (x : option A) : bool :=
  match x with Some _ => true | None => false end.

Definition coalesce {A} (x : option A) (d : A) : A :=
  match x with Some v => v | None => d end.

Definition lift2 {A B C} (f : A -> B -> C) (x : option A) (y : option B)
  : option C :=
  match x, y with Some a, Some b => Some (f a b) | _, _ => None end.

Definition Qlt_bool (x y : Q) : bool := negb (Qle_bool y x).

(** Numeric operators. *)
Definition add := lift2 Qplus.
Definition sub := lift2 Qminus.
Definition mul := lift2 Qmult.
(** Division faults on a zero divisor; NULL operands give NULL. *)
Definition div (x y : option Q) : result (option Q) :=
  match y with
  | Some d => if Qeq_bool d 0 then Raise DivisionByZero
              else Ok (lift2 Qdiv x y)
  | None => Ok None
  end.
Definition abs := option_map Qabs.
Definition gt : option Q -> option Q -> tri := lift2 (fun x y => Qlt_bool y x).
Definition lt : option Q -> option Q -> tri := lift2 Qlt_bool.

(** Integer operators. *)
Definition addz := lift2 Z.add.
Definition eqz : option Z -> option Z -> tri := lift2 Z.eqb.
Definition ltz : option Z -> option Z -> tri := lift2 Z.ltb.
Definition gez : option Z -> option Z -> tri := lift2 Z.geb.

(** Aggregates skip NULL inputs. *)
Fixpoint non_null {A} (l : list (option A)) : list A :=
  match l with
  | [] => []
  | Some x :: t => x :: non_null t
  | None :: t => non_null t
  end.

Definition Qmax (x y : Q) : Q := if Qle_bool x y then y else x.

Definition max_q (l : list (option Q)) : option Q :=
  match non_null l with
  | [] => None
  | x :: t => Some (fold_left Qmax t x)
  end.

Definition max_z (l : list (option Z)) : option Z :=
  match non_null l with
  | [] => None
  | x :: t => Some (fold_left Z.max t x)
  end.

Definition count_star {A} (l : list A) : Z := Z.of_nat (List.length l).

Definition sum_q (l : list Q) : Q := fold_right Qplus 0%Q l.

Definition mean (xs : list Q) : Q :=
  (sum_q xs / inject_Z (Z.of_nat (List.length xs)))%Q.

Definition avg (l : list (option Q)) : option Q :=
  match non_null l with
  | [] => None
  | xs => Some (mean xs)
  end.

(** Sum of squared deviations from the mean, and the population variance
    (divisor N). *)
Definition sum_sq_dev (xs : list Q) : Q :=
  sum_q (map (fun x => ((x - mean xs) * (x - mean xs))%Q) xs).

Definition var_pop (xs : list Q) : Q :=
  (sum_sq_dev xs / inject_Z (Z.of_nat (List.length xs)))%Q.

(** ROUND(x, digits): half away from zero. *)
Definition round (x : Q) (digits : nat) : Q :=
  let s := inject_Z (10 ^ Z.of_nat digits) in
  let n := Qfloor (Qabs x * s + (1 # 2))%Q in
  ((inject_Z (if Qle_bool 0 x then n else - n)) / s)%Q.

(** Relational operators. *)
Fixpoint distinct {K} (eqb : K -> K -> bool) (l : list K) : list K :=
  match l with
  | [] => []
  | k :: t => k :: filter (fun k' => negb (eqb k k')) (distinct eqb t)
  end.

(** GROUP BY: one group per distinct key, holding the rows of that key. *)
Definition group_by {A K} (eqb : K -> K -> bool) (key : A -> K)
           (rows : list A) : list (K * list A) :=
  map (fun k => (k, filter (fun r => eqb k (key r)) rows))
      (distinct eqb (map key rows)).

(** LEFT JOIN: every match of a left row, or the left row alone. *)
Definition left_join {A B} (on : A -> B -> bool) (l : list A) (r : list B)
  : list (A * option B) :=
  flat_map (fun a =>
              match filter (on a) r with
              | [] => [(a, None)]
              | bs => map (fun b => (a, Some b)) bs
              end) l.

End Sql.

(** ** Source relations *)

Definition date := Z.

(** gold.nh_quality_mds, the columns the transform reads. *)
Record MdsRow := {
  m_ccn : string;
  m_extract_id : Z;
  m_as_of_date : date;
  m_state : string;
  m_measure_code : string;
  m_four_quarter_avg : option Q;
  m_has_suppression : option bool
}.

(** gold.nh_quality_claims. *)
Record ClaimsRow := {
  c_ccn : string;
  c_extract_id : Z;
  c_measure_code : string;
  c_adjusted_score : option Q;
  c_has_suppression : option bool
}.

(** gold.nh_measure_definitions. *)
Record MeasureDefinition := {
  d_measure_code : string;
  d_crid_weight : option Q;
  d_crid_component : option string;
  d_used_in_crid : option bool
}.

(** ** The common table expressions *)

(** measure_weights *)
Definition measure_weights (defs : list MeasureDefinition)
  : list MeasureDefinition :=
  filter (fun d => Sql.holds (d_used_in_crid d)) defs.

(** MAX(CASE WHEN measure_code = code THEN crid_weight END) *)
Definition weight_of (code : string) (ws : list MeasureDefinition) : option Q :=
  Sql.max_q (map (fun d => if String.eqb (d_measure_code d) code
                           then d_crid_weight d else None) ws).

Record WeightValues := {
  w_410 : option Q; w_453 : option Q; w_407 : option Q; w_409 : option Q;
  w_551 : option Q; w_552 : option Q
}.

(** weight_values: an aggregate without GROUP BY, always one row. *)
Definition weight_values (defs : list MeasureDefinition) : WeightValues :=
  let ws := measure_weights defs in
  {| w_410 := weight_of "410" ws; w_453 := weight_of "453" ws;
     w_407 := weight_of "407" ws; w_409 := weight_of "409" ws;
     w_551 := weight_of "551" ws; w_552 := weight_of "552" ws |}%string.

Definition code_in (codes : list string) (code : string) : bool :=
  existsb (String.eqb code) codes.

Definition mds_codes : list string := ["410"; "453"; "407"; "409"]%string.
Definition claims_codes : list string := ["551"; "552"]%string.

Record MdsBase := {
  mb_ccn : string;
  mb_extract_id : Z;
  mb_as_of_date : date;
  mb_state : string;
  mb_measure_410 : option Q;
  mb_measure_453 : option Q;
  mb_measure_407 : option Q;
  mb_measure_409 : option Q;
  mb_sup_410 : option Z;
  mb_sup_453 : option Z;
  mb_sup_407 : option Z;
  mb_sup_409 : option Z
}.

Definition mds_key : Type := string * Z * date * string.

Definition mds_key_of (m : MdsRow) : mds_key :=
  (m_ccn m, m_extract_id m, m_as_of_date m, m_state m).

Definition mds_key_eqb (a b : mds_key) : bool :=
  match a, b with
  | (c1, e1, d1, s1), (c2, e2, d2, s2) =>
      String.eqb c1 c2 && Z.eqb e1 e2 && Z.eqb d1 d2 && String.eqb s1 s2
  end.

(** MAX(CASE WHEN m.measure_code = code THEN m.four_quarter_avg END) *)
Definition mds_measure (code : string) (g : list MdsRow) : option Q :=
  Sql.max_q (map (fun m => if String.eqb (m_measure_code m) code
                           then m_four_quarter_avg m else None) g).

(** MAX(CASE WHEN m.measure_code = code AND m.has_suppression
             THEN 1 ELSE 0 END) *)
Definition mds_sup (code : string) (g : list MdsRow) : option Z :=
  Sql.max_z
    (map (fun m =>
            Some (if Sql.holds
                       (Sql.and3 (Some (String.eqb (m_measure_code m) code))
                                 (m_has_suppression m))
                  then 1 else 0)) g).

Definition mds_base_row (kg : mds_key * list MdsRow) : MdsBase :=
  match kg with
  | ((ccn, extract_id, as_of_date, state), g) =>
      {| mb_ccn := ccn; mb_extract_id := extract_id;
         mb_as_of_date := as_of_date; mb_state := state;
         mb_measure_410 := mds_measure "410" g;
         mb_measure_453 := mds_measure "453" g;
         mb_measure_407 := mds_measure "407" g;
         mb_measure_409 := mds_measure "409" g;
         mb_sup_410 := mds_sup "410" g;
         mb_sup_453 := mds_sup "453" g;
         mb_sup_407 := mds_sup "407" g;
         mb_sup_409 := mds_sup "409" g |}
  end.

(** mds_base *)
Definition mds_base (mds : list MdsRow) : list MdsBase :=
  map mds_base_row
      (Sql.group_by mds_key_eqb mds_key_of
         (filter (fun m => code_in mds_codes (m_measure_code m)) mds)).

Record ClaimsBase := {
  cb_ccn : string;
  cb_extract_id : Z;
  cb_measure_551 : option Q;
  cb_measure_552 : option Q;
  cb_sup_551 : option Z;
  cb_sup_552 : option Z
}.

Definition claims_key : Type := string * Z.

Definition claims_key_of (c : ClaimsRow) : claims_key :=
  (c_ccn c, c_extract_id c).

Definition claims_key_eqb (a b : claims_key) : bool :=
  match a, b with
  | (c1, e1), (c2, e2) => String.eqb c1 c2 && Z.eqb e1 e2
  end.

Definition claims_measure (code : string) (g : list ClaimsRow) : option Q :=
  Sql.max_q (map (fun c => if String.eqb (c_measure_code c) code
                           then c_adjusted_score c else None) g).

Definition claims_sup (code : string) (g : list ClaimsRow) : option Z :=
  Sql.max_z
    (map (fun c =>
            Some (if Sql.holds
                       (Sql.and3 (Some (String.eqb (c_measure_code c) code))
                                 (c_has_suppression c))
                  then 1 else 0)) g).

Definition claims_base_row (kg : claims_key * list ClaimsRow) : ClaimsBase :=
  match kg with
  | ((ccn, extract_id), g) =>
      {| cb_ccn := ccn; cb_extract_id := extract_id;
         cb_measure_551 := claims_measure "551" g;
         cb_measure_552 := claims_measure "552" g;
         cb_sup_551 := claims_sup "551" g;
         cb_sup_552 := claims_sup "552" g |}
  end.

(** claims_base *)
Definition claims_base (claims : list ClaimsRow) : list ClaimsBase :=
  map claims_base_row
      (Sql.group_by claims_key_eqb claims_key_of
         (filter (fun c => code_in claims_codes (c_measure_code c)) claims)).

Record AllFacilities := {
  af_ccn : string;
  af_extract_id : Z;
  af_as_of_date : date;
  af_state : string;
  af_measure_410 : option Q;
  af_measure_453 : option Q;
  af_measure_407 : option Q;
  af_measure_409 : option Q;
  af_measure_551 : option Q;
  af_measure_552 : option Q;
  af_measures_present : Z;
  af_measures_suppressed : option Z;
  af_is_complete : bool
}.

(** The columns of the NULL-extended right side of the LEFT JOIN. *)
Definition c_measure_551 (c : option ClaimsBase) : option Q :=
  match c with Some c => cb_measure_551 c | None => None end.
Definition c_measure_552 (c : option ClaimsBase) : option Q :=
  match c with Some c => cb_measure_552 c | None => None end.
Definition c_sup_551 (c : option ClaimsBase) : option Z :=
  match c with Some c => cb_sup_551 c | None => None end.
Definition c_sup_552 (c : option ClaimsBase) : option Z :=
  match c with Some c => cb_sup_552 c | None => None end.

(** [value IS NOT NULL AND sup = 0] *)
Definition present_cond (value : option Q) (sup : option Z) : Sql.tri :=
  Sql.and3 (Some (Sql.is_not_null value)) (Sql.eqz sup (Some 0)).

(** [CASE WHEN value IS NOT NULL AND sup = 0 THEN 1 ELSE 0 END] *)
Definition present_bit (value : option Q) (sup : option Z) : Z :=
  if Sql.holds (present_cond value sup) then 1 else 0.

Definition all_facilities_row (mc : MdsBase * option ClaimsBase)
  : AllFacilities :=
  let (m, c) := mc in
  let sup_551 := Some (Sql.coalesce (c_sup_551 c) 0) in
  let sup_552 := Some (Sql.coalesce (c_sup_552 c) 0) in
  {| af_ccn := mb_ccn m;
     af_extract_id := mb_extract_id m;
     af_as_of_date := mb_as_of_date m;
     af_state := mb_state m;
     af_measure_410 := mb_measure_410 m;
     af_measure_453 := mb_measure_453 m;
     af_measure_407 := mb_measure_407 m;
     af_measure_409 := mb_measure_409 m;
     af_measure_551 := c_measure_551 c;
     af_measure_552 := c_measure_552 c;
     af_measures_present :=
       present_bit (mb_measure_410 m) (mb_sup_410 m) +
       present_bit (mb_measure_453 m) (mb_sup_453 m) +
       present_bit (mb_measure_407 m) (mb_sup_407 m) +
       present_bit (mb_measure_409 m) (mb_sup_409 m) +
       present_bit (c_measure_551 c) sup_551 +
       present_bit (c_measure_552 c) sup_552;
     af_measures_suppressed :=
       Sql.addz (Sql.addz (Sql.addz (Sql.addz (Sql.addz
         (mb_sup_410 m) (mb_sup_453 m)) (mb_sup_407 m)) (mb_sup_409 m))
         sup_551) sup_552;
     af_is_complete :=
       Sql.holds
         (Sql.and3 (Sql.and3 (Sql.and3 (Sql.and3 (Sql.and3
            (present_cond (mb_measure_410 m) (mb_sup_410 m))
            (present_cond (mb_measure_453 m) (mb_sup_453 m)))
            (present_cond (mb_measure_407 m) (mb_sup_407 m)))
            (present_cond (mb_measure_409 m) (mb_sup_409 m)))
            (present_cond (c_measure_551 c) sup_551))
            (present_cond (c_measure_552 c) sup_552)) |}.

(** ON m.ccn = c.ccn AND m.extract_id = c.extract_id *)
Definition on_ccn_extract (m : MdsBase) (c : ClaimsBase) : bool :=
  String.eqb (mb_ccn m) (cb_ccn c) && Z.eqb (mb_extract_id m) (cb_extract_id c).

(** all_facilities *)
Definition all_facilities (mds : list MdsRow) (claims : list ClaimsRow)
  : list AllFacilities :=
  map all_facilities_row
      (Sql.left_join on_ccn_extract (mds_base mds) (claims_base claims)).

Record WithComposites := {
  wc_f : AllFacilities;
  wc_completeness_pct : Q;
  wc_mds_composite : option Q;
  wc_claims_utilization : option Q
}.

(** ROUND(f.measures_present * 100.0 / 6, 2) *)
Definition completeness_pct_of (measures_present : Z) : Q :=
  Sql.round (inject_Z measures_present * 100 / 6)%Q 2.

Definition with_composites_row (w : WeightValues) (f : AllFacilities)
  : WithComposites :=
  {| wc_f := f;
     wc_completeness_pct := completeness_pct_of (af_measures_present f);
     wc_mds_composite :=
       if af_is_complete f then
         Sql.add (Sql.add (Sql.add
           (Sql.mul (w_410 w) (af_measure_410 f))
           (Sql.mul (w_453 w) (af_measure_453 f)))
           (Sql.mul (w_407 w) (af_measure_407 f)))
           (Sql.mul (w_409 w) (af_measure_409 f))
       else None;
     wc_claims_utilization :=
       if af_is_complete f then
         Sql.add (Sql.mul (w_551 w) (af_measure_551 f))
                 (Sql.mul (w_552 w) (af_measure_552 f))
       else None |}.

(** with_composites: all_facilities CROSS JOIN the single weight row. *)
Definition with_composites (defs : list MeasureDefinition)
           (mds : list MdsRow) (claims : list ClaimsRow)
  : list WithComposites :=
  map (with_composites_row (weight_values defs)) (all_facilities mds claims).

Definition wc_state (f : WithComposites) : string := af_state (wc_f f).
Definition wc_extract_id (f : WithComposites) : Z := af_extract_id (wc_f f).
Definition wc_is_complete (f : WithComposites) : bool :=
  af_is_complete (wc_f f).

Record StateStats := {
  ss_state : string;
  ss_extract_id : Z;
  ss_facility_count : Z;
  ss_mds_mean : option Q;
  ss_mds_stddev : option Q;
  ss_claims_mean : option Q;
  ss_claims_stddev : option Q
}.

Definition state_key : Type := string * Z.

Definition state_key_eqb (a b : state_key) : bool :=
  match a, b with
  | (s1, e1), (s2, e2) => String.eqb s1 s2 && Z.eqb e1 e2
  end.

Definition state_key_of (f : WithComposites) : state_key :=
  (wc_state f, wc_extract_id f).

Record WithZScores := {
  z_f : WithComposites;
  z_state_facility_count : option Z;
  z_state_mds_mean : option Q;
  z_state_mds_stddev : option Q;
  z_state_claims_mean : option Q;
  z_state_claims_stddev : option Q;
  z_is_small_state : bool;
  z_mds_z_score : option Q;
  z_claims_z_score : option Q
}.

Definition z_ccn (r : WithZScores) : string := af_ccn (wc_f (z_f r)).
Definition z_extract_id (r : WithZScores) : Z := af_extract_id (wc_f (z_f r)).

(** CASE WHEN f.is_complete AND s.facility_count >= 10 AND stddev > 0
         THEN (composite - mean) / stddev ELSE NULL END *)
Definition z_score (is_complete : bool) (facility_count : option Z)
           (composite mean stddev : option Q) : result (option Q) :=
  if Sql.holds (Sql.and3 (Sql.and3 (Some is_complete)
                                   (Sql.gez facility_count (Some 10)))
                         (Sql.gt stddev (Some 0%Q)))
  then Sql.div (Sql.sub composite mean) stddev
  else Ok None.

Definition with_z_scores_row (fs : WithComposites * option StateStats)
  : result WithZScores :=
  let (f, s) := fs in
  let facility_count := option_map ss_facility_count s in
  let mds_mean := match s with Some s => ss_mds_mean s | None => None end in
  let mds_stddev := match s with Some s => ss_mds_stddev s | None => None end in
  let claims_mean :=
    match s with Some s => ss_claims_mean s | None => None end in
  let claims_stddev :=
    match s with Some s => ss_claims_stddev s | None => None end in
  mds_z <- z_score (wc_is_complete f) facility_count
                   (wc_mds_composite f) mds_mean mds_stddev ;;
  claims_z <- z_score (wc_is_complete f) facility_count
                      (wc_claims_utilization f) claims_mean claims_stddev ;;
  Ok {| z_f := f;
        z_state_facility_count := facility_count;
        z_state_mds_mean := mds_mean;
        z_state_mds_stddev := mds_stddev;
        z_state_claims_mean := claims_mean;
        z_state_claims_stddev := claims_stddev;
        z_is_small_state := Sql.coalesce facility_count 0 <? 10;
        z_mds_z_score := mds_z;
        z_claims_z_score := claims_z |}.

(** ON f.state = s.state AND f.extract_id = s.extract_id *)
Definition on_state_extract (f : WithComposites) (s : StateStats) : bool :=
  String.eqb (wc_state f) (ss_state s)
  && Z.eqb (wc_extract_id f) (ss_extract_id s).

Record WithCrid := {
  cr_z : WithZScores;
  cr_crid_value : option Q;
  cr_crid_volatility : option Q
}.

(** ORDER BY key ascending (insertion sort, stable). *)
Fixpoint insert_by {A} (key : A -> Z) (x : A) (l : list A) : list A :=
  match l with
  | [] => [x]
  | y :: t => if key x <=? key y then x :: l else y :: insert_by key x t
  end.

Definition order_by {A} (key : A -> Z) (l : list A) : list A :=
  fold_right (insert_by key) [] l.

Definition lastn {A} (n : nat) (l : list A) : list A :=
  skipn (List.length l - n) l.

(** ROWS BETWEEN p PRECEDING AND CURRENT ROW over an ordered partition:
    each row paired with its frame; [before] holds the rows already
    passed, oldest first. *)
Fixpoint rows_preceding {A} (p : nat) (before rows : list A)
  : list (A * list A) :=
  match rows with
  | [] => []
  | r :: rest =>
      (r, lastn p before ++ [r]) :: rows_preceding p (before ++ [r]) rest
  end.

(** mds_z_score - claims_z_score *)
Definition z_diff (r : WithZScores) : option Q :=
  Sql.sub (z_mds_z_score r) (z_claims_z_score r).

Definition both_z (r : WithZScores) : bool :=
  Sql.holds (Sql.and3 (Some (Sql.is_not_null (z_mds_z_score r)))
                      (Some (Sql.is_not_null (z_claims_z_score r)))).

(** The rows of metrics.crid_monthly (without id and created_at). *)
Record CridRecord := {
  ccn : string;
  extract_id : Z;
  as_of_date : date;
  state : string;
  mds_composite : option Q;
  claims_utilization : option Q;
  mds_z_score : option Q;
  claims_z_score : option Q;
  crid_value : option Q;
  crid_volatility : option Q;
  completeness_pct : Q;
  measures_present : Z;
  measures_suppressed : option Z;
  flags : list string;
  measure_410_score : option Q;
  measure_453_score : option Q;
  measure_407_score : option Q;
  measure_409_score : option Q;
  measure_551_score : option Q;
  measure_552_score : option Q;
  state_facility_count : option Z;
  state_mds_mean : option Q;
  state_mds_stddev : option Q;
  state_claims_mean : option Q;
  state_claims_stddev : option Q
}.

(** [CASE WHEN cond THEN 'flag' END] *)
Definition flag_when (cond : Sql.tri) (flag : string) : option string :=
  if Sql.holds cond then Some flag else None.

(** ARRAY_REMOVE(ARRAY[...], NULL) *)
Definition flags_of (r : WithCrid) : list string :=
  let z := cr_z r in
  let crid := cr_crid_value r in
  Sql.non_null
    [ flag_when (Sql.not3 (Some (wc_is_complete (z_f z))))
                "INCOMPLETE_MEASURES";
      flag_when (Some (z_is_small_state z)) "SMALL_STATE";
      flag_when (Sql.gt crid (Some 2%Q)) "HIGH_POSITIVE_CRID";
      flag_when (Sql.lt crid (Some (-2)%Q)) "HIGH_NEGATIVE_CRID";
      flag_when (Sql.gt crid (Some 3%Q)) "EXTREME_POSITIVE_CRID";
      flag_when (Sql.lt crid (Some (-3)%Q)) "EXTREME_NEGATIVE_CRID";
      flag_when (Sql.gt (cr_crid_volatility r) (Some (15 # 10)%Q))
                "HIGH_VOLATILITY";
      flag_when (Sql.and3 (Sql.gt (Sql.abs (z_mds_z_score z)) (Some 2%Q))
                          (Sql.lt (Sql.abs (z_claims_z_score z)) (Some 1%Q)))
                "MDS_OUTLIER";
      flag_when (Sql.and3 (Sql.gt (Sql.abs (z_claims_z_score z)) (Some 2%Q))
                          (Sql.lt (Sql.abs (z_mds_z_score z)) (Some 1%Q)))
                "CLAIMS_OUTLIER" ]%string.

(** The final SELECT ... FROM with_crid. *)
Definition select_row (r : WithCrid) : CridRecord :=
  let z := cr_z r in
  let f := z_f z in
  let a := wc_f f in
  {| ccn := af_ccn a; extract_id := af_extract_id a;
     as_of_date := af_as_of_date a; state := af_state a;
     mds_composite := wc_mds_composite f;
     claims_utilization := wc_claims_utilization f;
     mds_z_score := z_mds_z_score z;
     claims_z_score := z_claims_z_score z;
     crid_value := cr_crid_value r;
     crid_volatility := cr_crid_volatility r;
     completeness_pct := wc_completeness_pct f;
     measures_present := af_measures_present a;
     measures_suppressed := af_measures_suppressed a;
     flags := flags_of r;
     measure_410_score := af_measure_410 a;
     measure_453_score := af_measure_453 a;
     measure_407_score := af_measure_407 a;
     measure_409_score := af_measure_409 a;
     measure_551_score := af_measure_551 a;
     measure_552_score := af_measure_552 a;
     state_facility_count := z_state_facility_count z;
     state_mds_mean := z_state_mds_mean z;
     state_mds_stddev := z_state_mds_stddev z;
     state_claims_mean := z_state_claims_mean z;
     state_claims_stddev := z_state_claims_stddev z |}.

(** ** The columns as metrics.crid_monthly stores them

    The INSERT assigns each value of the SELECT to its column: a value
    that goes to a NUMERIC(precision, scale) column is rounded to the
    scale, half away from zero, and the assignment fails (numeric field
    overflow) when the rounded value needs more than precision - scale
    digits before the point. *)
Definition numeric_value (precision scale : nat) (v : Q) : result Q :=
  let r := Sql.round v scale in
  if Sql.Qlt_bool (Qabs r) (inject_Z (10 ^ Z.of_nat (precision - scale)))
  then Ok r else Raise NumericValueOutOfRange.

Definition numeric_column (precision scale : nat) (x : option Q)
  : result (option Q) :=
  match x with
  | None => Ok None
  | Some v => r <- numeric_value precision scale v ;; Ok (Some r)
  end.

(** COUNT( * ) is a bigint; an INTEGER column takes it when it is in the
    range of a four-byte integer. *)
Definition integer_column (x : option Z) : result (option Z) :=
  match x with
  | None => Ok None
  | Some n => if (- 2 ^ 31 <=? n) && (n <? 2 ^ 31) then Ok (Some n)
              else Raise NumericValueOutOfRange
  end.

(** The record the table holds for a row of the SELECT, without id and
    created_at; the integer expressions and the text columns are stored
    as they are. *)
Definition store_row (r : CridRecord) : result CridRecord :=
  mc <- numeric_column 12 6 (mds_composite r) ;;
  cu <- numeric_column 12 6 (claims_utilization r) ;;
  mz <- numeric_column 12 6 (mds_z_score r) ;;
  cz <- numeric_column 12 6 (claims_z_score r) ;;
  cv <- numeric_column 12 6 (crid_value r) ;;
  vol <- numeric_column 12 6 (crid_volatility r) ;;
  pct <- numeric_value 5 2 (completeness_pct r) ;;
  m410 <- numeric_column 12 6 (measure_410_score r) ;;
  m453 <- numeric_column 12 6 (measure_453_score r) ;;
  m407 <- numeric_column 12 6 (measure_407_score r) ;;
  m409 <- numeric_column 12 6 (measure_409_score r) ;;
  m551 <- numeric_column 12 6 (measure_551_score r) ;;
  m552 <- numeric_column 12 6 (measure_552_score r) ;;
  fc <- integer_column (state_facility_count r) ;;
  mm <- numeric_column 12 6 (state_mds_mean r) ;;
  ms <- numeric_column 12 6 (state_mds_stddev r) ;;
  cm <- numeric_column 12 6 (state_claims_mean r) ;;
  cs <- numeric_column 12 6 (state_claims_stddev r) ;;
  Ok {| ccn := ccn r; extract_id := extract_id r;
        as_of_date := as_of_date r; state := state r;
        mds_composite := mc; claims_utilization := cu;
        mds_z_score := mz; claims_z_score := cz;
        crid_value := cv; crid_volatility := vol;
        completeness_pct := pct;
        measures_present := measures_present r;
        measures_suppressed := measures_suppressed r;
        flags := flags r;
        measure_410_score := m410; measure_453_score := m453;
        measure_407_score := m407; measure_409_score := m409;
        measure_551_score := m551; measure_552_score := m552;
        state_facility_count := fc;
        state_mds_mean := mm; state_mds_stddev := ms;
        state_claims_mean := cm; state_claims_stddev := cs |}.

(** The records the table holds for the rows of the SELECT: one row
    that does not fit its columns fails the statement. *)
Definition stored_table (rows : list CridRecord) : result (list CridRecord) :=
  map_result store_row rows.

Section Transform.

(** The square root PostgreSQL applies to the population variance. *)
Variable numeric_sqrt : Q -> Q.

(** STDDEV_POP *)
Definition stddev_pop (l : list (option Q)) : option Q :=
  match Sql.non_null l with
  | [] => None
  | xs => Some (numeric_sqrt (Sql.var_pop xs))
  end.

Definition state_stats_row (kg : state_key * list WithComposites)
  : StateStats :=
  match kg with
  | ((state, extract_id), g) =>
      {| ss_state := state; ss_extract_id := extract_id;
         ss_facility_count := Sql.count_star g;
         ss_mds_mean := Sql.avg (map wc_mds_composite g);
         ss_mds_stddev := stddev_pop (map wc_mds_composite g);
         ss_claims_mean := Sql.avg (map wc_claims_utilization g);
         ss_claims_stddev := stddev_pop (map wc_claims_utilization g) |}
  end.

(** state_stats *)
Definition state_stats (wc : list WithComposites) : list StateStats :=
  map state_stats_row
      (Sql.group_by state_key_eqb state_key_of (filter wc_is_complete wc)).

(** with_z_scores *)
Definition with_z_scores (wc : list WithComposites)
  : result (list WithZScores) :=
  map_result with_z_scores_row
             (Sql.left_join on_state_extract wc (state_stats wc)).

Definition with_crid_row (rf : WithZScores * list WithZScores) : WithCrid :=
  let (r, frame) := rf in
  {| cr_z := r;
     cr_crid_value := if both_z r then z_diff r else None;
     cr_crid_volatility :=
       if both_z r then stddev_pop (map z_diff frame) else None |}.

(** with_crid: the window runs per ccn, ordered by extract_id::int. *)
Definition with_crid (window_preceding : Z) (zs : list WithZScores)
  : list WithCrid :=
  flat_map (fun kg : string * list WithZScores =>
              map with_crid_row
                  (rows_preceding (Z.to_nat window_preceding) []
                                  (order_by z_extract_id (snd kg))))
           (Sql.group_by String.eqb z_ccn zs).

(** The rows the INSERT ... SELECT offers to metrics.crid_monthly. *)
Definition materialize_sql (window_preceding : Z)
           (defs : list MeasureDefinition)
           (mds : list MdsRow) (claims : list ClaimsRow)
  : result (list CridRecord) :=
  zs <- with_z_scores (with_composites defs mds claims) ;;
  Ok (map select_row (with_crid window_preceding zs)).

End Transform.

(** ** The database, the connection and [main] *)

(** The relations the script touches; [crid_monthly = None] when the table
    does not exist. *)
Record Database := {
  nh_measure_definitions : list MeasureDefinition;
  nh_quality_mds : list MdsRow;
  nh_quality_claims : list ClaimsRow;
  crid_monthly : option (list CridRecord)
}.

Definition set_crid_monthly (t : option (list CridRecord)) (db : Database)
  : Database :=
  {| nh_measure_definitions := nh_measure_definitions db;
     nh_quality_mds := nh_quality_mds db;
     nh_quality_claims := nh_quality_claims db;
     crid_monthly := t |}.

(** A psycopg2 connection: statements act on [session], the state inside
    the open transaction; [commit] publishes it; closing the connection
    drops what was not committed. *)
Record Connection := {
  committed : Database;
  session : Database
}.

Definition get_connection (db : Database) : Connection :=
  {| committed := db; session := db |}.

Definition commit (conn : Connection) : Connection :=
  {| committed := session conn; session := session conn |}.

Definition close (conn : Connection) : Database := committed conn.

(** CONSTRAINT crid_monthly_unique UNIQUE (ccn, extract_id) *)
Definition same_ccn_extract (a b : CridRecord) : bool :=
  String.eqb (ccn a) (ccn b) && Z.eqb (extract_id a) (extract_id b).

Fixpoint crid_monthly_unique (t : list CridRecord) : bool :=
  match t with
  | [] => true
  | r :: rest =>
      negb (existsb (same_ccn_extract r) rest) && crid_monthly_unique rest
  end.

(** INSERT INTO metrics.crid_monthly: one statement, all rows or none,
    under crid_monthly_unique.  The rows are kept as the SELECT returns
    them; [stored_table] gives the records the table holds for them. *)
Definition insert_into (table rows : list CridRecord)
  : result (list CridRecord) :=
  if crid_monthly_unique (table ++ rows) then Ok (table ++ rows)
  else Raise UniqueViolation.

(** create_schema: CREATE SCHEMA IF NOT EXISTS metrics; commit. *)
Definition create_schema (conn : Connection) : Connection := commit conn.

(** drop_and_create_table: DROP TABLE IF EXISTS; CREATE TABLE; commit. *)
Definition drop_and_create_table (conn : Connection) : Connection :=
  commit {| committed := committed conn;
            session := set_crid_monthly (Some []) (session conn) |}.

(** create_indexes: the rows are not touched; commit. *)
Definition create_indexes (conn : Connection) : Connection := commit conn.

(** A statement that fails aborts the open transaction: what the session
    had not committed is lost. *)
Definition abort (conn : Connection) : Connection :=
  {| committed := committed conn; session := committed conn |}.

(** run_validation: SELECT statements only; the first one reads
    metrics.crid_monthly and fails when the table does not exist. *)
Definition run_validation (conn : Connection) : option Error * Connection :=
  match crid_monthly (session conn) with
  | None => (Some UndefinedTable, abort conn)
  | Some _ => (None, conn)
  end.

Section Run.

Variable numeric_sqrt : Q -> Q.

(** materialize_crid: the ValueError is raised before any statement is
    sent; a statement that fails leaves the transaction aborted. *)
Definition materialize_crid (conn : Connection) (volatility_window : Z)
  : result Z * Connection :=
  if negb (existsb (Z.eqb volatility_window) [3; 4])
  then (Raise ValueError, conn)
  else
    let window_preceding := volatility_window - 1 in
    let db := session conn in
    match crid_monthly db with
    | None => (Raise UndefinedTable, abort conn)
    | Some table =>
        match rows <- materialize_sql numeric_sqrt window_preceding
                        (nh_measure_definitions db) (nh_quality_mds db)
                        (nh_quality_claims db) ;;
              table' <- insert_into table rows ;;
              Ok (rows, table')
        with
        | Raise e => (Raise e, abort conn)
        | Ok (rows, table') =>
            (Ok (Sql.count_star rows),
             commit {| committed := committed conn;
                       session := set_crid_monthly (Some table') db |})
        end
    end.

(** The command line after argparse. *)
Record Args := {
  validate : bool;
  dry_run : bool;
  volatility_window : Z
}.

(** main: the outcome and the database left behind once the connection
    is closed.  A dry run opens crid_materialize.sql beside the script
    before it connects; the repository holds no such file, so open()
    raises. *)
Definition main (args : Args) (db : Database) : option Error * Database :=
  if negb (existsb (Z.eqb (volatility_window args)) [3; 4])
  then (Some UsageError, db)
  else if dry_run args then (Some FileNotFoundError, db)
  else
    let conn := get_connection db in
    if validate args then
      let (outcome, conn) := run_validation conn in
      (outcome, close conn)
    else
      let conn := create_schema conn in
      let conn := drop_and_create_table conn in
      match materialize_crid conn (volatility_window args) with
      | (Raise e, conn) => (Some e, close conn)
      | (Ok _, conn) =>
          let conn := create_indexes conn in
          let (outcome, conn) := run_validation conn in
          (outcome, close conn)
      end.

End Run.

(** ** An executable square root

    [sqrt_floor x] is the square root of [x] rounded down at sixteen digits
    below the denominator of [x], in lowest terms; it is exact on squares
    of rationals. *)
Definition sqrt_digits : positive := 10 ^ 16.

Definition sqrt_floor (x : Q) : Q :=
  let r := Qred x in
  let n := Qnum r in
  let d := Qden r in
  if n <=? 0 then 0%Q
  else Qred (Z.sqrt (n * Zpos d * Zpos sqrt_digits * Zpos sqrt_digits)
             # (d * sqrt_digits)).

(** ** Sample relations

    One state ("01") with ten complete facilities over three extracts.
    The composites are chosen so that every cohort variance is a square
    (4, 1, 4 for MDS, 1 for claims): facility 015001 has z-scores
    0.5, 1, 1.5 against 0, 0, 0.  Facility 015011 lacks measure 409,
    facility 025001 is alone in its state, and facility 015012 has claims
    observations only. *)

Definition sample_mds_row (c : string) (e : Z) (code : string) (v : Q)
  : MdsRow :=
  {| m_ccn := c; m_extract_id := e; m_as_of_date := e * 100 + 1;
     m_state := substring 0 2 c; m_measure_code := code;
     m_four_quarter_avg := Some v; m_has_suppression := Some false |}.

Definition sample_claims_row (c : string) (e : Z) (code : string) (v : Q)
  : ClaimsRow :=
  {| c_ccn := c; c_extract_id := e; c_measure_code := code;
     c_adjusted_score := Some v; c_has_suppression := Some false |}.

Definition sample_mds_of (e : Z) (cq : string * Z) : list MdsRow :=
  [ sample_mds_row (fst cq) e "410" (inject_Z (20 + snd cq));
    sample_mds_row (fst cq) e "453" 2;
    sample_mds_row (fst cq) e "407" 3;
    sample_mds_row (fst cq) e "409" 4 ].

Definition sample_claims_of (e : Z) (cu : string * Z) : list ClaimsRow :=
  [ sample_claims_row (fst cu) e "551" (inject_Z (20 + snd cu));
    sample_claims_row (fst cu) e "552" 5 ].

Definition sample_ccns : list string :=
  [ "015001"; "015002"; "015003"; "015004"; "015005";
    "015006"; "015007"; "015008"; "015009"; "015010" ]%string.

Definition sample_extract (e : Z) (q u : list Z)
  : list MdsRow * list ClaimsRow :=
  (flat_map (sample_mds_of e) (combine sample_ccns q),
   flat_map (sample_claims_of e) (combine sample_ccns u)).

Definition sample_u : list Z := [0; 2; -2; 1; -1; 0; 0; 0; 0; 0].

Definition sample_extracts : list (list MdsRow * list ClaimsRow) :=
  [ sample_extract 202401 [1; -5; 3; 1; 1; 1; -1; -1; 0; 0] sample_u;
    sample_extract 202402 [1; -1; -1; -1; -1; -1; 1; 1; 1; 1] sample_u;
    sample_extract 202403 [3; -5; 2; 1; -1; 0; 0; 0; 0; 0] sample_u ].

Definition sample_mds : list MdsRow :=
  flat_map fst sample_extracts
  ++ [ sample_mds_row "015011" 202401 "410" 21;
       sample_mds_row "015011" 202401 "453" 2;
       sample_mds_row "015011" 202401 "407" 3 ]
  ++ sample_mds_of 202401 ("025001"%string, 0).

Definition sample_claims : list ClaimsRow :=
  flat_map snd sample_extracts
  ++ sample_claims_of 202401 ("015011"%string, 0)
  ++ sample_claims_of 202401 ("025001"%string, 0)
  ++ sample_claims_of 202401 ("015012"%string, 0).

Definition sample_definition (code : string) : MeasureDefinition :=
  {| d_measure_code := code; d_crid_weight := Some 1%Q;
     d_crid_component := None; d_used_in_crid := Some true |}.

Definition sample_defs : list MeasureDefinition :=
  map sample_definition (mds_codes ++ claims_codes).

(** The weight table without a definition for measure 552. *)
Definition sample_defs_without_552 : list MeasureDefinition :=
  map sample_definition (mds_codes ++ ["551"%string]).

Definition sample_db : Database :=
  {| nh_measure_definitions := sample_defs;
     nh_quality_mds := sample_mds;
     nh_quality_claims := sample_claims;
     crid_monthly := None |}.

Definition sample_args : Args :=
  {| validate := false; dry_run := false; volatility_window := 3 |}.

(** The output of the sample run, and the rows of facility 015001 at its
    first and third extract. *)
Definition sample_rows : list CridRecord :=
  Eval vm_compute in
    match materialize_sql sqrt_floor 2 sample_defs sample_mds sample_claims with
    | Ok rows => rows
    | Raise _ => []
    end.

Definition null_row : CridRecord :=
  {| ccn := ""; extract_id := 0; as_of_date := 0; state := "";
     mds_composite := None; claims_utilization := None;
     mds_z_score := None; claims_z_score := None;
     crid_value := None; crid_volatility := None;
     completeness_pct := 0; measures_present := 0;
     measures_suppressed := None; flags := [];
     measure_410_score := None; measure_453_score := None;
     measure_407_score := None; measure_409_score := None;
     measure_551_score := None; measure_552_score := None;
     state_facility_count := None; state_mds_mean := None;
     state_mds_stddev := None; state_claims_mean := None;
     state_claims_stddev := None |}.

Definition sample_row_1 : CridRecord := nth 0 sample_rows null_row.

Definition sample_row_3 : CridRecord := nth 2 sample_rows null_row.

(** The with_composites row of facility 015011, which lacks measure 409. *)
Definition null_mds_base : MdsBase :=
  {| mb_ccn := ""; mb_extract_id := 0; mb_as_of_date := 0; mb_state := "";
     mb_measure_410 := None; mb_measure_453 := None;
     mb_measure_407 := None; mb_measure_409 := None;
     mb_sup_410 := None; mb_sup_453 := None;
     mb_sup_407 := None; mb_sup_409 := None |}.

Definition sample_incomplete : WithComposites :=
  nth 30 (with_composites sample_defs sample_mds sample_claims)
      (with_composites_row (weight_values [])
                           (all_facilities_row (null_mds_base, None))).

(** The sample run without a weight for measure 552. *)
Definition sample_db_without_552 : Database :=
  {| nh_measure_definitions := sample_defs_without_552;
     nh_quality_mds := sample_mds;
     nh_quality_claims := sample_claims;
     crid_monthly := None |}.

Definition sample_rows_without_552 : list CridRecord :=
  Eval vm_compute in
    match materialize_sql sqrt_floor 2 sample_defs_without_552
                          sample_mds sample_claims with
    | Ok rows => rows
    | Raise _ => []
    end.

(** A command line asking for a window of five months. *)
Definition sample_args_window_5 : Args :=
  {| validate := false; dry_run := false; volatility_window := 5 |}.


(** ** Notions the properties are stated with *)

(** The suppression bit of a pivoted measure as a boolean; a facility
    without claims rows has no suppressed claims measure. *)
Definition suppressed (sup : option Z) : bool :=
  match sup with Some s => s =? 1 | None => false end.

(** A suppression bit as the pivots produce it. *)
Definition is_bit (s : option Z) : Prop := s = Some 0 \/ s = Some 1.

(** The six per-measure (value, suppressed) pairs of a facility-period. *)
Definition measure_pairs (m : MdsBase) (c : option ClaimsBase)
  : list (option Q * bool) :=
  [ (mb_measure_410 m, suppressed (mb_sup_410 m));
    (mb_measure_453 m, suppressed (mb_sup_453 m));
    (mb_measure_407 m, suppressed (mb_sup_407 m));
    (mb_measure_409 m, suppressed (mb_sup_409 m));
    (c_measure_551 c, suppressed (c_sup_551 c));
    (c_measure_552 c, suppressed (c_sup_552 c)) ].

(** Codes with a value that is not NULL and that are not suppressed. *)
Definition count_present (pairs : list (option Q * bool)) : Z :=
  Z.of_nat
    (List.length
       (filter (fun p => Sql.is_not_null (fst p) && negb (snd p)) pairs)).

(** Codes flagged suppressed, whatever their value. *)
Definition count_suppressed (pairs : list (option Q * bool)) : Z :=
  Z.of_nat (List.length (filter snd pairs)).

(** The pairs the LEFT JOIN of all_facilities ranges over. *)
Definition joined (mds : list MdsRow) (claims : list ClaimsRow)
  : list (MdsBase * option ClaimsBase) :=
  Sql.left_join on_ccn_extract (mds_base mds) (claims_base claims).

(** The peer cohort of a (state, extract_id): its complete facilities. *)
Definition cohort (wc : list WithComposites) (st : string) (e : Z)
  : list WithComposites :=
  filter (fun f => wc_is_complete f && String.eqb st (wc_state f)
                   && Z.eqb e (wc_extract_id f)) wc.

(** The current period of a facility and the [W - 1] periods before it,
    oldest first, read off the output table. *)
Definition window_of (rows : list CridRecord) (r : CridRecord) (W : nat)
  : list CridRecord :=
  lastn W (order_by extract_id
             (filter (fun x => String.eqb (ccn r) (ccn x)
                               && (extract_id x <=? extract_id r)) rows)).

(** A (ccn, extract_id) has an MDS observation of a recognized code. *)
Definition in_mds_source (mds : list MdsRow) (c : string) (e : Z) : Prop :=
  exists m, In m mds /\ m_ccn m = c /\ m_extract_id m = e
            /\ code_in mds_codes (m_measure_code m) = true.

(** A (ccn, extract_id) has a claims observation of a recognized code. *)
Definition in_claims_source (claims : list ClaimsRow) (c : string) (e : Z)
  : Prop :=
  exists x, In x claims /\ c_ccn x = c /\ c_extract_id x = e
            /\ code_in claims_codes (c_measure_code x) = true.

(** The output rows of a (ccn, extract_id). *)
Definition rows_of (rows : list CridRecord) (c : string) (e : Z)
  : list CridRecord :=
  filter (fun r => String.eqb c (ccn r) && Z.eqb e (extract_id r)) rows.

(** s.facility_count as the LEFT JOIN with state_stats delivers it: NULL
    for a (state, extract_id) without complete facility. *)
Definition facility_count_of (co : list WithComposites) : option Z :=
  match co with
  | [] => None
  | _ => Some (Sql.count_star co)
  end.

(** The value of [z_score] once the guard has excluded the fault. *)
Definition z_score_value (is_complete : bool) (facility_count : option Z)
           (composite mean stddev : option Q) : option Q :=
  if Sql.holds (Sql.and3 (Sql.and3 (Some is_complete)
                                   (Sql.gez facility_count (Some 10)))
                         (Sql.gt stddev (Some 0%Q)))
  then Sql.lift2 Qdiv (Sql.sub composite mean) stddev
  else None.

(** The row [with_z_scores_row] returns. *)
Definition with_z_scores_value (f : WithComposites) (s : option StateStats)
  : WithZScores :=
  let facility_count := option_map ss_facility_count s in
  let mds_mean := match s with Some s => ss_mds_mean s | None => None end in
  let mds_stddev := match s with Some s => ss_mds_stddev s | None => None end in
  let claims_mean :=
    match s with Some s => ss_claims_mean s | None => None end in
  let claims_stddev :=
    match s with Some s => ss_claims_stddev s | None => None end in
  {| z_f := f;
     z_state_facility_count := facility_count;
     z_state_mds_mean := mds_mean;
     z_state_mds_stddev := mds_stddev;
     z_state_claims_mean := claims_mean;
     z_state_claims_stddev := claims_stddev;
     z_is_small_state := Sql.coalesce facility_count 0 <? 10;
     z_mds_z_score :=
       z_score_value (wc_is_complete f) facility_count
                     (wc_mds_composite f) mds_mean mds_stddev;
     z_claims_z_score :=
       z_score_value (wc_is_complete f) facility_count
                     (wc_claims_utilization f) claims_mean claims_stddev |}.

(** The output rows of one ccn partition with [p] rows preceding. *)
Definition partition_rows (numeric_sqrt : Q -> Q) (p : nat)
           (part : list WithZScores) : list CridRecord :=
  map (fun rf => select_row (with_crid_row numeric_sqrt rf))
      (rows_preceding p [] (order_by z_extract_id part)).

(** A (ccn, extract_id) of the measure source, whatever the family. *)
Definition in_measure_source (mds : list MdsRow) (claims : list ClaimsRow)
           (c : string) (e : Z) : Prop :=
  in_mds_source mds c e \/ in_claims_source claims c e.

(** Coverage as the specification words it: one output row for every
    (ccn, extract_id) of the measure source. *)
Definition covers_measure_source (mds : list MdsRow) (claims : list ClaimsRow)
           (rows : list CridRecord) : Prop :=
  forall c e, in_measure_source mds claims c e ->
              exists r, rows_of rows c e = [r].


(** The weight set the specification asks for: one used definition for
    each of the six codes. *)
Definition weight_set_valid (defs : list MeasureDefinition) : Prop :=
  forall code, In code (mds_codes ++ claims_codes) ->
    List.length (filter (fun d => String.eqb (d_measure_code d) code)
                        (measure_weights defs)) = 1%nat.

(** Weight validation as the specification words it: a weight set that
    is not valid makes the run fail. *)
Definition rejects_invalid_weights (numeric_sqrt : Q -> Q) (args : Args)
           (db : Database) : Prop :=
  ~ weight_set_valid (nh_measure_definitions db) ->
  fst (main numeric_sqrt args db) <> None.

(** The key of crid_monthly_unique. *)
Definition crid_key (r : CridRecord) : string * Z := (ccn r, extract_id r).

(** A relation in ascending order of a key. *)
Definition ascending {A} (key : A -> Z) (l : list A) : Prop :=
  StronglySorted Z.le (map key l).

(** The rows [with_z_scores] returns. *)
Definition with_z_scores_rows (numeric_sqrt : Q -> Q)
           (wc : list WithComposites) : list WithZScores :=
  map (fun f => with_z_scores_value
                  f (find (on_state_extract f) (state_stats numeric_sqrt wc)))
      wc.

(** ** run_validation: the classifications of the report *)

(** ['flag' = ANY(flags)] *)
Definition any_flag (flag : string) (r : CridRecord) : bool :=
  existsb (String.eqb flag) (flags r).

(** Query 4: the completeness bucket of a row. *)
Definition completeness_bucket (r : CridRecord) : string :=
  if Qeq_bool (completeness_pct r) 100 then "100% (complete)"
  else if Qle_bool 83 (completeness_pct r) then "83-99% (5 measures)"
  else if Qle_bool 67 (completeness_pct r) then "67-82% (4 measures)"
  else "<67% (3 or fewer)".

(** Query 5: the reason reported for a row whose crid_value is NULL. *)
Definition null_reason (r : CridRecord) : string :=
  if any_flag "INCOMPLETE_MEASURES" r && any_flag "SMALL_STATE" r
  then "Both: incomplete + small state"
  else if any_flag "INCOMPLETE_MEASURES" r then "Incomplete measures"
  else if any_flag "SMALL_STATE" r then "Small state (<10 facilities)"
  else "Other/Unknown".

(** The elements of the flags array with their conditions, in the order
    of the ARRAY constructor. *)
Definition flag_conditions (r : WithCrid) : list (Sql.tri * string) :=
  let z := cr_z r in
  let crid := cr_crid_value r in
  [ (Sql.not3 (Some (wc_is_complete (z_f z))), "INCOMPLETE_MEASURES");
    (Some (z_is_small_state z), "SMALL_STATE");
    (Sql.gt crid (Some 2%Q), "HIGH_POSITIVE_CRID");
    (Sql.lt crid (Some (-2)%Q), "HIGH_NEGATIVE_CRID");
    (Sql.gt crid (Some 3%Q), "EXTREME_POSITIVE_CRID");
    (Sql.lt crid (Some (-3)%Q), "EXTREME_NEGATIVE_CRID");
    (Sql.gt (cr_crid_volatility r) (Some (15 # 10)%Q), "HIGH_VOLATILITY");
    (Sql.and3 (Sql.gt (Sql.abs (z_mds_z_score z)) (Some 2%Q))
              (Sql.lt (Sql.abs (z_claims_z_score z)) (Some 1%Q)),
     "MDS_OUTLIER");
    (Sql.and3 (Sql.gt (Sql.abs (z_claims_z_score z)) (Some 2%Q))
              (Sql.lt (Sql.abs (z_mds_z_score z)) (Some 1%Q)),
     "CLAIMS_OUTLIER") ]%string.

(** The nine flag names, in the order of the array. *)
Definition flag_names : list string :=
  [ "INCOMPLETE_MEASURES"; "SMALL_STATE"; "HIGH_POSITIVE_CRID";
    "HIGH_NEGATIVE_CRID"; "EXTREME_POSITIVE_CRID"; "EXTREME_NEGATIVE_CRID";
    "HIGH_VOLATILITY"; "MDS_OUTLIER"; "CLAIMS_OUTLIER" ]%string.

(** [s] keeps some of the elements of [l], in their order. *)
Inductive subsequence {A} : list A -> list A -> Prop :=
| subseq_nil : subsequence [] []
| subseq_skip x s l : subsequence s l -> subsequence s (x :: l)
| subseq_keep x s l : subsequence s l -> subsequence (x :: s) (x :: l).

(** The grouping columns of mds_base as an output row carries them. *)
Definition output_key (r : CridRecord) : mds_key :=
  (ccn r, extract_id r, as_of_date r, state r).

(** The facility-periods of the MDS source: the distinct
    (ccn, extract_id, as_of_date, state) of its rows with a recognized
    code. *)
Definition facility_periods (mds : list MdsRow) : list mds_key :=
  Sql.distinct mds_key_eqb
    (map mds_key_of
         (filter (fun m => code_in mds_codes (m_measure_code m)) mds)).

(** (ccn, extract_id) determines as_of_date and state among the MDS rows
    with a recognized code. *)
Definition period_determined (mds : list MdsRow) : Prop :=
  forall m1 m2,
    In m1 mds -> In m2 mds ->
    code_in mds_codes (m_measure_code m1) = true ->
    code_in mds_codes (m_measure_code m2) = true ->
    m_ccn m1 = m_ccn m2 -> m_extract_id m1 = m_extract_id m2 ->
    m_as_of_date m1 = m_as_of_date m2 /\ m_state m1 = m_state m2.

(** [v] is the largest non-NULL value of [vals], NULL when there is
    none. *)
Definition is_largest (v : option Q) (vals : list (option Q)) : Prop :=
  match v with
  | Some w => In (Some w) vals /\ forall a, In (Some a) vals -> (a <= w)%Q
  | None => forall a, ~ In (Some a) vals
  end.

(** The four_quarter_avg values the MDS source holds for a code at the
    facility-period of an output row. *)
Definition mds_observations (mds : list MdsRow) (r : CridRecord)
           (code : string) : list (option Q) :=
  map m_four_quarter_avg
      (filter (fun m => mds_key_eqb (output_key r) (mds_key_of m)
                        && String.eqb (m_measure_code m) code) mds).

(** The adjusted_score values the claims source holds for a code at the
    (ccn, extract_id) of an output row. *)
Definition claims_observations (claims : list ClaimsRow) (r : CridRecord)
           (code : string) : list (option Q) :=
  map c_adjusted_score
      (filter (fun c => claims_key_eqb (ccn r, extract_id r) (claims_key_of c)
                        && String.eqb (c_measure_code c) code) claims).

(** The definitions the weights are read from: used in CRID, of one of
    the six codes. *)
Definition weight_definition (d : MeasureDefinition) : bool :=
  Sql.holds (d_used_in_crid d)
  && code_in (mds_codes ++ claims_codes) (d_measure_code d).



(** ** More sample relations *)

(** The row of facility 015011 in the sample run, which lacks measure
    409. *)
Definition sample_row_31 : CridRecord := nth 30 sample_rows null_row.

(** A connection whose output table still holds a row of the sample
    run. *)
Definition stale_connection : Connection :=
  get_connection (set_crid_monthly (Some [sample_row_1]) sample_db).

(** A facility-period whose observation of measure 410 is suppressed. *)
Definition suppressed_observation : MdsRow :=
  {| m_ccn := "015001"; m_extract_id := 202401; m_as_of_date := 20240101;
     m_state := "01"; m_measure_code := "410";
     m_four_quarter_avg := Some 21%Q; m_has_suppression := Some true |}.

Definition suppressed_rows : list CridRecord :=
  Eval vm_compute in
    match materialize_sql sqrt_floor 2 sample_defs [suppressed_observation] []
    with
    | Ok rows => rows
    | Raise _ => []
    end.

(** ** Stored records: notions and sample relations *)

(** The integer of which [Sql.round x d] is the multiple of 10^-d. *)
Definition round_units (x : Q) (d : nat) : Z :=
  let n := Qfloor (Qabs x * inject_Z (10 ^ Z.of_nat d) + (1 # 2))%Q in
  if Qle_bool 0 x then n else - n.

(** The sum, the mean and the population variance of a list of values
    as the specification words them: the variance is the mean of the
    squared deviations from the mean, divisor N (not N - 1). *)
Fixpoint total (xs : list Q) : Q :=
  match xs with
  | [] => 0%Q
  | x :: rest => (x + total rest)%Q
  end.

Definition mean_of (xs : list Q) : Q :=
  (total xs / inject_Z (Z.of_nat (List.length xs)))%Q.

Definition population_variance (xs : list Q) : Q :=
  (total (map (fun x => (x - mean_of xs) * (x - mean_of xs)) xs)
   / inject_Z (Z.of_nat (List.length xs)))%Q.

(** The score identity of the specification on a record: crid_value is
    mds_z_score minus claims_z_score within a tolerance. *)
Definition score_identity_within (tol : Q) (r : CridRecord) : Prop :=
  forall c, crid_value r = Some c ->
    exists qz uz,
      mds_z_score r = Some qz /\ claims_z_score r = Some uz
      /\ (Qabs (c - (qz - uz)) <= tol)%Q.

(** The flag boundary of the specification on a record: a crid_value of
    exactly 2 does not come with HIGH_POSITIVE_CRID. *)
Definition strict_boundary (r : CridRecord) : Prop :=
  forall c, crid_value r = Some c -> (c == 2)%Q ->
            ~ In "HIGH_POSITIVE_CRID"%string (flags r).

(** One extract of the ten sample facilities with the given values of
    measures 410 and 551. *)
Definition cohort_extract (e : Z) (q u : list Q)
  : list MdsRow * list ClaimsRow :=
  (flat_map (fun cq : string * Q =>
               [ sample_mds_row (fst cq) e "410" (snd cq);
                 sample_mds_row (fst cq) e "453" 2;
                 sample_mds_row (fst cq) e "407" 3;
                 sample_mds_row (fst cq) e "409" 4 ])
            (combine sample_ccns q),
   flat_map (fun cu : string * Q =>
               [ sample_claims_row (fst cu) e "551" (snd cu);
                 sample_claims_row (fst cu) e "552" 5 ])
            (combine sample_ccns u)).

(** A cohort with one facility far above the others on the MDS side and
    one far below on the claims side: the z-scores of the others are
    minus and plus one third. *)
Definition thirds : list MdsRow * list ClaimsRow :=
  cohort_extract 202401
    [30; 20; 20; 20; 20; 20; 20; 20; 20; 20]%Q
    [20; 10; 20; 20; 20; 20; 20; 20; 20; 20]%Q.

Definition thirds_rows : list CridRecord :=
  Eval vm_compute in
    match materialize_sql sqrt_floor 2 sample_defs (fst thirds) (snd thirds)
    with
    | Ok rows => rows
    | Raise _ => []
    end.

(** Facility 015003 of that cohort, as the SELECT returns it and as the
    table stores it. *)
Definition thirds_row : CridRecord := nth 2 thirds_rows null_row.

Definition thirds_stored : CridRecord :=
  Eval vm_compute in
    match store_row thirds_row with
    | Ok r => r
    | Raise _ => null_row
    end.

(** A cohort in which the crid_value of facility 015001 is a little
    above 2. *)
Definition boundary : list MdsRow * list ClaimsRow :=
  cohort_extract 202401
    [22; 21999999 # 1000000; 22; 22; 22; 20; 20; 20; 20; 20]%Q
    [20; 20; 20; 20; 20; 22; 22; 22; 22; 22]%Q.

Definition boundary_rows : list CridRecord :=
  Eval vm_compute in
    match materialize_sql sqrt_floor 2 sample_defs
                          (fst boundary) (snd boundary)
    with
    | Ok rows => rows
    | Raise _ => []
    end.

Definition boundary_row : CridRecord := nth 0 boundary_rows null_row.

Definition boundary_stored : CridRecord :=
  Eval vm_compute in
    match store_row boundary_row with
    | Ok r => r
    | Raise _ => null_row
    end.

(** The sample relations with a fourth extract. *)
Definition four_extracts : list (list MdsRow * list ClaimsRow) :=
  sample_extracts
  ++ [ sample_extract 202404 [2; -5; 3; 1; 1; 1; -1; -1; 0; 0] sample_u ].

Definition four_rows : list CridRecord :=
  Eval vm_compute in
    match materialize_sql sqrt_floor 2 sample_defs
                          (flat_map fst four_extracts)
                          (flat_map snd four_extracts)
    with
    | Ok rows => rows
    | Raise _ => []
    end.

(** Facility 015001 at its fourth extract. *)
Definition four_row_4 : CridRecord := nth 3 four_rows null_row.

(** The sample run as the table stores it. *)
Definition sample_table : list CridRecord :=
  Eval vm_compute in
    match stored_table sample_rows with
    | Ok table => table
    | Raise _ => []
    end.

(** A flag decided by a strict comparison before the operand is rounded
    for storage, read against the stored operand: the flag implies that
    the stored operand is at or beyond the threshold, and a stored
    operand strictly beyond the threshold implies the flag. *)
Definition flag_above (flagged : Prop) (t : Q) (stored : option Q) : Prop :=
  (flagged -> exists v, stored = Some v /\ (t <= v)%Q)
  /\ (forall v, stored = Some v -> (t < v)%Q -> flagged).

Definition flag_below (flagged : Prop) (t : Q) (stored : option Q) : Prop :=
  (flagged -> exists v, stored = Some v /\ (v <= t)%Q)
  /\ (forall v, stored = Some v -> (v < t)%Q -> flagged).

(** The outlier flags: one stored z-score beyond 2 in absolute value and
    the other within 1. *)
Definition flag_outlier (flagged : Prop) (far near : option Q) : Prop :=
  (flagged -> exists a b, far = Some a /\ near = Some b
                          /\ (2 <= Qabs a)%Q /\ (Qabs b <= 1)%Q)
  /\ (forall a b, far = Some a -> near = Some b ->
                  (2 < Qabs a)%Q -> (Qabs b < 1)%Q -> flagged).

(** The number of periods of the facility of [r] that come after the
    period of [x], up to the period of [r]. *)
Definition periods_after (rows : list CridRecord) (r x : CridRecord) : nat :=
  List.length
    (filter (fun y => String.eqb (ccn r) (ccn y)
                      && (extract_id x <? extract_id y)
                      && (extract_id y <=? extract_id r)) rows).

(** The periods of the facility of [r] up to the period of [r], oldest
    first. *)
Definition history_of (rows : list CridRecord) (r : CridRecord)
  : list CridRecord :=
  order_by extract_id
    (filter (fun x => String.eqb (ccn r) (ccn x)
                      && (extract_id x <=? extract_id r)) rows).

(** * The ingest helpers (ingest.py, ingest_fast.py)

    [standardize_ccn] and [parse_filename_date] write the ccn, extract_id
    and as_of_date columns the transform reads.  A Python str is a
    [string] of 8-bit characters (the code points below 256); the CSV
    files are read with [dtype=str], so a cell is a str or NA. *)

Module Ingest.

Inductive Exception := ValueError | KeyError.

Inductive outcome (A : Type) :=
| Returns (a : A)
| Raises (e : Exception).
Arguments Returns {A} a.
Arguments Raises {A} e.

Definition code (c : ascii) : nat := nat_of_ascii c.

Definition in_range (lo hi : nat) (c : ascii) : bool :=
  Nat.leb lo (code c) && Nat.leb (code c) hi.

(** [A-Za-z0-9] *)
Definition is_alnum (c : ascii) : bool :=
  in_range 65 90 c || in_range 97 122 c || in_range 48 57 c.

(** \d on the code points below 256 *)
Definition is_digit (c : ascii) : bool := in_range 48 57 c.

(** str.isspace on the code points below 256 *)
Definition is_space (c : ascii) : bool :=
  in_range 9 13 c || in_range 28 32 c
  || Nat.eqb (code c) 133 || Nat.eqb (code c) 160.

Fixpoint all_chars (p : ascii -> bool) (s : string) : bool :=
  match s with
  | EmptyString => true
  | String c t => p c && all_chars p t
  end.

Fixpoint filter_chars (p : ascii -> bool) (s : string) : string :=
  match s with
  | EmptyString => EmptyString
  | String c t => if p c then String c (filter_chars p t)
                  else filter_chars p t
  end.

Fixpoint lstrip (s : string) : string :=
  match s with
  | EmptyString => EmptyString
  | String c t => if is_space c then lstrip t else s
  end.

Fixpoint rstrip (s : string) : string :=
  match s with
  | EmptyString => EmptyString
  | String c t =>
      match rstrip t with
      | EmptyString => if is_space c then EmptyString
                       else String c EmptyString
      | t' => String c t'
      end
  end.

(** str.strip() *)
Definition strip (s : string) : string := rstrip (lstrip s).

Fixpoint zeros (n : nat) : string :=
  match n with
  | O => EmptyString
  | S n => String "0" (zeros n)
  end.

(** str.zfill(width): zeros go after a leading sign. *)
Definition zfill (width : nat) (s : string) : string :=
  if Nat.leb width (String.length s) then s
  else
    let pad := zeros (width - String.length s) in
    match s with
    | String c t =>
        if Ascii.eqb c "+" || Ascii.eqb c "-"
        then String c (pad ++ t) else pad ++ s
    | EmptyString => pad
    end.

(** standardize_ccn; [None] is NA on the way in and None on the way
    out. *)
Definition standardize_ccn (ccn_value : option string) : option string :=
  match ccn_value with
  | None => None
  | Some v =>
      let ccn_str := strip v in
      let ccn_str := filter_chars is_alnum ccn_str in
      let ccn_str :=
        if Nat.ltb (String.length ccn_str) 6 then zfill 6 ccn_str
        else ccn_str in
      match ccn_str with
      | EmptyString => None
      | _ => Some (substring 0 6 ccn_str)
      end
  end.

(** get_state_from_ccn *)
Definition get_state_from_ccn (ccn : string) : option string :=
  match ccn with
  | EmptyString => None
  | _ => if Nat.leb 2 (String.length ccn) then Some (substring 0 2 ccn)
         else None
  end.

Definition MONTH_MAP : list (string * string) :=
  [ ("Jan", "01"); ("Feb", "02"); ("Mar", "03"); ("Apr", "04");
    ("May", "05"); ("Jun", "06"); ("Jul", "07"); ("Aug", "08");
    ("Sep", "09"); ("Oct", "10"); ("Nov", "11"); ("Dec", "12") ]%string.

(** MONTH_MAP[key] *)
Definition month_map (key : string) : outcome string :=
  match find (fun kv => String.eqb (fst kv) key) MONTH_MAP with
  | Some kv => Returns (snd kv)
  | None => Raises KeyError
  end.

(** The alternation of the pattern. *)
Definition month_names : list string :=
  [ "Jan"; "Feb"; "Mar"; "Apr"; "May"; "Jun";
    "Jul"; "Aug"; "Sep"; "Oct"; "Nov"; "Dec" ]%string.

(** The pattern matched at the start of [s]: the two groups. *)
Definition match_here (s : string) : option (string * string) :=
  let name := substring 0 3 s in
  let year := substring 3 4 s in
  if existsb (String.eqb name) month_names
     && Nat.eqb (String.length year) 4 && all_chars is_digit year
  then Some (name, year) else None.

(** re.search: the leftmost match. *)
Fixpoint re_search (s : string) : option (string * string) :=
  match match_here s with
  | Some groups => Some groups
  | None =>
      match s with
      | EmptyString => None
      | String _ t => re_search t
      end
  end.

(** The pattern occurs in [s] right after the prefix [pre], its two
    groups being [name] and [yr]. *)
Definition occurs_at (s pre name yr : string) : Prop :=
  exists post,
    s = (pre ++ name ++ yr ++ post)%string
    /\ In name month_names
    /\ String.length yr = 4%nat
    /\ all_chars is_digit yr = true.

(** The occurrence that no other occurrence starts before. *)
Definition leftmost (s pre name yr : string) : Prop :=
  occurs_at s pre name yr
  /\ forall pre' name' yr',
      occurs_at s pre' name' yr' ->
      (String.length pre <= String.length pre')%nat.

(** int() of a string of decimal digits. *)
Definition digit_value (c : ascii) : Z := Z.of_nat (code c - 48).

Fixpoint int_from (acc : Z) (s : string) : Z :=
  match s with
  | EmptyString => acc
  | String c t => int_from (acc * 10 + digit_value c) t
  end.

Definition int (s : string) : Z := int_from 0 s.

Record datetime := { year : Z; month : Z; day : Z }.

(** datetime(year, month, 1): the first day exists in every month, so
    only the year and the month can be out of range. *)
Definition first_of_month (y m : Z) : outcome datetime :=
  if (1 <=? y) && (y <=? 9999) && (1 <=? m) && (m <=? 12)
  then Returns {| year := y; month := m; day := 1 |}
  else Raises ValueError.

(** parse_filename_date *)
Definition parse_filename_date (filename : string)
  : outcome (string * datetime) :=
  match re_search filename with
  | None => Raises ValueError
  | Some (month_name, yr) =>
      match month_map month_name with
      | Raises e => Raises e
      | Returns month_num =>
          let extract_id := (yr ++ month_num)%string in
          match first_of_month (int yr) (int month_num) with
          | Raises e => Raises e
          | Returns as_of_date => Returns (extract_id, as_of_date)
          end
      end
  end.

(** sort_key of discover_quality_files: the extract_id of a file name,
    '000000' when the name has no date; the lists are sorted by it with
    the order of str. *)
Definition sort_key (filename : string) : outcome string :=
  match parse_filename_date filename with
  | Returns (extract_id, _) => Returns extract_id
  | Raises ValueError => Returns "000000"%string
  | Raises e => Raises e
  end.

(** Dates in chronological order. *)
Definition earlier (a b : datetime) : Prop :=
  year a < year b
  \/ (year a = year b
      /\ (month a < month b \/ (month a = month b /\ day a < day b))).

End Ingest.

(** * Properties *)

(** ** The relational operators *)

Lemma filter_none {A} (f : A -> bool) (l : list A) :
  (forall x, In x l -> f x = false) -> filter f l = [].
Proof.
  induction l as [|a l IH]; simpl; intros H; auto.
  rewrite (H a), IH; auto.
Qed.

Lemma filter_all {A} (f : A -> bool) (l : list A) :
  (forall x, In x l -> f x = true) -> filter f l = l.
Proof.
  induction l as [|a l IH]; simpl; intros H; auto.
  rewrite (H a), IH; auto.
Qed.

Section Relational.

Context {K : Type} (eqb : K -> K -> bool).
Hypothesis eqb_eq : forall a b, eqb a b = true <-> a = b.

Lemma eqb_refl_K k : eqb k k = true.
Proof. now apply eqb_eq. Qed.

Lemma distinct_In k l : In k (Sql.distinct eqb l) <-> In k l.
Proof.
  induction l as [|a l IH]; simpl; [tauto|].
  rewrite filter_In, IH. split.
  - intros [H|[H _]]; auto.
  - intros [H|H]; auto.
    destruct (eqb a k) eqn:E.
    + left. now apply eqb_eq.
    + right. now split.
Qed.

Lemma distinct_NoDup l : NoDup (Sql.distinct eqb l).
Proof.
  induction l as [|a l IH]; simpl; constructor.
  - rewrite filter_In. intros [_ H]. now rewrite eqb_refl_K in H.
  - now apply NoDup_filter.
Qed.

Context {A : Type} (key : A -> K).

Lemma group_by_keys rows :
  map fst (Sql.group_by eqb key rows) = Sql.distinct eqb (map key rows).
Proof.
  unfold Sql.group_by. rewrite map_map. simpl. apply map_id.
Qed.

Lemma group_by_In rows k g :
  In (k, g) (Sql.group_by eqb key rows) ->
  In k (map key rows) /\ g = filter (fun r => eqb k (key r)) rows.
Proof.
  unfold Sql.group_by. rewrite in_map_iff.
  intros [k' [E H]]. inversion E; subst.
  split; [exact (proj1 (distinct_In _ _) H) | reflexivity].
Qed.

Lemma group_by_intro rows r :
  In r rows ->
  In (key r, filter (fun x => eqb (key r) (key x)) rows)
     (Sql.group_by eqb key rows).
Proof.
  intros H. unfold Sql.group_by. apply in_map_iff.
  exists (key r). split; auto.
  apply (proj2 (distinct_In _ _)). now apply in_map.
Qed.

(** In a relation whose keys are distinct at most one row matches a key. *)
Lemma filter_key_unique {B} (kf : B -> K) (l : list B) k :
  NoDup (map kf l) ->
  filter (fun b => eqb k (kf b)) l
  = match find (fun b => eqb k (kf b)) l with
    | Some b => [b]
    | None => []
    end.
Proof.
  induction l as [|b l IH]; simpl; auto.
  intros ND. inversion ND as [|? ? Hn ND']; subst.
  destruct (eqb k (kf b)) eqn:E.
  - f_equal. apply eqb_eq in E. subst k.
    rewrite filter_none; auto.
    intros x Hx. destruct (eqb (kf b) (kf x)) eqn:E'; auto.
    apply eqb_eq in E'. exfalso. apply Hn. rewrite E'. now apply in_map.
  - now apply IH.
Qed.

End Relational.

Lemma left_join_single {A B} (on : A -> B -> bool) (l : list A) (r : list B) :
  (forall a, filter (on a) r
             = match find (on a) r with Some b => [b] | None => [] end) ->
  Sql.left_join on l r = map (fun a => (a, find (on a) r)) l.
Proof.
  intros H. unfold Sql.left_join.
  induction l as [|a l IH]; cbn [flat_map]; auto.
  rewrite IH, H. simpl.
  destruct (find (on a) r) eqn:E; reflexivity.
Qed.

Lemma map_result_ok {A B} (f : A -> result B) (g : A -> B) (l : list A) :
  (forall a, In a l -> f a = Ok (g a)) -> map_result f l = Ok (map g l).
Proof.
  induction l as [|a l IH]; simpl; intros H; auto.
  rewrite (H a), IH by auto. reflexivity.
Qed.

Lemma mds_key_eqb_eq a b : mds_key_eqb a b = true <-> a = b.
Proof.
  destruct a as [[[c1 e1] d1] s1], b as [[[c2 e2] d2] s2]. simpl.
  rewrite !andb_true_iff, !String.eqb_eq, !Z.eqb_eq.
  split; [intros [[[-> ->] ->] ->]; auto | intros E; inversion E; auto].
Qed.

Lemma claims_key_eqb_eq a b : claims_key_eqb a b = true <-> a = b.
Proof.
  destruct a as [c1 e1], b as [c2 e2]. simpl.
  rewrite andb_true_iff, String.eqb_eq, Z.eqb_eq.
  split; [intros [-> ->]; auto | intros E; inversion E; auto].
Qed.

Lemma state_key_eqb_eq a b : state_key_eqb a b = true <-> a = b.
Proof. exact (claims_key_eqb_eq a b). Qed.

Lemma find_map {A B} (p : B -> bool) (h : A -> B) (l : list A) :
  find p (map h l) = option_map h (find (fun a => p (h a)) l).
Proof.
  induction l as [|a l IH]; simpl; auto.
  destruct (p (h a)); auto.
Qed.

Lemma filter_filter {A} (f g : A -> bool) (l : list A) :
  filter f (filter g l) = filter (fun x => g x && f x) l.
Proof.
  induction l as [|a l IH]; simpl; auto.
  destruct (g a); simpl; [destruct (f a)|]; now rewrite IH.
Qed.

Section GroupLookup.

Context {A K : Type} (eqb : K -> K -> bool) (key : A -> K).
Hypothesis eqb_eq : forall a b, eqb a b = true <-> a = b.

(** Looking a key up in the groups yields the rows of that key. *)
Lemma group_by_find rows k :
  find (fun kg => eqb k (fst kg)) (Sql.group_by eqb key rows)
  = match filter (fun r => eqb k (key r)) rows with
    | [] => None
    | g => Some (k, g)
    end.
Proof.
  destruct (find _ _) as [[k' g]|] eqn:F.
  - pose proof (find_some _ _ F) as [Hin Hk]. simpl in Hk.
    apply eqb_eq in Hk. subst k'.
    apply (group_by_In eqb eqb_eq) in Hin. destruct Hin as [Hk ->].
    apply in_map_iff in Hk. destruct Hk as [r [Hr Hin]].
    destruct (filter _ rows) eqn:E; auto.
    assert (In r (filter (fun r => eqb k (key r)) rows)) as H.
    { apply filter_In. split; auto. now apply eqb_eq. }
    rewrite E in H. destruct H.
  - destruct (filter _ rows) as [|r g] eqn:E; auto.
    assert (In r (filter (fun r => eqb k (key r)) rows)) as H
        by (rewrite E; now left).
    apply filter_In in H. destruct H as [Hin Hk].
    apply eqb_eq in Hk. subst k.
    pose proof (find_none _ _ F _ (group_by_intro eqb eqb_eq key rows r Hin))
      as Hf.
    simpl in Hf. now rewrite (eqb_refl_K eqb eqb_eq) in Hf.
Qed.

End GroupLookup.

(** ** The shape of the intermediate relations *)

Lemma claims_base_keys claims :
  NoDup (map (fun c => (cb_ccn c, cb_extract_id c)) (claims_base claims)).
Proof.
  unfold claims_base. rewrite map_map.
  rewrite (map_ext _ fst) by (intros [[c e] g]; reflexivity).
  rewrite group_by_keys. apply distinct_NoDup, claims_key_eqb_eq.
Qed.

Lemma mds_base_keys mds :
  NoDup (map (fun m => (mb_ccn m, mb_extract_id m, mb_as_of_date m, mb_state m))
             (mds_base mds)).
Proof.
  unfold mds_base. rewrite map_map.
  rewrite (map_ext _ fst) by (intros [[[[c e] d] s] g]; reflexivity).
  rewrite group_by_keys. apply distinct_NoDup, mds_key_eqb_eq.
Qed.

(** The LEFT JOIN with claims_base never multiplies a row of mds_base. *)
Lemma joined_single mds claims :
  joined mds claims
  = map (fun m => (m, find (on_ccn_extract m) (claims_base claims)))
        (mds_base mds).
Proof.
  apply left_join_single. intros m.
  exact (filter_key_unique claims_key_eqb claims_key_eqb_eq
           (fun c => (cb_ccn c, cb_extract_id c)) (claims_base claims)
           (mb_ccn m, mb_extract_id m) (claims_base_keys claims)).
Qed.

Lemma and3_true a b :
  Sql.and3 a b = Some true <-> a = Some true /\ b = Some true.
Proof.
  destruct a as [[|]|], b as [[|]|]; simpl; split;
    try discriminate; try tauto; intros [? ?]; discriminate.
Qed.

Lemma holds_true a : Sql.holds a = true <-> a = Some true.
Proof.
  destruct a as [[|]|]; simpl; split; auto; discriminate.
Qed.

Lemma Qlt_bool_iff x y : Sql.Qlt_bool x y = true <-> (x < y)%Q.
Proof.
  unfold Sql.Qlt_bool. rewrite negb_true_iff.
  destruct (Qle_bool y x) eqn:L.
  - apply Qle_bool_iff in L. split; [discriminate|].
    intros H. exfalso. exact (Qlt_not_le _ _ H L).
  - split; auto. intros _. apply Qnot_le_lt. intros H.
    apply Qle_bool_iff in H. congruence.
Qed.

(** The guard of a z-score, spelled out. *)
Lemma z_guard ic fc sd :
  Sql.holds (Sql.and3 (Sql.and3 (Some ic) (Sql.gez fc (Some 10)))
                      (Sql.gt sd (Some 0%Q))) = true
  <-> ic = true /\ (exists n, fc = Some n /\ 10 <= n)
      /\ (exists s, sd = Some s /\ (0 < s)%Q).
Proof.
  rewrite holds_true, !and3_true. split.
  - intros [[Hc Hn] Hs]. inversion Hc; subst. split; auto. split.
    + destruct fc as [n|]; [|discriminate]. exists n. split; auto.
      simpl in Hn. inversion Hn as [G]. apply Z.geb_le in G. lia.
    + destruct sd as [s|]; [|discriminate]. exists s. split; auto.
      simpl in Hs. inversion Hs as [G]. now apply Qlt_bool_iff in G.
  - intros [-> [[n [-> Hn]] [s [-> Hs]]]]. simpl. repeat split.
    + f_equal. apply Z.geb_le. lia.
    + f_equal. now apply Qlt_bool_iff.
Qed.

Lemma z_score_ok ic fc c m s :
  z_score ic fc c m s = Ok (z_score_value ic fc c m s).
Proof.
  unfold z_score, z_score_value.
  destruct (Sql.holds _) eqn:G; auto.
  apply z_guard in G. destruct G as [_ [_ [d [-> Hd]]]].
  unfold Sql.div.
  destruct (Qeq_bool d 0) eqn:E; auto.
  apply Qeq_bool_iff in E. rewrite E in Hd. now apply Qlt_irrefl in Hd.
Qed.

Lemma with_z_scores_row_ok f s :
  with_z_scores_row (f, s) = Ok (with_z_scores_value f s).
Proof.
  unfold with_z_scores_row. rewrite !z_score_ok. reflexivity.
Qed.

(** ** Completeness *)

Lemma fold_max_bits {A} (f : A -> bool) (l : list A) (b : bool) :
  fold_left Z.max (map (fun a => if f a then 1 else 0) l) (Z.b2z b)
  = Z.b2z (b || existsb f l).
Proof.
  revert b. induction l as [|a l IH]; intros b; simpl.
  - now rewrite orb_false_r.
  - replace (Z.max (Z.b2z b) (if f a then 1 else 0)) with (Z.b2z (b || f a))
      by (destruct b, (f a); reflexivity).
    rewrite IH. now rewrite orb_assoc.
Qed.

Lemma non_null_map_Some {A B} (h : A -> B) (l : list A) :
  Sql.non_null (map (fun a => Some (h a)) l) = map h l.
Proof. induction l; simpl; congruence. Qed.

(** MAX over 0/1 cases: 1 exactly when some row of the group matches. *)
Lemma max_z_bits {A} (f : A -> bool) (l : list A) :
  l <> [] ->
  Sql.max_z (map (fun a => Some (if f a then 1 else 0)) l)
  = Some (Z.b2z (existsb f l)).
Proof.
  intros H. unfold Sql.max_z. rewrite non_null_map_Some.
  destruct l as [|a l]; [congruence|]. simpl. f_equal.
  replace (if f a then 1 else 0) with (Z.b2z (f a)) by now destruct (f a).
  apply fold_max_bits.
Qed.

Lemma is_bit_b2z b : is_bit (Some (Z.b2z b)).
Proof. destruct b; [right|left]; reflexivity. Qed.

Lemma group_nonempty {A K} (eqb : K -> K -> bool) (key : A -> K) rows k g :
  (forall a b, eqb a b = true <-> a = b) ->
  In (k, g) (Sql.group_by eqb key rows) -> g <> [].
Proof.
  intros eqb_eq H. apply (group_by_In eqb eqb_eq) in H.
  destruct H as [Hk ->]. apply in_map_iff in Hk.
  destruct Hk as [r [<- Hr]]. intros E.
  assert (In r (filter (fun x => eqb (key r) (key x)) rows)) as Hin
      by (apply filter_In; split; auto; now apply eqb_eq).
  rewrite E in Hin. destruct Hin.
Qed.

Lemma mds_base_bits mds m :
  In m (mds_base mds) ->
  is_bit (mb_sup_410 m) /\ is_bit (mb_sup_453 m)
  /\ is_bit (mb_sup_407 m) /\ is_bit (mb_sup_409 m).
Proof.
  unfold mds_base. rewrite in_map_iff.
  intros [[[[[c e] d] s] g] [<- H]].
  apply group_nonempty in H; [|exact mds_key_eqb_eq].
  simpl. unfold mds_sup. rewrite !max_z_bits by assumption.
  repeat split; apply is_bit_b2z.
Qed.

Lemma claims_base_bits claims c :
  In c (claims_base claims) -> is_bit (cb_sup_551 c) /\ is_bit (cb_sup_552 c).
Proof.
  unfold claims_base. rewrite in_map_iff.
  intros [[[k e] g] [<- H]].
  apply group_nonempty in H; [|exact claims_key_eqb_eq].
  simpl. unfold claims_sup. rewrite !max_z_bits by assumption.
  split; apply is_bit_b2z.
Qed.

Lemma joined_In mds claims m c :
  In (m, c) (joined mds claims) ->
  In m (mds_base mds)
  /\ forall cb, c = Some cb ->
                In cb (claims_base claims) /\ on_ccn_extract m cb = true.
Proof.
  rewrite joined_single, in_map_iff.
  intros [m' [E H]]. inversion E; subst. split; auto.
  intros cb Hc. apply find_some with (l := claims_base claims). congruence.
Qed.

Lemma holds_and3 a b : Sql.holds (Sql.and3 a b) = Sql.holds a && Sql.holds b.
Proof. destruct a as [[|]|], b as [[|]|]; reflexivity. Qed.

(** On a suppression bit, "not suppressed" is [sup = 0]. *)
Lemma present_cond_bit v s :
  is_bit s ->
  Sql.holds (present_cond v s) = Sql.is_not_null v && negb (suppressed s).
Proof.
  intros [-> | ->]; unfold present_cond; rewrite holds_and3;
    destruct v; reflexivity.
Qed.

Lemma present_cond_coalesce v s :
  is_bit s \/ s = None ->
  Sql.holds (present_cond v (Some (Sql.coalesce s 0)))
  = Sql.is_not_null v && negb (suppressed s).
Proof.
  intros [[-> | ->] | ->]; unfold present_cond; rewrite holds_and3;
    destruct v; reflexivity.
Qed.

Lemma is_bit_value s : is_bit s -> s = Some (Z.b2z (suppressed s)).
Proof. intros [-> | ->]; reflexivity. Qed.

Lemma coalesce_bit_value s :
  is_bit s \/ s = None -> Sql.coalesce s 0 = Z.b2z (suppressed s).
Proof. intros [[-> | ->] | ->]; reflexivity. Qed.

Lemma round_comp x y d : (x == y)%Q -> Sql.round x d = Sql.round y d.
Proof.
  intros E. unfold Sql.round.
  assert (Qle_bool 0 x = Qle_bool 0 y) as -> by now rewrite E.
  assert (Qfloor (Qabs x * inject_Z (10 ^ Z.of_nat d) + (1 # 2))
          = Qfloor (Qabs y * inject_Z (10 ^ Z.of_nat d) + (1 # 2))) as ->
      by now rewrite E.
  reflexivity.
Qed.

Lemma joined_bits mds claims m c :
  In (m, c) (joined mds claims) ->
  (is_bit (mb_sup_410 m) /\ is_bit (mb_sup_453 m)
   /\ is_bit (mb_sup_407 m) /\ is_bit (mb_sup_409 m))
  /\ (is_bit (c_sup_551 c) \/ c_sup_551 c = None)
  /\ (is_bit (c_sup_552 c) \/ c_sup_552 c = None).
Proof.
  intros H. apply joined_In in H. destruct H as [Hm Hc].
  split; [now apply mds_base_bits in Hm|].
  destruct c as [cb|]; simpl; [|split; now right].
  destruct (Hc cb eq_refl) as [Hcb _].
  apply claims_base_bits in Hcb. destruct Hcb. split; now left.
Qed.

Lemma count_present_cons p l :
  count_present (p :: l)
  = Z.b2z (Sql.is_not_null (fst p) && negb (snd p)) + count_present l.
Proof.
  unfold count_present. simpl.
  destruct (Sql.is_not_null (fst p) && negb (snd p)); simpl Z.b2z;
    simpl List.length; lia.
Qed.

Lemma count_suppressed_cons p l :
  count_suppressed (p :: l) = Z.b2z (snd p) + count_suppressed l.
Proof.
  unfold count_suppressed. simpl.
  destruct (snd p); simpl Z.b2z; simpl List.length; lia.
Qed.

(** is_complete is the conjunction of the six tests that measures_present
    adds up. *)
Lemma is_complete_present mc :
  af_is_complete (all_facilities_row mc)
  = (af_measures_present (all_facilities_row mc) =? 6).
Proof.
  destruct mc as [m c]. unfold all_facilities_row.
  cbn [af_is_complete af_measures_present].
  rewrite !holds_and3. unfold present_bit.
  destruct (Sql.holds (present_cond (mb_measure_410 m) _)),
           (Sql.holds (present_cond (mb_measure_453 m) _)),
           (Sql.holds (present_cond (mb_measure_407 m) _)),
           (Sql.holds (present_cond (mb_measure_409 m) _)),
           (Sql.holds (present_cond (c_measure_551 c) _)),
           (Sql.holds (present_cond (c_measure_552 c) _)); reflexivity.
Qed.

Lemma present_counts mds claims m c :
  In (m, c) (joined mds claims) ->
  af_measures_present (all_facilities_row (m, c))
  = count_present (measure_pairs m c).
Proof.
  intros H. apply joined_bits in H.
  destruct H as [[B1 [B2 [B3 B4]]] [B5 B6]].
  unfold all_facilities_row. cbn [af_measures_present].
  unfold present_bit, measure_pairs.
  rewrite !present_cond_bit, !present_cond_coalesce by assumption.
  rewrite !count_present_cons. cbn [fst snd].
  unfold count_present. simpl filter. simpl List.length.
  unfold Z.b2z. lia.
Qed.

Lemma suppressed_counts mds claims m c :
  In (m, c) (joined mds claims) ->
  af_measures_suppressed (all_facilities_row (m, c))
  = Some (count_suppressed (measure_pairs m c)).
Proof.
  intros H. apply joined_bits in H.
  destruct H as [[B1 [B2 [B3 B4]]] [B5 B6]].
  unfold all_facilities_row, measure_pairs. cbn [af_measures_suppressed].
  destruct B1 as [-> | ->], B2 as [-> | ->], B3 as [-> | ->],
           B4 as [-> | ->], B5 as [[-> | ->] | ->], B6 as [[-> | ->] | ->];
    reflexivity.
Qed.

(** C4. Completeness tracker: for every facility-period of
    with_composites, built from the pair (m, c) the LEFT JOIN of
    all_facilities supplies, measures_present is the number of the six
    (value, suppressed) pairs whose value is not NULL and that are not
    suppressed; measures_suppressed is the number of pairs flagged
    suppressed, whatever their value; completeness_pct is
    round(measures_present / 6 * 100, 2); is_complete is
    (measures_present = 6); and with five measures present the
    percentage is 83.33 and is_complete is false. *)
Theorem completeness_tracker defs mds claims f :
  In f (with_composites defs mds claims) ->
  exists m c,
    In (m, c) (joined mds claims)
    /\ wc_f f = all_facilities_row (m, c)
    /\ let pairs := measure_pairs m c in
       af_measures_present (wc_f f) = count_present pairs
       /\ af_measures_suppressed (wc_f f) = Some (count_suppressed pairs)
       /\ wc_completeness_pct f
          = Sql.round (inject_Z (af_measures_present (wc_f f)) / 6 * 100)%Q 2
       /\ af_is_complete (wc_f f) = (af_measures_present (wc_f f) =? 6)
       /\ (count_present pairs = 5 ->
           (wc_completeness_pct f == 8333 # 100)%Q
           /\ af_is_complete (wc_f f) = false).
Proof.
  unfold with_composites, all_facilities. fold (joined mds claims).
  rewrite map_map, in_map_iff. intros [[m c] [<- H]].
  exists m, c. split; auto. split; auto.
  cbn [wc_f wc_completeness_pct with_composites_row].
  pose proof (present_counts _ _ _ _ H) as P.
  split; [exact P|].
  split; [exact (suppressed_counts _ _ _ _ H)|].
  split; [unfold completeness_pct_of; apply round_comp; field|].
  split; [apply is_complete_present|].
  intros H5. rewrite is_complete_present, P, H5. split; reflexivity.
Qed.

(** ** Peer statistics and z-scores *)

Lemma find_ext_in {A} (p q : A -> bool) (l : list A) :
  (forall x, p x = q x) -> find p l = find q l.
Proof.
  intros H. induction l as [|a l IH]; simpl; auto.
  rewrite H, IH. reflexivity.
Qed.

Lemma insert_by_In {A} (key : A -> Z) x y (l : list A) :
  In y (insert_by key x l) <-> y = x \/ In y l.
Proof.
  induction l as [|a l IH]; simpl.
  - intuition.
  - destruct (key x <=? key a); simpl; rewrite ?IH; intuition.
Qed.

Lemma order_by_In {A} (key : A -> Z) y (l : list A) :
  In y (order_by key l) <-> In y l.
Proof.
  induction l as [|a l IH]; simpl; [tauto|].
  rewrite insert_by_In, IH. intuition.
Qed.

Lemma rows_preceding_fst {A} p (b rows : list A) :
  map fst (rows_preceding p b rows) = rows.
Proof.
  revert b. induction rows as [|r rows IH]; intros b; simpl; auto.
  now rewrite IH.
Qed.

Lemma rows_preceding_app {A} p (b l1 l2 : list A) :
  rows_preceding p b (l1 ++ l2)
  = rows_preceding p b l1 ++ rows_preceding p (b ++ l1) l2.
Proof.
  revert b. induction l1 as [|r l1 IH]; intros b; simpl.
  - now rewrite app_nil_r.
  - rewrite IH, <- app_assoc. reflexivity.
Qed.

(** A row of the window output sits at some position of the ordered
    partition; its frame is the last [p] rows before it and itself. *)
Lemma rows_preceding_In {A} p (b rows : list A) r frame :
  In (r, frame) (rows_preceding p b rows) ->
  exists l1 l2, rows = l1 ++ r :: l2 /\ frame = lastn p (b ++ l1) ++ [r].
Proof.
  revert b. induction rows as [|a rows IH]; intros b; simpl; [tauto|].
  intros [E|H].
  - inversion E; subst. exists [], rows. now rewrite app_nil_r.
  - apply IH in H. destruct H as [l1 [l2 [-> ->]]].
    exists (a :: l1), l2. now rewrite <- app_assoc.
Qed.

Lemma rows_preceding_intro {A} p (b rows : list A) r :
  In r rows -> exists frame, In (r, frame) (rows_preceding p b rows).
Proof.
  intros H. rewrite <- (rows_preceding_fst p b rows) in H.
  apply in_map_iff in H. destruct H as [[r' frame] [E H]].
  simpl in E. subst. now exists frame.
Qed.

Section Normalizer.

Variable numeric_sqrt : Q -> Q.


Lemma state_stats_keys wc :
  NoDup (map (fun s => (ss_state s, ss_extract_id s))
             (state_stats numeric_sqrt wc)).
Proof.
  unfold state_stats. rewrite map_map.
  rewrite (map_ext _ fst) by (intros [[c e] g]; reflexivity).
  rewrite group_by_keys. apply distinct_NoDup, state_key_eqb_eq.
Qed.

(** The statistics joined to a facility are those of its cohort. *)
Lemma state_stats_find wc f :
  find (on_state_extract f) (state_stats numeric_sqrt wc)
  = match cohort wc (wc_state f) (wc_extract_id f) with
    | [] => None
    | g => Some (state_stats_row numeric_sqrt
                                 ((wc_state f, wc_extract_id f), g))
    end.
Proof.
  unfold state_stats. rewrite find_map.
  rewrite (find_ext_in _ (fun kg => state_key_eqb (state_key_of f) (fst kg)))
    by (intros [[s e] g]; reflexivity).
  rewrite (group_by_find _ _ state_key_eqb_eq).
  rewrite filter_filter. unfold cohort.
  rewrite (filter_ext _ (fun f0 =>
                           wc_is_complete f0
                           && String.eqb (wc_state f) (wc_state f0)
                           && Z.eqb (wc_extract_id f) (wc_extract_id f0)))
    by (intros a; simpl; now rewrite andb_assoc).
  destruct (filter _ wc); reflexivity.
Qed.

(** No row raises: the guard of each z-score keeps the division away
    from a zero divisor. *)
Lemma with_z_scores_ok wc :
  with_z_scores numeric_sqrt wc = Ok (with_z_scores_rows numeric_sqrt wc).
Proof.
  unfold with_z_scores, with_z_scores_rows.
  rewrite left_join_single.
  - rewrite (map_result_ok _ (fun fs => with_z_scores_value (fst fs) (snd fs)))
      by (intros [f s] _; apply with_z_scores_row_ok).
    now rewrite map_map.
  - intros f.
    exact (filter_key_unique state_key_eqb state_key_eqb_eq
             (fun s => (ss_state s, ss_extract_id s))
             (state_stats numeric_sqrt wc)
             (wc_state f, wc_extract_id f) (state_stats_keys wc)).
Qed.

Lemma with_crid_In wp zs x :
  In x (with_crid numeric_sqrt wp zs) ->
  In (cr_z x) zs
  /\ exists frame,
      In (cr_z x) frame
      /\ x = with_crid_row numeric_sqrt (cr_z x, frame).
Proof.
  unfold with_crid. rewrite in_flat_map.
  intros [[k part] [Hg Hx]]. simpl in Hx.
  apply in_map_iff in Hx. destruct Hx as [[r frame] [<- Hr]].
  apply (group_by_In _ String.eqb_eq) in Hg. destruct Hg as [_ ->].
  pose proof Hr as Hr'.
  apply rows_preceding_In in Hr'. destruct Hr' as [l1 [l2 [E ->]]].
  simpl. split.
  - assert (In r (order_by z_extract_id
                    (filter (fun r0 => String.eqb k (z_ccn r0)) zs))) as H
        by (rewrite E; apply in_elt).
    apply order_by_In, filter_In in H. tauto.
  - eexists. split; [|reflexivity]. apply in_or_app. right. now left.
Qed.

Lemma with_crid_intro wp zs z :
  In z zs ->
  exists frame,
    In (with_crid_row numeric_sqrt (z, frame)) (with_crid numeric_sqrt wp zs).
Proof.
  intros H. unfold with_crid.
  pose proof (group_by_intro _ String.eqb_eq z_ccn zs z H) as Hg.
  destruct (rows_preceding_intro (Z.to_nat wp) []
              (order_by z_extract_id
                 (filter (fun x => String.eqb (z_ccn z) (z_ccn x)) zs)) z)
    as [frame Hf].
  { apply order_by_In, filter_In. split; auto. apply String.eqb_refl. }
  exists frame. apply in_flat_map. eexists. split; [exact Hg|].
  simpl. apply in_map_iff. eexists. split; [|exact Hf]. reflexivity.
Qed.

End Normalizer.

Lemma present_cond_value v s :
  Sql.holds (present_cond v s) = true -> exists q, v = Some q.
Proof.
  unfold present_cond. rewrite holds_and3, andb_true_iff.
  intros [H _]. destruct v as [q|]; [now exists q | discriminate].
Qed.

(** A complete facility has a value for each of the six measures. *)
Lemma complete_measures mc :
  af_is_complete (all_facilities_row mc) = true ->
  let a := all_facilities_row mc in
  (exists q, af_measure_410 a = Some q)
  /\ (exists q, af_measure_453 a = Some q)
  /\ (exists q, af_measure_407 a = Some q)
  /\ (exists q, af_measure_409 a = Some q)
  /\ (exists q, af_measure_551 a = Some q)
  /\ (exists q, af_measure_552 a = Some q).
Proof.
  destruct mc as [m c]. unfold all_facilities_row.
  cbn [af_is_complete af_measure_410 af_measure_453 af_measure_407
       af_measure_409 af_measure_551 af_measure_552].
  rewrite !holds_and3, !andb_true_iff.
  intros [[[[[H1 H2] H3] H4] H5] H6].
  repeat split; eapply present_cond_value; eassumption.
Qed.

Lemma with_composites_In defs mds claims f :
  In f (with_composites defs mds claims) <->
  exists mc, In mc (joined mds claims)
             /\ f = with_composites_row (weight_values defs)
                                        (all_facilities_row mc).
Proof.
  unfold with_composites, all_facilities. fold (joined mds claims).
  rewrite map_map, in_map_iff. split; intros [mc [E H]]; exists mc; auto.
Qed.

(** Whether the composite of a complete facility is NULL depends on the
    weights alone. *)
Lemma mds_composite_null defs mds claims f :
  In f (with_composites defs mds claims) -> wc_is_complete f = true ->
  Sql.is_not_null (wc_mds_composite f)
  = Sql.is_not_null (w_410 (weight_values defs))
    && Sql.is_not_null (w_453 (weight_values defs))
    && Sql.is_not_null (w_407 (weight_values defs))
    && Sql.is_not_null (w_409 (weight_values defs)).
Proof.
  rewrite with_composites_In. intros [mc [_ ->]].
  unfold wc_is_complete. cbn [wc_f with_composites_row wc_mds_composite].
  intros H. rewrite H. apply complete_measures in H.
  destruct H as [[q1 ->] [[q2 ->] [[q3 ->] [[q4 ->] _]]]].
  destruct (w_410 _), (w_453 _), (w_407 _), (w_409 _); reflexivity.
Qed.

Lemma claims_utilization_null defs mds claims f :
  In f (with_composites defs mds claims) -> wc_is_complete f = true ->
  Sql.is_not_null (wc_claims_utilization f)
  = Sql.is_not_null (w_551 (weight_values defs))
    && Sql.is_not_null (w_552 (weight_values defs)).
Proof.
  rewrite with_composites_In. intros [mc [_ ->]].
  unfold wc_is_complete. cbn [wc_f with_composites_row wc_claims_utilization].
  intros H. rewrite H. apply complete_measures in H.
  destruct H as [_ [_ [_ [_ [[q5 ->] [q6 ->]]]]]].
  destruct (w_551 _), (w_552 _); reflexivity.
Qed.

Lemma non_null_In {A} (l : list (option A)) x :
  In x (Sql.non_null l) <-> In (Some x) l.
Proof.
  induction l as [|[a|] l IH]; simpl; [tauto| |].
  - rewrite IH. split; intros [H|H]; auto; left; congruence.
  - rewrite IH. split; [auto|]. intros [H|H]; [discriminate|auto].
Qed.

Lemma cohort_In wc st e f :
  In f (cohort wc st e) <->
  In f wc /\ wc_is_complete f = true /\ wc_state f = st /\ wc_extract_id f = e.
Proof.
  unfold cohort. rewrite filter_In, !andb_true_iff, String.eqb_eq, Z.eqb_eq.
  intuition.
Qed.

Lemma gez_facility_count co :
  Sql.gez (facility_count_of co) (Some 10) = Some true
  <-> 10 <= Z.of_nat (List.length co).
Proof.
  destruct co as [|f co]; simpl.
  - split; [discriminate | lia].
  - unfold Sql.count_star. split.
    + intros H. inversion H as [G]. apply Z.geb_le in G. exact G.
    + intros H. f_equal. apply Z.geb_le. exact H.
Qed.

Section Gate.

Variable numeric_sqrt : Q -> Q.

Lemma stddev_pop_some vals s :
  stddev_pop numeric_sqrt vals = Some s -> Sql.non_null vals <> [].
Proof.
  unfold stddev_pop. destruct (Sql.non_null vals); [discriminate|].
  discriminate.
Qed.

(** The guard of a z-score decides whether it is NULL, as long as a
    complete facility has a composite whenever its cohort has one. *)
Lemma z_value_gate ic co vals v :
  (ic = true -> Sql.non_null vals <> [] -> v <> None) ->
  z_score_value ic (facility_count_of co) v (Sql.avg vals)
                (stddev_pop numeric_sqrt vals) <> None
  <-> ic = true /\ 10 <= Z.of_nat (List.length co)
      /\ exists s, stddev_pop numeric_sqrt vals = Some s /\ (0 < s)%Q.
Proof.
  intros Hv. unfold z_score_value.
  destruct (Sql.holds _) eqn:G.
  - apply z_guard in G. destruct G as [-> [[n [Hn Hle]] [s [Hs Hpos]]]].
    assert (10 <= Z.of_nat (List.length co)) as Hco.
    { apply gez_facility_count. rewrite Hn. simpl. f_equal.
      apply Z.geb_le. lia. }
    split; [intros _; split; auto; split; auto; now exists s|].
    intros _. pose proof (stddev_pop_some _ _ Hs) as Hnn.
    specialize (Hv eq_refl Hnn).
    destruct v as [c|]; [|congruence].
    rewrite Hs. unfold Sql.avg.
    destruct (Sql.non_null vals); [congruence|]. discriminate.
  - split; [congruence|]. intros [-> [Hco [s [Hs Hpos]]]].
    exfalso. assert (true = false); [|discriminate].
    rewrite <- G. symmetry. apply z_guard. split; auto. split.
    + apply gez_facility_count in Hco.
      destruct (facility_count_of co) as [n|]; [|discriminate].
      exists n. split; auto. inversion Hco as [H].
      apply Z.geb_le in H. lia.
    + now exists s.
Qed.

(** The columns of a with_z_scores row, in terms of the cohort. *)
Lemma with_z_scores_fields wc f :
  let co := cohort wc (wc_state f) (wc_extract_id f) in
  with_z_scores_value
    f (find (on_state_extract f) (state_stats numeric_sqrt wc))
  = {| z_f := f;
       z_state_facility_count := facility_count_of co;
       z_state_mds_mean := Sql.avg (map wc_mds_composite co);
       z_state_mds_stddev := stddev_pop numeric_sqrt (map wc_mds_composite co);
       z_state_claims_mean := Sql.avg (map wc_claims_utilization co);
       z_state_claims_stddev :=
         stddev_pop numeric_sqrt (map wc_claims_utilization co);
       z_is_small_state := Sql.coalesce (facility_count_of co) 0 <? 10;
       z_mds_z_score :=
         z_score_value (wc_is_complete f) (facility_count_of co)
           (wc_mds_composite f) (Sql.avg (map wc_mds_composite co))
           (stddev_pop numeric_sqrt (map wc_mds_composite co));
       z_claims_z_score :=
         z_score_value (wc_is_complete f) (facility_count_of co)
           (wc_claims_utilization f) (Sql.avg (map wc_claims_utilization co))
           (stddev_pop numeric_sqrt (map wc_claims_utilization co)) |}.
Proof.
  intros co. rewrite state_stats_find. fold co.
  destruct co as [|g co']; reflexivity.
Qed.

End Gate.

(** ** The output rows *)

Section Output.

Variable numeric_sqrt : Q -> Q.

Lemma materialize_sql_ok wp defs mds claims :
  materialize_sql numeric_sqrt wp defs mds claims
  = Ok (map select_row
            (with_crid numeric_sqrt wp
               (with_z_scores_rows numeric_sqrt
                  (with_composites defs mds claims)))).
Proof.
  unfold materialize_sql. now rewrite with_z_scores_ok.
Qed.

(** Every output row is the image of one with_composites row, joined to
    the statistics of its cohort and given a window frame that holds
    it. *)
Lemma output_row wp defs mds claims rows r :
  materialize_sql numeric_sqrt wp defs mds claims = Ok rows ->
  In r rows ->
  let wc := with_composites defs mds claims in
  exists f frame,
    In f wc
    /\ let z := with_z_scores_value
                  f (find (on_state_extract f) (state_stats numeric_sqrt wc)) in
       In z frame
       /\ r = select_row (with_crid_row numeric_sqrt (z, frame)).
Proof.
  rewrite materialize_sql_ok. intros E. inversion E; subst. clear E.
  rewrite in_map_iff. intros [x [<- Hx]].
  apply with_crid_In in Hx. destruct Hx as [Hz [frame [Hf Ex]]].
  unfold with_z_scores_rows in Hz. apply in_map_iff in Hz.
  destruct Hz as [f [Ez Hf']].
  exists f, frame. split; auto. cbv zeta. rewrite Ez. split; auto.
  f_equal. exact Ex.
Qed.

Lemma crid_value_gate (mz cz : option Q) :
  (if Sql.holds (Sql.and3 (Some (Sql.is_not_null mz))
                          (Some (Sql.is_not_null cz)))
   then Sql.sub mz cz else None) <> None
  <-> mz <> None /\ cz <> None.
Proof.
  destruct mz as [m|], cz as [c|]; simpl; split; intros H;
    try (split; discriminate); try discriminate; try congruence;
    destruct H; congruence.
Qed.

Lemma wc_complete_present defs mds claims f :
  In f (with_composites defs mds claims) ->
  wc_is_complete f = true <-> af_measures_present (wc_f f) = 6.
Proof.
  rewrite with_composites_In. intros [mc [_ ->]].
  unfold wc_is_complete. cbn [wc_f with_composites_row].
  rewrite is_complete_present. apply Z.eqb_eq.
Qed.

Lemma cohort_composite_mds defs mds claims f :
  let wc := with_composites defs mds claims in
  In f wc -> wc_is_complete f = true ->
  Sql.non_null (map wc_mds_composite
                    (cohort wc (wc_state f) (wc_extract_id f))) <> [] ->
  wc_mds_composite f <> None.
Proof.
  intros wc Hf Hc Hnn.
  destruct (Sql.non_null _) as [|q l] eqn:E; [congruence|].
  assert (In q (Sql.non_null
                  (map wc_mds_composite
                       (cohort wc (wc_state f) (wc_extract_id f))))) as H
      by (rewrite E; now left).
  apply non_null_In, in_map_iff in H. destruct H as [g [Hq Hg]].
  apply cohort_In in Hg. destruct Hg as [Hg [Hgc _]].
  pose proof (mds_composite_null _ _ _ _ Hg Hgc) as N1.
  pose proof (mds_composite_null _ _ _ _ Hf Hc) as N2.
  rewrite <- N1, Hq in N2. intros N. rewrite N in N2. discriminate.
Qed.

Lemma cohort_composite_claims defs mds claims f :
  let wc := with_composites defs mds claims in
  In f wc -> wc_is_complete f = true ->
  Sql.non_null (map wc_claims_utilization
                    (cohort wc (wc_state f) (wc_extract_id f))) <> [] ->
  wc_claims_utilization f <> None.
Proof.
  intros wc Hf Hc Hnn.
  destruct (Sql.non_null _) as [|q l] eqn:E; [congruence|].
  assert (In q (Sql.non_null
                  (map wc_claims_utilization
                       (cohort wc (wc_state f) (wc_extract_id f))))) as H
      by (rewrite E; now left).
  apply non_null_In, in_map_iff in H. destruct H as [g [Hq Hg]].
  apply cohort_In in Hg. destruct Hg as [Hg [Hgc _]].
  pose proof (claims_utilization_null _ _ _ _ Hg Hgc) as N1.
  pose proof (claims_utilization_null _ _ _ _ Hf Hc) as N2.
  rewrite <- N1, Hq in N2. intros N. rewrite N in N2. discriminate.
Qed.

(** C1. Gating invariant: the transform never raises a division fault,
    and for every output row crid_value is not NULL iff both z-scores
    are not NULL, which holds iff the facility-period is complete
    (measures_present = 6), the cohort of complete facilities of its
    (state, extract_id) has at least 10 members, and the population
    standard deviations of both composites over that cohort are > 0;
    a zero standard deviation gives a NULL z-score. *)
Theorem gating_invariant wp defs mds claims :
  (exists rows, materialize_sql numeric_sqrt wp defs mds claims = Ok rows)
  /\ forall rows r,
      materialize_sql numeric_sqrt wp defs mds claims = Ok rows ->
      In r rows ->
      let co := cohort (with_composites defs mds claims)
                       (state r) (extract_id r) in
      (crid_value r <> None
       <-> mds_z_score r <> None /\ claims_z_score r <> None)
      /\ (mds_z_score r <> None /\ claims_z_score r <> None
          <-> measures_present r = 6
              /\ 10 <= Z.of_nat (List.length co)
              /\ (exists s, stddev_pop numeric_sqrt (map wc_mds_composite co)
                            = Some s /\ (0 < s)%Q)
              /\ (exists s, stddev_pop numeric_sqrt
                              (map wc_claims_utilization co)
                            = Some s /\ (0 < s)%Q))
      /\ state_mds_stddev r
         = stddev_pop numeric_sqrt (map wc_mds_composite co)
      /\ state_claims_stddev r
         = stddev_pop numeric_sqrt (map wc_claims_utilization co)
      /\ (forall s, state_mds_stddev r = Some s -> (s == 0)%Q ->
                    mds_z_score r = None)
      /\ (forall s, state_claims_stddev r = Some s -> (s == 0)%Q ->
                    claims_z_score r = None).
Proof.
  split; [eexists; apply materialize_sql_ok|].
  intros rows r E Hr.
  destruct (output_row _ _ _ _ _ _ E Hr) as [f [frame [Hf [_ ->]]]].
  rewrite with_z_scores_fields.
  cbn [select_row with_crid_row cr_z z_f wc_f state extract_id crid_value
       mds_z_score claims_z_score measures_present state_mds_stddev
       state_claims_stddev cr_crid_value z_mds_z_score z_claims_z_score
       z_state_mds_stddev z_state_claims_stddev both_z z_diff].
  fold (wc_state f) (wc_extract_id f).
  set (co := cohort _ (wc_state f) (wc_extract_id f)).
  pose proof (z_value_gate numeric_sqrt (wc_is_complete f) co
                (map wc_mds_composite co) (wc_mds_composite f)
                (cohort_composite_mds _ _ _ f Hf)) as Gm.
  pose proof (z_value_gate numeric_sqrt (wc_is_complete f) co
                (map wc_claims_utilization co) (wc_claims_utilization f)
                (cohort_composite_claims _ _ _ f Hf)) as Gc.
  pose proof (wc_complete_present _ _ _ _ Hf) as Hp.
  split; [apply crid_value_gate|].
  split; [rewrite Gm, Gc, <- Hp; tauto|].
  split; [reflexivity|]. split; [reflexivity|].
  split.
  - intros s Hs H0.
    destruct (z_score_value _ _ (wc_mds_composite f) _ _) eqn:Z; auto.
    exfalso. destruct (proj1 Gm) as [_ [_ [s' [Hs' Hpos]]]]; [discriminate|].
    rewrite Hs in Hs'. inversion Hs'; subst.
    rewrite H0 in Hpos. now apply Qlt_irrefl in Hpos.
  - intros s Hs H0.
    destruct (z_score_value _ _ (wc_claims_utilization f) _ _) eqn:Z; auto.
    exfalso. destruct (proj1 Gc) as [_ [_ [s' [Hs' Hpos]]]]; [discriminate|].
    rewrite Hs in Hs'. inversion Hs'; subst.
    rewrite H0 in Hpos. now apply Qlt_irrefl in Hpos.
Qed.

End Output.

(** ** Score identity *)

Lemma non_null_length {A B} (h : A -> option B) (l : list A) :
  (forall a, In a l -> h a <> None) ->
  List.length (Sql.non_null (map h l)) = List.length l.
Proof.
  induction l as [|a l IH]; simpl; intros H; auto.
  destruct (h a) eqn:E; [simpl; rewrite IH; auto|].
  exfalso. apply (H a); auto.
Qed.

Section Identity.

Variable numeric_sqrt : Q -> Q.

(** A z-score that is not NULL is (composite - mean) / stddev, with the
    mean and the population standard deviation of the values that are
    not NULL. *)
Lemma z_value_some ic fc v vals z :
  z_score_value ic fc v (Sql.avg vals) (stddev_pop numeric_sqrt vals)
  = Some z ->
  exists q,
    v = Some q
    /\ z = ((q - Sql.mean (Sql.non_null vals))
            / numeric_sqrt (Sql.var_pop (Sql.non_null vals)))%Q.
Proof.
  unfold z_score_value. destruct (Sql.holds _); [|discriminate].
  unfold Sql.avg, stddev_pop.
  destruct (Sql.non_null vals) as [|x xs];
    [destruct v; discriminate|].
  destruct v as [q|]; [|discriminate].
  simpl. intros E. inversion E. now exists q.
Qed.

(** The scores of a row of the SELECT: crid_value is mds_z_score -
    claims_z_score, and each z-score is (composite - mean) / stddev
    over the composites of the complete facilities of the row's
    (state, extract_id). *)
Lemma select_identity wp defs mds claims rows r c :
  materialize_sql numeric_sqrt wp defs mds claims = Ok rows ->
  In r rows ->
  crid_value r = Some c ->
  let co := cohort (with_composites defs mds claims)
                   (state r) (extract_id r) in
  let qs := Sql.non_null (map wc_mds_composite co) in
  let us := Sql.non_null (map wc_claims_utilization co) in
  let N := inject_Z (Z.of_nat (List.length co)) in
  exists qz uz q u,
    mds_z_score r = Some qz /\ claims_z_score r = Some uz
    /\ c = (qz - uz)%Q
    /\ mds_composite r = Some q /\ claims_utilization r = Some u
    /\ qz = ((q - Sql.sum_q qs / N)
             / numeric_sqrt (Sql.sum_sq_dev qs / N))%Q
    /\ uz = ((u - Sql.sum_q us / N)
             / numeric_sqrt (Sql.sum_sq_dev us / N))%Q
    /\ List.length qs = List.length co
    /\ List.length us = List.length co.
Proof.
  intros E Hr.
  destruct (output_row _ _ _ _ _ _ _ E Hr) as [f [frame [Hf [_ ->]]]].
  rewrite with_z_scores_fields.
  cbn [select_row with_crid_row cr_z z_f wc_f state extract_id crid_value
       mds_z_score claims_z_score mds_composite claims_utilization
       cr_crid_value z_mds_z_score z_claims_z_score both_z z_diff].
  fold (wc_state f) (wc_extract_id f).
  set (co := cohort _ (wc_state f) (wc_extract_id f)).
  destruct (z_score_value _ _ (wc_mds_composite f) _ _) as [qz|] eqn:Zm;
    [|discriminate].
  destruct (z_score_value _ _ (wc_claims_utilization f) _ _) as [uz|] eqn:Zc;
    [|discriminate].
  simpl. intros Ec. inversion Ec; subst c. clear Ec.
  assert (wc_is_complete f = true) as Hc.
  { unfold z_score_value in Zm.
    destruct (Sql.holds _) eqn:G; [|discriminate].
    now apply z_guard in G. }
  apply z_value_some in Zm. destruct Zm as [q [Hq ->]].
  apply z_value_some in Zc. destruct Zc as [u [Hu ->]].
  assert (List.length (Sql.non_null (map wc_mds_composite co))
          = List.length co) as Lq.
  { apply non_null_length. intros g Hg N.
    apply cohort_In in Hg. destruct Hg as [Hg [Hgc _]].
    pose proof (mds_composite_null _ _ _ _ Hg Hgc) as N1.
    pose proof (mds_composite_null _ _ _ _ Hf Hc) as N2.
    rewrite <- N2, Hq, N in N1. discriminate. }
  assert (List.length (Sql.non_null (map wc_claims_utilization co))
          = List.length co) as Lu.
  { apply non_null_length. intros g Hg N.
    apply cohort_In in Hg. destruct Hg as [Hg [Hgc _]].
    pose proof (claims_utilization_null _ _ _ _ Hg Hgc) as N1.
    pose proof (claims_utilization_null _ _ _ _ Hf Hc) as N2.
    rewrite <- N2, Hu, N in N1. discriminate. }
  exists ((q - Sql.mean (Sql.non_null (map wc_mds_composite co)))
          / numeric_sqrt
              (Sql.var_pop (Sql.non_null (map wc_mds_composite co))))%Q,
         ((u - Sql.mean (Sql.non_null (map wc_claims_utilization co)))
          / numeric_sqrt
              (Sql.var_pop (Sql.non_null (map wc_claims_utilization co))))%Q,
         q, u.
  unfold Sql.mean, Sql.var_pop. rewrite Lq, Lu.
  repeat split; auto.
Qed.

End Identity.


(** ** Rounding to the scale of a column *)

Lemma scale_pos d : (0 < inject_Z (10 ^ Z.of_nat d))%Q.
Proof.
  change 0%Q with (inject_Z 0). rewrite <- Zlt_Qlt.
  apply Z.pow_pos_nonneg; lia.
Qed.

Lemma floor_half_bounds (y : Q) :
  (inject_Z (Qfloor (y + (1 # 2))) <= y + (1 # 2))%Q
  /\ (y - (1 # 2) < inject_Z (Qfloor (y + (1 # 2))))%Q.
Proof.
  pose proof (Qfloor_le (y + (1 # 2))) as L.
  pose proof (Qlt_floor (y + (1 # 2))) as U.
  rewrite inject_Z_plus in U. split; [exact L|].
  change (inject_Z 1) with 1%Q in U. lra.
Qed.

Lemma floor_half_nonneg (y : Q) :
  (0 <= y)%Q -> 0 <= Qfloor (y + (1 # 2)).
Proof.
  intros H. change 0 with (Qfloor 0). apply Qfloor_resp_le. lra.
Qed.

Lemma round_units_eq x d :
  Sql.round x d = (inject_Z (round_units x d) / inject_Z (10 ^ Z.of_nat d))%Q.
Proof. reflexivity. Qed.

Lemma round_units_bounds x d :
  let s := inject_Z (10 ^ Z.of_nat d) in
  (x * s - (1 # 2) <= inject_Z (round_units x d))%Q
  /\ (inject_Z (round_units x d) <= x * s + (1 # 2))%Q.
Proof.
  intros s. unfold round_units. fold s.
  pose proof (scale_pos d) as Hs. fold s in Hs.
  destruct (floor_half_bounds (Qabs x * s)) as [L U].
  set (n := Qfloor (Qabs x * s + (1 # 2))) in *.
  destruct (Qle_bool 0 x) eqn:E.
  - apply Qle_bool_iff in E.
    assert (Qabs x * s == x * s)%Q as A
        by (rewrite (Qabs_pos x E); reflexivity).
    lra.
  - assert (x < 0)%Q as N.
    { apply Qnot_le_lt. intros H. apply Qle_bool_iff in H. congruence. }
    assert (Qabs x * s == - x * s)%Q as A
        by (rewrite (Qabs_neg x) by lra; reflexivity).
    rewrite inject_Z_opp. lra.
Qed.

Lemma round_units_mono x y d :
  (x <= y)%Q -> round_units x d <= round_units y d.
Proof.
  intros H. unfold round_units.
  set (s := inject_Z (10 ^ Z.of_nat d)).
  pose proof (scale_pos d) as Hs. fold s in Hs.
  destruct (Qle_bool 0 x) eqn:Ex, (Qle_bool 0 y) eqn:Ey.
  - apply Qle_bool_iff in Ex, Ey.
    apply Qfloor_resp_le.
    rewrite (Qabs_pos x Ex), (Qabs_pos y Ey).
    assert (x * s <= y * s)%Q by (apply Qmult_le_compat_r; lra). lra.
  - exfalso. apply Qle_bool_iff in Ex.
    assert (Qle_bool 0 y = true) as C by (apply Qle_bool_iff; lra).
    congruence.
  - pose proof (floor_half_nonneg (Qabs x * s)) as Px.
    pose proof (floor_half_nonneg (Qabs y * s)) as Py.
    assert (0 <= Qabs x * s)%Q
      by (apply Qmult_le_0_compat; [apply Qabs_nonneg|lra]).
    assert (0 <= Qabs y * s)%Q
      by (apply Qmult_le_0_compat; [apply Qabs_nonneg|lra]).
    specialize (Px ltac:(assumption)). specialize (Py ltac:(assumption)).
    lia.
  - assert (x < 0)%Q as Nx.
    { apply Qnot_le_lt. intros C. apply Qle_bool_iff in C. congruence. }
    assert (y < 0)%Q as Ny.
    { apply Qnot_le_lt. intros C. apply Qle_bool_iff in C. congruence. }
    assert (Qfloor (Qabs y * s + (1 # 2)) <= Qfloor (Qabs x * s + (1 # 2))).
    { apply Qfloor_resp_le.
      assert (Qabs x == - x)%Q as -> by (apply Qabs_neg; lra).
      assert (Qabs y == - y)%Q as -> by (apply Qabs_neg; lra).
      assert ((- y) * s <= (- x) * s)%Q
        by (apply Qmult_le_compat_r; lra). lra. }
    lia.
Qed.



Lemma round_mono x y d : (x <= y)%Q -> (Sql.round x d <= Sql.round y d)%Q.
Proof.
  intros H. rewrite !round_units_eq.
  pose proof (scale_pos d) as Hs.
  unfold Qdiv. apply Qmult_le_compat_r.
  - rewrite <- Zle_Qle. now apply round_units_mono.
  - apply Qlt_le_weak, Qinv_lt_0_compat, Hs.
Qed.

(** A value of the scale is stored as it is. *)
Lemma round_units_exact k d :
  round_units (inject_Z k / inject_Z (10 ^ Z.of_nat d)) d = k.
Proof.
  pose proof (scale_pos d) as Hs.
  set (s := inject_Z (10 ^ Z.of_nat d)) in *.
  destruct (round_units_bounds (inject_Z k / s) d) as [L U]. fold s in L, U.
  assert (inject_Z k / s * s == inject_Z k)%Q as E by (field; lra).
  rewrite E in L, U.
  assert (inject_Z k - 1 < inject_Z (round_units (inject_Z k / s) d))%Q
    as L' by lra.
  assert (inject_Z (round_units (inject_Z k / s) d) < inject_Z k + 1)%Q
    as U' by lra.
  change 1%Q with (inject_Z 1) in L', U'.
  rewrite <- inject_Z_plus in U'.
  unfold Qminus in L'. rewrite <- inject_Z_opp, <- inject_Z_plus in L'.
  rewrite <- Zlt_Qlt in L', U'. lia.
Qed.

(** Rounding is symmetric about zero. *)
Lemma round_abs x d : (Qabs (Sql.round x d) == Sql.round (Qabs x) d)%Q.
Proof.
  rewrite !round_units_eq.
  pose proof (scale_pos d) as Hs.
  set (s := inject_Z (10 ^ Z.of_nat d)) in *.
  assert (round_units (Qabs x) d = Z.abs (round_units x d)) as E.
  { unfold round_units. fold s.
    assert (Qle_bool 0 (Qabs x) = true) as ->
        by (apply Qle_bool_iff, Qabs_nonneg).
    rewrite (Qabs_pos (Qabs x)) by apply Qabs_nonneg.
    assert (0 <= Qfloor (Qabs x * s + (1 # 2))) as P.
    { apply floor_half_nonneg. apply Qmult_le_0_compat;
        [apply Qabs_nonneg|lra]. }
    destruct (Qle_bool 0 x); lia. }
  rewrite E. unfold Qdiv. rewrite Qabs_Qmult.
  rewrite (Qabs_pos (/ s)) by (apply Qlt_le_weak, Qinv_lt_0_compat, Hs).
  apply Qmult_comp; [|reflexivity].
  unfold Qabs, inject_Z. simpl. reflexivity.
Qed.

(** ** What the table stores for a row *)

Lemma numeric_column_ok p s x y :
  numeric_column p s x = Ok y ->
  y = option_map (fun v => Sql.round v s) x.
Proof.
  destruct x as [v|]; cbn [numeric_column option_map].
  - unfold numeric_value. destruct (Sql.Qlt_bool _ _); cbn [bind];
      intros H; now inversion H.
  - intros H. now inversion H.
Qed.

(** The stored record keeps the keys, the counts and the flags of the
    row; each NUMERIC(12,6) column holds the value of the row rounded
    to six decimals. *)
Lemma store_row_ok r r' :
  store_row r = Ok r' ->
  (ccn r' = ccn r /\ extract_id r' = extract_id r
   /\ as_of_date r' = as_of_date r /\ state r' = state r)
  /\ (measures_present r' = measures_present r
      /\ measures_suppressed r' = measures_suppressed r
      /\ flags r' = flags r)
  /\ (mds_composite r'
      = option_map (fun v => Sql.round v 6) (mds_composite r)
      /\ claims_utilization r'
         = option_map (fun v => Sql.round v 6) (claims_utilization r))
  /\ (mds_z_score r' = option_map (fun v => Sql.round v 6) (mds_z_score r)
      /\ claims_z_score r'
         = option_map (fun v => Sql.round v 6) (claims_z_score r)
      /\ crid_value r' = option_map (fun v => Sql.round v 6) (crid_value r)
      /\ crid_volatility r'
         = option_map (fun v => Sql.round v 6) (crid_volatility r))
  /\ (state_mds_mean r'
      = option_map (fun v => Sql.round v 6) (state_mds_mean r)
      /\ state_mds_stddev r'
         = option_map (fun v => Sql.round v 6) (state_mds_stddev r)
      /\ state_claims_mean r'
         = option_map (fun v => Sql.round v 6) (state_claims_mean r)
      /\ state_claims_stddev r'
         = option_map (fun v => Sql.round v 6) (state_claims_stddev r)).
Proof.
  intros H. unfold store_row in H.
  repeat match type of H with
         | bind ?c _ = Ok _ =>
             let E := fresh "E" in
             destruct c eqn:E; cbn [bind] in H; [|discriminate H]
         end.
  inversion H; subst; clear H.
  repeat match goal with
         | E : numeric_column _ _ _ = Ok _ |- _ =>
             apply numeric_column_ok in E
         end.
  cbn [ccn extract_id as_of_date state measures_present measures_suppressed
       flags mds_composite claims_utilization mds_z_score claims_z_score
       crid_value crid_volatility state_mds_mean state_mds_stddev
       state_claims_mean state_claims_stddev].
  repeat split; assumption.
Qed.

Lemma round_threshold x t d :
  (Sql.round t d == t)%Q ->
  ((t <= x)%Q -> (t <= Sql.round x d)%Q)
  /\ ((x <= t)%Q -> (Sql.round x d <= t)%Q)
  /\ ((t < Sql.round x d)%Q -> (t < x)%Q)
  /\ ((Sql.round x d < t)%Q -> (x < t)%Q).
Proof.
  intros Et. repeat split; intros H.
  - rewrite <- Et. now apply round_mono.
  - rewrite <- Et. now apply round_mono.
  - apply Qnot_le_lt. intros C. apply (round_mono _ _ d) in C. lra.
  - apply Qnot_le_lt. intros C. apply (round_mono _ _ d) in C. lra.
Qed.

Lemma inject_Z_sub a b : inject_Z (a - b) = (inject_Z a - inject_Z b)%Q.
Proof.
  unfold Z.sub, Qminus. now rewrite inject_Z_plus, inject_Z_opp.
Qed.

(** The three roundings of a difference and of its terms differ by at
    most one unit of the scale. *)
Lemma round_difference a b d :
  (Qabs (Sql.round (a - b) d - (Sql.round a d - Sql.round b d))
   <= 1 / inject_Z (10 ^ Z.of_nat d))%Q.
Proof.
  rewrite !round_units_eq.
  pose proof (scale_pos d) as Hs.
  set (s := inject_Z (10 ^ Z.of_nat d)) in *.
  destruct (round_units_bounds (a - b) d) as [Lc Uc].
  destruct (round_units_bounds a d) as [La Ua].
  destruct (round_units_bounds b d) as [Lb Ub].
  fold s in Lc, Uc, La, Ua, Lb, Ub.
  set (nc := round_units (a - b) d) in *.
  set (na := round_units a d) in *.
  set (nb := round_units b d) in *.
  assert (-1 <= nc - (na - nb) <= 1) as K.
  { assert (inject_Z (nc - (na - nb)) < inject_Z 2)%Q as U.
    { rewrite !inject_Z_sub. change (inject_Z 2) with 2%Q. lra. }
    assert (inject_Z (-2) < inject_Z (nc - (na - nb)))%Q as L.
    { rewrite !inject_Z_sub. change (inject_Z (-2)) with (-2)%Q. lra. }
    rewrite <- Zlt_Qlt in U, L. lia. }
  assert (inject_Z nc / s - (inject_Z na / s - inject_Z nb / s)
          == inject_Z (nc - (na - nb)) / s)%Q as ->.
  { rewrite !inject_Z_sub. field. lra. }
  set (k := nc - (na - nb)) in *.
  unfold Qdiv. rewrite Qabs_Qmult.
  rewrite (Qabs_pos (/ s)) by (apply Qlt_le_weak, Qinv_lt_0_compat, Hs).
  apply Qmult_le_compat_r;
    [|apply Qlt_le_weak, Qinv_lt_0_compat, Hs].
  apply Qabs_Qle_condition. change 1%Q with (inject_Z 1).
  rewrite <- inject_Z_opp, <- !Zle_Qle. lia.
Qed.

Lemma total_eq xs : total xs = Sql.sum_q xs.
Proof.
  induction xs as [|x xs IH]; [reflexivity|].
  cbn [total]. rewrite IH. reflexivity.
Qed.

Lemma mean_of_eq xs : mean_of xs = Sql.mean xs.
Proof. unfold mean_of, Sql.mean. now rewrite total_eq. Qed.

Lemma population_variance_eq xs : population_variance xs = Sql.var_pop xs.
Proof.
  unfold population_variance, Sql.var_pop, Sql.sum_sq_dev.
  now rewrite total_eq, mean_of_eq.
Qed.

Section Stored.

Variable numeric_sqrt : Q -> Q.

(** C2. Score identity. On a row of the SELECT with a crid_value,
    crid_value is mds_z_score - claims_z_score exactly, and each z-score
    is (composite - mean) / population standard deviation, the mean and
    the variance (divisor N, not N - 1) taken over the composites of the
    complete facilities of the row's (state, extract_id). The table
    keeps the three scores in separate NUMERIC(12,6) columns, each
    rounded to six decimals on its own: on the stored record crid_value
    is mds_z_score - claims_z_score within 0.000001. *)
Theorem score_identity wp defs mds claims rows r c :
  materialize_sql numeric_sqrt wp defs mds claims = Ok rows ->
  In r rows ->
  crid_value r = Some c ->
  let co := cohort (with_composites defs mds claims)
                   (state r) (extract_id r) in
  let qs := Sql.non_null (map wc_mds_composite co) in
  let us := Sql.non_null (map wc_claims_utilization co) in
  exists qz uz q u,
    mds_z_score r = Some qz /\ claims_z_score r = Some uz
    /\ c = (qz - uz)%Q
    /\ mds_composite r = Some q /\ claims_utilization r = Some u
    /\ qz = ((q - mean_of qs) / numeric_sqrt (population_variance qs))%Q
    /\ uz = ((u - mean_of us) / numeric_sqrt (population_variance us))%Q
    /\ List.length qs = List.length co
    /\ List.length us = List.length co
    /\ forall r',
        store_row r = Ok r' ->
        mds_z_score r' = Some (Sql.round qz 6)
        /\ claims_z_score r' = Some (Sql.round uz 6)
        /\ crid_value r' = Some (Sql.round c 6)
        /\ score_identity_within (1 # 1000000) r'.
Proof.
  intros E Hr Hc co qs us.
  destruct (select_identity numeric_sqrt wp defs mds claims rows r c E Hr Hc)
    as [qz [uz [q [u [Hq [Hu [Ec [Hmc [Hcu [Eq [Eu [Lq Lu]]]]]]]]]]]].
  fold co in Eq, Eu, Lq, Lu. fold qs in Eq, Lq. fold us in Eu, Lu.
  exists qz, uz, q, u.
  split; [exact Hq|]. split; [exact Hu|]. split; [exact Ec|].
  split; [exact Hmc|]. split; [exact Hcu|].
  split.
  { etransitivity; [exact Eq|].
    rewrite population_variance_eq, mean_of_eq.
    unfold Sql.var_pop, Sql.mean. now rewrite Lq. }
  split.
  { etransitivity; [exact Eu|].
    rewrite population_variance_eq, mean_of_eq.
    unfold Sql.var_pop, Sql.mean. now rewrite Lu. }
  split; [exact Lq|]. split; [exact Lu|].
  intros r' S. apply store_row_ok in S.
  destruct S as [_ [_ [_ [[Sm [Sc [Sv _]]] _]]]].
  rewrite Hq in Sm. rewrite Hu in Sc. rewrite Hc in Sv.
  cbn [option_map] in Sm, Sc, Sv.
  split; [exact Sm|]. split; [exact Sc|]. split; [exact Sv|].
  intros c' Ec'. rewrite Sv in Ec'. inversion Ec'; subst c'.
  exists (Sql.round qz 6), (Sql.round uz 6).
  split; [exact Sm|]. split; [exact Sc|].
  rewrite Ec.
  eapply Qle_trans; [apply (round_difference qz uz 6)|].
  unfold Qle. simpl. lia.
Qed.

End Stored.

(** ** Flags *)

Lemma flag_when_Some c f x :
  flag_when c f = Some x <-> Sql.holds c = true /\ x = f.
Proof.
  unfold flag_when. destruct (Sql.holds c); split.
  - intros E. inversion E. auto.
  - intros [_ ->]. reflexivity.
  - discriminate.
  - intros [E _]. discriminate.
Qed.

Lemma holds_gt a k :
  Sql.holds (Sql.gt a (Some k)) = true <-> exists c, a = Some c /\ (k < c)%Q.
Proof.
  rewrite holds_true. destruct a as [c|]; simpl.
  - split.
    + intros E. inversion E as [G]. apply Qlt_bool_iff in G. now exists c.
    + intros [c' [E G]]. inversion E; subst. f_equal. now apply Qlt_bool_iff.
  - split; [discriminate|]. intros [c [E _]]. discriminate.
Qed.

Lemma holds_lt a k :
  Sql.holds (Sql.lt a (Some k)) = true <-> exists c, a = Some c /\ (c < k)%Q.
Proof.
  rewrite holds_true. destruct a as [c|]; simpl.
  - split.
    + intros E. inversion E as [G]. apply Qlt_bool_iff in G. now exists c.
    + intros [c' [E G]]. inversion E; subst. f_equal. now apply Qlt_bool_iff.
  - split; [discriminate|]. intros [c [E _]]. discriminate.
Qed.

(** The flags of a row, one disjunct per element of the array. *)
Lemma flags_of_In (x : WithCrid) (name : string) :
  In name (flags_of x) <->
  (wc_is_complete (z_f (cr_z x)) = false /\ name = "INCOMPLETE_MEASURES"%string)
  \/ (z_is_small_state (cr_z x) = true /\ name = "SMALL_STATE"%string)
  \/ (Sql.holds (Sql.gt (cr_crid_value x) (Some 2%Q)) = true
      /\ name = "HIGH_POSITIVE_CRID"%string)
  \/ (Sql.holds (Sql.lt (cr_crid_value x) (Some (-2)%Q)) = true
      /\ name = "HIGH_NEGATIVE_CRID"%string)
  \/ (Sql.holds (Sql.gt (cr_crid_value x) (Some 3%Q)) = true
      /\ name = "EXTREME_POSITIVE_CRID"%string)
  \/ (Sql.holds (Sql.lt (cr_crid_value x) (Some (-3)%Q)) = true
      /\ name = "EXTREME_NEGATIVE_CRID"%string)
  \/ (Sql.holds (Sql.gt (cr_crid_volatility x) (Some (15 # 10)%Q)) = true
      /\ name = "HIGH_VOLATILITY"%string)
  \/ (Sql.holds (Sql.and3
                   (Sql.gt (Sql.abs (z_mds_z_score (cr_z x))) (Some 2%Q))
                   (Sql.lt (Sql.abs (z_claims_z_score (cr_z x))) (Some 1%Q)))
      = true /\ name = "MDS_OUTLIER"%string)
  \/ (Sql.holds (Sql.and3
                   (Sql.gt (Sql.abs (z_claims_z_score (cr_z x))) (Some 2%Q))
                   (Sql.lt (Sql.abs (z_mds_z_score (cr_z x))) (Some 1%Q)))
      = true /\ name = "CLAIMS_OUTLIER"%string).
Proof.
  unfold flags_of. rewrite non_null_In. cbn [In].
  rewrite !flag_when_Some.
  assert (forall b, Sql.holds (Sql.not3 (Some b)) = true <-> b = false) as Hn
      by (intros [|]; simpl; split; auto; discriminate).
  assert (forall b, Sql.holds (Some b) = true <-> b = true) as Hs
      by (intros [|]; simpl; split; auto; discriminate).
  rewrite Hn, Hs. tauto.
Qed.

Ltac other_flag :=
  match goal with
  | H : _ /\ _ = _ |- _ => destruct H as [_ H]; discriminate H
  end.

(** Keeps, of the disjuncts of [flags_of_In], the one of the flag named. *)
Ltac pick_flag H :=
  apply flags_of_In in H;
  repeat (destruct H as [H|H]; [try other_flag|]); try other_flag.

Lemma abs_some (a : option Q) k :
  (exists c, Sql.abs a = Some c /\ (k < c)%Q)
  <-> exists q, a = Some q /\ (k < Qabs q)%Q.
Proof.
  destruct a as [q|]; simpl; split; intros [c [E H]]; try discriminate.
  - inversion E; subst. now exists q.
  - inversion E; subst. now exists (Qabs c).
Qed.

Lemma abs_some_lt (a : option Q) k :
  (exists c, Sql.abs a = Some c /\ (c < k)%Q)
  <-> exists q, a = Some q /\ (Qabs q < k)%Q.
Proof.
  destruct a as [q|]; simpl; split; intros [c [E H]]; try discriminate.
  - inversion E; subst. now exists q.
  - inversion E; subst. now exists (Qabs c).
Qed.

Section Flags.

Variable numeric_sqrt : Q -> Q.

Lemma small_state_cohort co :
  (Sql.coalesce (facility_count_of co) 0 <? 10) = true
  <-> Z.of_nat (List.length co) < 10.
Proof.
  rewrite Z.ltb_lt. destruct co; simpl; unfold Sql.count_star; simpl;
    reflexivity.
Qed.

(** The flags of a row of the SELECT against the values the SELECT
    computes. *)
Lemma select_flags wp defs mds claims rows r :
  materialize_sql numeric_sqrt wp defs mds claims = Ok rows ->
  In r rows ->
  let has flag := In flag (flags r) in
  (has "HIGH_POSITIVE_CRID"%string
   <-> exists c, crid_value r = Some c /\ (2 < c)%Q)
  /\ (has "HIGH_NEGATIVE_CRID"%string
      <-> exists c, crid_value r = Some c /\ (c < -2)%Q)
  /\ (has "EXTREME_POSITIVE_CRID"%string
      <-> exists c, crid_value r = Some c /\ (3 < c)%Q)
  /\ (has "EXTREME_NEGATIVE_CRID"%string
      <-> exists c, crid_value r = Some c /\ (c < -3)%Q)
  /\ (has "HIGH_VOLATILITY"%string
      <-> exists v, crid_volatility r = Some v /\ (15 # 10 < v)%Q)
  /\ (has "MDS_OUTLIER"%string
      <-> exists q u, mds_z_score r = Some q /\ claims_z_score r = Some u
                      /\ (2 < Qabs q)%Q /\ (Qabs u < 1)%Q)
  /\ (has "CLAIMS_OUTLIER"%string
      <-> exists q u, mds_z_score r = Some q /\ claims_z_score r = Some u
                      /\ (2 < Qabs u)%Q /\ (Qabs q < 1)%Q)
  /\ (forall c, crid_value r = Some c -> (c == 2)%Q ->
                ~ has "HIGH_POSITIVE_CRID"%string)
  /\ (forall c, crid_value r = Some c -> (c == 20001 # 10000)%Q ->
                has "HIGH_POSITIVE_CRID"%string)
  /\ (has "EXTREME_POSITIVE_CRID"%string -> has "HIGH_POSITIVE_CRID"%string)
  /\ (has "EXTREME_NEGATIVE_CRID"%string -> has "HIGH_NEGATIVE_CRID"%string)
  /\ (has "SMALL_STATE"%string
      <-> Z.of_nat (List.length
                      (cohort (with_composites defs mds claims)
                              (state r) (extract_id r))) < 10).
Proof.
  intros E Hr.
  destruct (output_row _ _ _ _ _ _ _ E Hr) as [f [frame [Hf [_ ->]]]].
  set (x := with_crid_row numeric_sqrt _).
  assert (z_is_small_state (cr_z x) = true
          <-> Z.of_nat (List.length
                          (cohort (with_composites defs mds claims)
                                  (state (select_row x))
                                  (extract_id (select_row x)))) < 10) as Hsmall.
  { unfold x. rewrite with_z_scores_fields.
    cbn [select_row with_crid_row cr_z z_f wc_f state extract_id
         z_is_small_state].
    apply small_state_cohort. }
  cbv zeta. cbn [select_row flags crid_value crid_volatility mds_z_score
                 claims_z_score].
  assert (In "HIGH_POSITIVE_CRID"%string (flags_of x)
          <-> exists c, cr_crid_value x = Some c /\ (2 < c)%Q) as HP.
  { rewrite <- holds_gt. split; intros H.
    - pick_flag H. tauto.
    - apply flags_of_In. tauto. }
  assert (In "HIGH_NEGATIVE_CRID"%string (flags_of x)
          <-> exists c, cr_crid_value x = Some c /\ (c < -2)%Q) as HN.
  { rewrite <- holds_lt. split; intros H.
    - pick_flag H. tauto.
    - apply flags_of_In. tauto. }
  assert (In "EXTREME_POSITIVE_CRID"%string (flags_of x)
          <-> exists c, cr_crid_value x = Some c /\ (3 < c)%Q) as EP.
  { rewrite <- holds_gt. split; intros H.
    - pick_flag H. tauto.
    - apply flags_of_In. tauto. }
  assert (In "EXTREME_NEGATIVE_CRID"%string (flags_of x)
          <-> exists c, cr_crid_value x = Some c /\ (c < -3)%Q) as EN.
  { rewrite <- holds_lt. split; intros H.
    - pick_flag H. tauto.
    - apply flags_of_In. tauto. }
  split; [exact HP|]. split; [exact HN|].
  split; [exact EP|]. split; [exact EN|].
  split.
  { rewrite <- holds_gt. split; intros H.
    - pick_flag H. tauto.
    - apply flags_of_In. tauto. }
  split.
  { split; intros H.
    - pick_flag H. destruct H as [H _].
      apply holds_true, and3_true in H. destruct H as [H1 H2].
      apply holds_true, holds_gt, abs_some in H1.
      apply holds_true, holds_lt, abs_some_lt in H2.
      destruct H1 as [q [Eq Hq]], H2 as [u [Eu Hu]].
      now exists q, u.
    - destruct H as [q [u [Eq [Eu [Hq Hu]]]]].
      apply flags_of_In. do 7 right. left. split; auto.
      apply holds_true, and3_true. split; apply holds_true.
      + apply holds_gt, abs_some. now exists q.
      + apply holds_lt, abs_some_lt. now exists u. }
  split.
  { split; intros H.
    - pick_flag H. destruct H as [H _].
      apply holds_true, and3_true in H. destruct H as [H1 H2].
      apply holds_true, holds_gt, abs_some in H1.
      apply holds_true, holds_lt, abs_some_lt in H2.
      destruct H1 as [u [Eu Hu]], H2 as [q [Eq Hq]].
      now exists q, u.
    - destruct H as [q [u [Eq [Eu [Hu Hq]]]]].
      apply flags_of_In. do 8 right. split; auto.
      apply holds_true, and3_true. split; apply holds_true.
      + apply holds_gt, abs_some. now exists u.
      + apply holds_lt, abs_some_lt. now exists q. }
  split.
  { intros c Ec E2 H. apply HP in H. destruct H as [c' [Ec' H]].
    rewrite Ec in Ec'. inversion Ec'; subst c'.
    rewrite E2 in H. now apply Qlt_irrefl in H. }
  split.
  { intros c Ec E2. apply HP. exists c. split; auto. rewrite E2.
    reflexivity. }
  split.
  { intros H. apply EP in H. destruct H as [c [Ec H]].
    apply HP. exists c. split; auto.
    apply Qlt_trans with (y := 3%Q); [reflexivity|exact H]. }
  split.
  { intros H. apply EN in H. destruct H as [c [Ec H]].
    apply HN. exists c. split; auto.
    apply Qlt_trans with (y := (-3)%Q); [exact H|reflexivity]. }
  rewrite <- Hsmall. split; intros H.
  - pick_flag H. tauto.
  - apply flags_of_In. tauto.
Qed.

End Flags.

(** The thresholds of the flags are values of the scale. *)
Lemma round_2 : (Sql.round 2 6 == 2)%Q.
Proof. vm_compute. reflexivity. Qed.

Lemma round_3 : (Sql.round 3 6 == 3)%Q.
Proof. vm_compute. reflexivity. Qed.

Lemma round_m2 : (Sql.round (-2) 6 == -2)%Q.
Proof. vm_compute. reflexivity. Qed.

Lemma round_m3 : (Sql.round (-3) 6 == -3)%Q.
Proof. vm_compute. reflexivity. Qed.

Lemma round_0 : (Sql.round 0 6 == 0)%Q.
Proof. vm_compute. reflexivity. Qed.

Lemma round_1 : (Sql.round 1 6 == 1)%Q.
Proof. vm_compute. reflexivity. Qed.

Lemma round_15 : (Sql.round (15 # 10) 6 == 15 # 10)%Q.
Proof. vm_compute. reflexivity. Qed.

(** A flag decided by [t < x] on the value of the SELECT, read against
    the stored value. *)
Lemma stored_above (P : Prop) t (x : option Q) :
  (Sql.round t 6 == t)%Q ->
  (P <-> exists c, x = Some c /\ (t < c)%Q) ->
  flag_above P t (option_map (fun v => Sql.round v 6) x).
Proof.
  intros Et [H1 H2]. split.
  - intros H. destruct (H1 H) as [c [-> L]]. cbn [option_map].
    eexists. split; [reflexivity|].
    apply (round_threshold c t 6 Et). lra.
  - intros v E L. destruct x as [c|]; [|discriminate E].
    cbn [option_map] in E. inversion E; subst v.
    apply H2. exists c. split; [reflexivity|].
    now apply (round_threshold c t 6 Et).
Qed.

Lemma stored_below (P : Prop) t (x : option Q) :
  (Sql.round t 6 == t)%Q ->
  (P <-> exists c, x = Some c /\ (c < t)%Q) ->
  flag_below P t (option_map (fun v => Sql.round v 6) x).
Proof.
  intros Et [H1 H2]. split.
  - intros H. destruct (H1 H) as [c [-> L]]. cbn [option_map].
    eexists. split; [reflexivity|].
    apply (round_threshold c t 6 Et). lra.
  - intros v E L. destruct x as [c|]; [|discriminate E].
    cbn [option_map] in E. inversion E; subst v.
    apply H2. exists c. split; [reflexivity|].
    now apply (round_threshold c t 6 Et).
Qed.

Lemma stored_outlier (P : Prop) (x y : option Q) :
  (P <-> exists a b, x = Some a /\ y = Some b
                     /\ (2 < Qabs a)%Q /\ (Qabs b < 1)%Q) ->
  flag_outlier P (option_map (fun v => Sql.round v 6) x)
               (option_map (fun v => Sql.round v 6) y).
Proof.
  intros [H1 H2]. split.
  - intros H. destruct (H1 H) as [a [b [-> [-> [L1 L2]]]]].
    cbn [option_map]. do 2 eexists.
    split; [reflexivity|]. split; [reflexivity|].
    rewrite !round_abs. split.
    + apply (round_threshold (Qabs a) 2 6 round_2). lra.
    + apply (round_threshold (Qabs b) 1 6 round_1). lra.
  - intros a' b' Ea Eb L1 L2.
    destruct x as [a|]; [|discriminate Ea].
    destruct y as [b|]; [|discriminate Eb].
    cbn [option_map] in Ea, Eb. inversion Ea; subst a'.
    inversion Eb; subst b'.
    rewrite round_abs in L1, L2.
    apply H2. exists a, b.
    split; [reflexivity|]. split; [reflexivity|]. split.
    + now apply (round_threshold (Qabs a) 2 6 round_2).
    + now apply (round_threshold (Qabs b) 1 6 round_1).
Qed.

Section StoredFlags.

Variable numeric_sqrt : Q -> Q.

(** C8. Flag semantics. On a row of the SELECT every threshold flag is
    in the array exactly when its operand is not NULL and strictly
    beyond the threshold (a crid_value of 2 gives no HIGH_POSITIVE_CRID,
    2.0001 does), an extreme flag comes with the high flag of its side,
    and SMALL_STATE is in the array exactly when the cohort of complete
    facilities of the row's (state, extract_id) has fewer than 10
    members, whatever the completeness of the row. The table keeps the
    flags as they are and the operands rounded to six decimals: on the
    stored record a flag implies that its operand is at or beyond the
    threshold, and an operand strictly beyond the threshold implies the
    flag. *)
Theorem flag_semantics wp defs mds claims rows r :
  materialize_sql numeric_sqrt wp defs mds claims = Ok rows ->
  In r rows ->
  let has flag := In flag (flags r) in
  ((has "HIGH_POSITIVE_CRID"%string
    <-> exists c, crid_value r = Some c /\ (2 < c)%Q)
   /\ (has "HIGH_NEGATIVE_CRID"%string
       <-> exists c, crid_value r = Some c /\ (c < -2)%Q)
   /\ (has "EXTREME_POSITIVE_CRID"%string
       <-> exists c, crid_value r = Some c /\ (3 < c)%Q)
   /\ (has "EXTREME_NEGATIVE_CRID"%string
       <-> exists c, crid_value r = Some c /\ (c < -3)%Q)
   /\ (has "HIGH_VOLATILITY"%string
       <-> exists v, crid_volatility r = Some v /\ (15 # 10 < v)%Q)
   /\ (has "MDS_OUTLIER"%string
       <-> exists q u, mds_z_score r = Some q /\ claims_z_score r = Some u
                       /\ (2 < Qabs q)%Q /\ (Qabs u < 1)%Q)
   /\ (has "CLAIMS_OUTLIER"%string
       <-> exists q u, mds_z_score r = Some q /\ claims_z_score r = Some u
                       /\ (2 < Qabs u)%Q /\ (Qabs q < 1)%Q)
   /\ (forall c, crid_value r = Some c -> (c == 2)%Q ->
                 ~ has "HIGH_POSITIVE_CRID"%string)
   /\ (forall c, crid_value r = Some c -> (c == 20001 # 10000)%Q ->
                 has "HIGH_POSITIVE_CRID"%string)
   /\ (has "EXTREME_POSITIVE_CRID"%string
       -> has "HIGH_POSITIVE_CRID"%string)
   /\ (has "EXTREME_NEGATIVE_CRID"%string
       -> has "HIGH_NEGATIVE_CRID"%string)
   /\ (has "SMALL_STATE"%string
       <-> Z.of_nat (List.length
                       (cohort (with_composites defs mds claims)
                               (state r) (extract_id r))) < 10))
  /\ forall r',
      store_row r = Ok r' ->
      let stored flag := In flag (flags r') in
      flags r' = flags r
      /\ flag_above (stored "HIGH_POSITIVE_CRID"%string) 2 (crid_value r')
      /\ flag_below (stored "HIGH_NEGATIVE_CRID"%string) (-2) (crid_value r')
      /\ flag_above (stored "EXTREME_POSITIVE_CRID"%string) 3 (crid_value r')
      /\ flag_below (stored "EXTREME_NEGATIVE_CRID"%string) (-3)
                    (crid_value r')
      /\ flag_above (stored "HIGH_VOLATILITY"%string) (15 # 10)
                    (crid_volatility r')
      /\ flag_outlier (stored "MDS_OUTLIER"%string)
                      (mds_z_score r') (claims_z_score r')
      /\ flag_outlier (stored "CLAIMS_OUTLIER"%string)
                      (claims_z_score r') (mds_z_score r')
      /\ (forall c', crid_value r' = Some c' -> (c' == 20001 # 10000)%Q ->
                     stored "HIGH_POSITIVE_CRID"%string)
      /\ (stored "EXTREME_POSITIVE_CRID"%string
          -> stored "HIGH_POSITIVE_CRID"%string)
      /\ (stored "EXTREME_NEGATIVE_CRID"%string
          -> stored "HIGH_NEGATIVE_CRID"%string)
      /\ (stored "SMALL_STATE"%string
          <-> Z.of_nat (List.length
                          (cohort (with_composites defs mds claims)
                                  (state r') (extract_id r'))) < 10).
Proof.
  intros E Hr has.
  pose proof (select_flags numeric_sqrt wp defs mds claims rows r E Hr) as F.
  cbv zeta in F. split; [exact F|].
  destruct F as [HP [HN [EP [EN [HV [MO [CO [_ [_ [XP [XN SS]]]]]]]]]]].
  intros r' S stored. apply store_row_ok in S.
  destruct S as [[_ [Se [_ Ss]]] [[_ [_ Sf]] [_ [[Sm [Sc [Sv Sw]]] _]]]].
  unfold stored. rewrite Sf, Sm, Sc, Sv, Sw, Se, Ss.
  split; [reflexivity|].
  split; [apply (stored_above _ _ _ round_2 HP)|].
  split; [apply (stored_below _ _ _ round_m2 HN)|].
  split; [apply (stored_above _ _ _ round_3 EP)|].
  split; [apply (stored_below _ _ _ round_m3 EN)|].
  split; [apply (stored_above _ _ _ round_15 HV)|].
  split; [apply (stored_outlier _ _ _ MO)|].
  split.
  { apply stored_outlier. rewrite CO. split.
    - intros [q [u [A [B [C D]]]]]. exists u, q. tauto.
    - intros [u [q [A [B [C D]]]]]. exists q, u. tauto. }
  split.
  { intros c' Ec' Q.
    apply (proj2 (stored_above _ _ _ round_2 HP) c' Ec').
    rewrite Q. reflexivity. }
  split; [exact XP|]. split; [exact XN|]. exact SS.
Qed.

End StoredFlags.

(** ** Ordered partitions and window frames *)

Lemma lastn_map {A B} (h : A -> B) n (l : list A) :
  map h (lastn n l) = lastn n (map h l).
Proof. unfold lastn. now rewrite skipn_map, length_map. Qed.

Lemma lastn_snoc {A} p (l : list A) x :
  lastn (S p) (l ++ [x]) = lastn p l ++ [x].
Proof.
  unfold lastn. rewrite length_app. simpl List.length.
  replace (List.length l + 1 - S p)%nat with (List.length l - p)%nat by lia.
  rewrite skipn_app.
  replace (List.length l - p - List.length l)%nat with 0%nat by lia.
  reflexivity.
Qed.

Section Ordering.

Context {A : Type} (key : A -> Z).

Lemma ascending_cons x l :
  ascending key (x :: l)
  <-> (forall y, In y l -> key x <= key y) /\ ascending key l.
Proof.
  unfold ascending. simpl. split.
  - intros H. inversion H as [|? ? Hs Hf]; subst. split; auto.
    intros y Hy. rewrite Forall_forall in Hf. apply Hf. now apply in_map.
  - intros [Hle Hs]. constructor; auto.
    apply Forall_forall. intros k Hk. apply in_map_iff in Hk.
    destruct Hk as [y [<- Hy]]. auto.
Qed.

Lemma insert_by_ascending x l :
  ascending key l -> ascending key (insert_by key x l).
Proof.
  induction l as [|a l IH]; simpl; intros H.
  - apply ascending_cons. split; [intros y []|exact H].
  - apply ascending_cons in H. destruct H as [Hle Hs].
    destruct (key x <=? key a) eqn:E.
    + apply Z.leb_le in E. apply ascending_cons. split.
      * intros y [<-|Hy]; auto. specialize (Hle y Hy). lia.
      * apply ascending_cons. auto.
    + apply Z.leb_gt in E. apply ascending_cons. split; auto.
      intros y Hy. apply insert_by_In in Hy.
      destruct Hy as [->|Hy]; [lia|auto].
Qed.

Lemma order_by_ascending l : ascending key (order_by key l).
Proof.
  induction l as [|a l IH]; simpl.
  - constructor.
  - now apply insert_by_ascending.
Qed.

(** ORDER BY leaves a relation that is already in order as it is. *)
Lemma order_by_sorted l : ascending key l -> order_by key l = l.
Proof.
  induction l as [|a l IH]; simpl; auto.
  intros H. apply ascending_cons in H. destruct H as [Hle Hs].
  rewrite IH by assumption.
  destruct l as [|b l]; simpl; auto.
  assert (key a <= key b) as Hab by (apply Hle; now left).
  apply Z.leb_le in Hab. now rewrite Hab.
Qed.

Lemma ascending_app l1 l2 :
  ascending key (l1 ++ l2)
  <-> ascending key l1 /\ ascending key l2
      /\ forall a b, In a l1 -> In b l2 -> key a <= key b.
Proof.
  induction l1 as [|x l1 IH]; simpl.
  - split; [intros H; repeat split; auto; [constructor|intros a b []]|tauto].
  - rewrite !ascending_cons, IH. split.
    + intros [Hle [H1 [H2 H12]]]. repeat split; auto.
      * intros y Hy. apply Hle, in_or_app. now left.
      * intros a b [<-|Ha] Hb; auto. apply Hle, in_or_app. now right.
    + intros [[Hle H1] [H2 H12]]. repeat split; auto.
      intros y Hy. apply in_app_or in Hy. destruct Hy; auto.
Qed.

(** In an ordered partition with distinct keys, the rows up to the key
    of a row are the rows before it and itself. *)
Lemma filter_upto l1 x l2 :
  ascending key (l1 ++ x :: l2) ->
  NoDup (map key (l1 ++ x :: l2)) ->
  filter (fun y => key y <=? key x) (l1 ++ x :: l2) = l1 ++ [x].
Proof.
  intros Hs Hn. rewrite filter_app. simpl.
  rewrite Z.leb_refl.
  apply ascending_app in Hs. destruct Hs as [_ [Hs2 Hle]].
  apply ascending_cons in Hs2. destruct Hs2 as [Hx _].
  rewrite filter_all, filter_none; auto.
  - intros y Hy. apply Z.leb_gt.
    assert (key x <= key y) by auto.
    assert (key y <> key x); [|lia].
    intros E. rewrite map_app in Hn. simpl in Hn.
    apply NoDup_remove_2 in Hn. apply Hn, in_or_app. right.
    rewrite <- E. now apply in_map.
  - intros y Hy. apply Z.leb_le. apply Hle; [exact Hy|now left].
Qed.

Lemma window_prefix l1 x l2 W :
  ascending key (l1 ++ x :: l2) ->
  NoDup (map key (l1 ++ x :: l2)) ->
  lastn W (order_by key
             (filter (fun y => key y <=? key x) (l1 ++ x :: l2)))
  = lastn W (l1 ++ [x]).
Proof.
  intros Hs Hn. rewrite filter_upto by assumption.
  rewrite order_by_sorted; auto.
  apply ascending_app in Hs. destruct Hs as [H1 [H2 Hle]].
  apply ascending_app. split; auto. split.
  - apply ascending_cons. split; [intros y []|constructor].
  - intros a b Ha [<-|[]]. apply Hle; [exact Ha|now left].
Qed.

End Ordering.

(** ** The unique constraint *)

Lemma same_ccn_extract_key a b :
  same_ccn_extract a b = true <-> crid_key a = crid_key b.
Proof. exact (claims_key_eqb_eq (crid_key a) (crid_key b)). Qed.

Lemma crid_monthly_unique_NoDup t :
  crid_monthly_unique t = true <-> NoDup (map crid_key t).
Proof.
  induction t as [|r t IH]; simpl.
  - split; [constructor|reflexivity].
  - rewrite andb_true_iff, negb_true_iff, IH. split.
    + intros [Hn Ht]. constructor; auto. intros Hin.
      apply in_map_iff in Hin. destruct Hin as [y [Ey Hy]].
      assert (existsb (same_ccn_extract r) t = true); [|congruence].
      apply existsb_exists. exists y. split; auto.
      now apply same_ccn_extract_key.
    + intros H. inversion H as [|? ? Hn Ht]; subst. split; auto.
      destruct (existsb _ t) eqn:E; auto. exfalso. apply Hn.
      apply existsb_exists in E. destruct E as [y [Hy Ey]].
      apply same_ccn_extract_key in Ey. rewrite Ey. now apply in_map.
Qed.

(** Under the constraint a key selects at most one row. *)
Lemma rows_of_unique rows r :
  crid_monthly_unique rows = true -> In r rows ->
  rows_of rows (ccn r) (extract_id r) = [r].
Proof.
  unfold rows_of. intros U. apply crid_monthly_unique_NoDup in U.
  induction rows as [|a rows IH]; simpl; [tauto|].
  inversion U as [|? ? Hn U']; subst. intros [->|Hr].
  - rewrite String.eqb_refl, Z.eqb_refl. simpl. f_equal.
    apply filter_none. intros y Hy.
    destruct (_ && _) eqn:E; auto. exfalso. apply Hn.
    assert (crid_key r = crid_key y) as ->
        by (apply same_ccn_extract_key; exact E).
    now apply in_map.
  - destruct (_ && _) eqn:E.
    + exfalso. apply Hn.
      assert (crid_key r = crid_key a) as <-
          by (apply same_ccn_extract_key; exact E).
      now apply in_map.
    + auto.
Qed.

(** ** Volatility *)

Lemma non_null_app {A} (l l' : list (option A)) :
  Sql.non_null (l ++ l') = Sql.non_null l ++ Sql.non_null l'.
Proof.
  induction l as [|[a|] l IH]; simpl; auto. now rewrite IH.
Qed.

Lemma stddev_pop_nonempty numeric_sqrt vals :
  Sql.non_null vals <> [] ->
  stddev_pop numeric_sqrt vals
  = Some (numeric_sqrt (Sql.var_pop (Sql.non_null vals))).
Proof.
  unfold stddev_pop. destruct (Sql.non_null vals); [congruence|reflexivity].
Qed.

Lemma z_diff_both z : (if both_z z then z_diff z else None) = z_diff z.
Proof.
  unfold both_z, z_diff.
  destruct (z_mds_z_score z), (z_claims_z_score z); reflexivity.
Qed.

Section Volatility.

Variable numeric_sqrt : Q -> Q.

Lemma output_partitions wp zs :
  map select_row (with_crid numeric_sqrt wp zs)
  = flat_map (fun kg => partition_rows numeric_sqrt (Z.to_nat wp) (snd kg))
             (Sql.group_by String.eqb z_ccn zs).
Proof.
  unfold with_crid, partition_rows.
  induction (Sql.group_by String.eqb z_ccn zs) as [|kg gs IH];
    cbn [flat_map]; auto.
  rewrite map_app, IH, map_map. reflexivity.
Qed.

(** A column of the output rows of a partition, read off the ordered
    partition. *)
Lemma partition_column {B} (h : CridRecord -> B) (h' : WithZScores -> B)
      p b rows :
  (forall z fr, h (select_row (with_crid_row numeric_sqrt (z, fr))) = h' z) ->
  map h (map (fun rf => select_row (with_crid_row numeric_sqrt rf))
             (rows_preceding p b rows))
  = map h' rows.
Proof.
  intros H. rewrite map_map.
  rewrite (map_ext _ (fun rf => h' (fst rf))) by (intros [z fr]; apply H).
  rewrite <- (map_map fst h'). now rewrite rows_preceding_fst.
Qed.

Lemma crid_value_select z fr :
  crid_value (select_row (with_crid_row numeric_sqrt (z, fr))) = z_diff z.
Proof. simpl. apply z_diff_both. Qed.

(** The rows of a partition carry the ccn of the partition. *)
Lemma partition_ccn p zs k part r :
  In (k, part) (Sql.group_by String.eqb z_ccn zs) ->
  In r (partition_rows numeric_sqrt p part) -> ccn r = k.
Proof.
  intros Hg Hr. apply (group_by_In _ String.eqb_eq) in Hg.
  destruct Hg as [_ ->]. unfold partition_rows in Hr.
  apply in_map_iff in Hr. destruct Hr as [[z fr] [<- Hz]].
  apply (in_map fst) in Hz. rewrite rows_preceding_fst in Hz.
  apply order_by_In, filter_In in Hz. destruct Hz as [_ Hz].
  apply String.eqb_eq in Hz. simpl. symmetry. exact Hz.
Qed.

Lemma other_partitions p zs gs k r :
  incl gs (Sql.group_by String.eqb z_ccn zs) ->
  ~ In k (map fst gs) ->
  In r (flat_map (fun kg => partition_rows numeric_sqrt p (snd kg)) gs) ->
  ccn r <> k.
Proof.
  intros Hi Hk Hr. apply in_flat_map in Hr.
  destruct Hr as [[k' part] [Hg Hr]]. simpl in Hr.
  rewrite (partition_ccn _ _ _ _ _ (Hi _ Hg) Hr).
  intros ->. apply Hk. now apply (in_map fst) in Hg.
Qed.

(** The window read off the output table is the frame of the window
    function: the row and the [p] rows before it in the facility's
    history. *)
Lemma window_frame wp zs r :
  let out := map select_row (with_crid numeric_sqrt wp zs) in
  crid_monthly_unique out = true ->
  In r out ->
  exists z frame before,
    r = select_row (with_crid_row numeric_sqrt (z, frame))
    /\ window_of out r (S (Z.to_nat wp)) = before ++ [r]
    /\ map crid_value (before ++ [r]) = map z_diff frame.
Proof.
  intros out U Hr. subst out. rewrite output_partitions in *.
  set (p := Z.to_nat wp) in *.
  set (groups := Sql.group_by String.eqb z_ccn zs) in *.
  apply in_flat_map in Hr. destruct Hr as [[k part] [Hg Hr]].
  simpl in Hr.
  pose proof (partition_ccn _ _ _ _ _ Hg Hr) as Hk.
  assert (NoDup (map fst groups)) as Hnd.
  { unfold groups. rewrite group_by_keys.
    apply distinct_NoDup, String.eqb_eq. }
  destruct (in_split _ _ Hg) as [G1 [G2 EG]].
  rewrite EG in Hnd. rewrite map_app in Hnd. simpl in Hnd.
  pose proof (NoDup_remove_2 _ _ _ Hnd) as Hout.
  assert (incl G1 groups /\ incl G2 groups) as [I1 I2].
  { rewrite EG. split; intros x Hx; apply in_or_app;
      [now left | right; now right]. }
  (* the position of the row in its partition *)
  unfold partition_rows in Hr. apply in_map_iff in Hr.
  destruct Hr as [[z frame] [Er Hz]].
  apply rows_preceding_In in Hz. destruct Hz as [l1 [l2 [Es Ef]]].
  simpl in Ef.
  set (sel := fun rf => select_row (with_crid_row numeric_sqrt rf)) in *.
  assert (partition_rows numeric_sqrt p part
          = map sel (rows_preceding p [] l1)
            ++ r :: map sel (rows_preceding p (l1 ++ [z]) l2)) as EP.
  { unfold partition_rows. fold sel. rewrite Es, rows_preceding_app.
    rewrite map_app. simpl. rewrite <- Er, Ef. reflexivity. }
  set (A := map sel (rows_preceding p [] l1)) in *.
  set (B := map sel (rows_preceding p (l1 ++ [z]) l2)) in *.
  (* the rows of other partitions do not pass the filter *)
  assert (filter (fun x => String.eqb (ccn r) (ccn x)
                           && (extract_id x <=? extract_id r))
                 (flat_map (fun kg => partition_rows numeric_sqrt p (snd kg))
                           groups)
          = filter (fun x => extract_id x <=? extract_id r) (A ++ r :: B))
    as EF.
  { rewrite EG, flat_map_app. cbn [flat_map snd]. rewrite !filter_app.
    rewrite (filter_none _ (flat_map _ G1)), (filter_none _ (flat_map _ G2)).
    - rewrite app_nil_r. cbn [app]. rewrite <- filter_app, <- EP.
      apply filter_ext_in.
      intros x Hx.
      rewrite (partition_ccn _ _ _ _ _ Hg Hx), Hk, String.eqb_refl.
      reflexivity.
    - intros x Hx. apply andb_false_iff. left. apply String.eqb_neq.
      rewrite Hk. intros E.
      apply (other_partitions p zs G2 k x I2); auto.
      intros Hin. apply Hout, in_or_app. now right.
    - intros x Hx. apply andb_false_iff. left. apply String.eqb_neq.
      rewrite Hk. intros E.
      apply (other_partitions p zs G1 k x I1); auto.
      intros Hin. apply Hout, in_or_app. now left. }
  (* the partition is in ascending order with distinct keys *)
  assert (map extract_id (A ++ r :: B)
          = map z_extract_id (order_by z_extract_id part)) as EK.
  { rewrite <- EP. unfold partition_rows.
    apply partition_column. reflexivity. }
  assert (ascending extract_id (A ++ r :: B)) as Hasc.
  { unfold ascending. rewrite EK. apply order_by_ascending. }
  assert (NoDup (map extract_id (A ++ r :: B))) as Hkeys.
  { apply crid_monthly_unique_NoDup in U.
    rewrite EG, flat_map_app in U. cbn [flat_map snd] in U.
    rewrite EP in U. rewrite !map_app in U.
    apply NoDup_app_remove_l, NoDup_app_remove_r in U.
    rewrite <- map_app in U.
    assert (map crid_key (A ++ r :: B)
            = map (pair k) (map extract_id (A ++ r :: B))) as EKk.
    { rewrite map_map. apply map_ext_in. intros x Hx.
      rewrite <- EP in Hx. unfold crid_key.
      now rewrite (partition_ccn _ _ _ _ _ Hg Hx). }
    rewrite EKk in U. now apply NoDup_map_inv in U. }
  exists z, frame, (lastn p A).
  split; [now rewrite Er|].
  unfold window_of. rewrite EF.
  rewrite (window_prefix extract_id A r B) by assumption.
  rewrite lastn_snoc. split; [reflexivity|].
  rewrite map_app, lastn_map.
  assert (map crid_value A = map z_diff l1) as ->
      by (apply partition_column; intros; apply crid_value_select).
  assert (crid_value r = z_diff z) as Ecv
      by (rewrite <- Er; apply crid_value_select).
  cbn [map]. rewrite Ecv, Ef, map_app, lastn_map. reflexivity.
Qed.

(** The volatility of an output row is the population standard
    deviation of the crid_value entries of its window that are not
    NULL; it is NULL when the row's own crid_value is. *)
Lemma volatility_over_window wp zs r :
  let out := map select_row (with_crid numeric_sqrt wp zs) in
  crid_monthly_unique out = true ->
  In r out ->
  crid_volatility r
  = match crid_value r with
    | Some _ =>
        Some (numeric_sqrt
                (Sql.var_pop
                   (Sql.non_null
                      (map crid_value
                           (window_of out r (S (Z.to_nat wp)))))))
    | None => None
    end.
Proof.
  intros out U Hr.
  destruct (window_frame wp zs r U Hr) as [z [frame [before [Er [Ew Em]]]]].
  fold out in Ew. rewrite Ew, Em.
  assert (crid_value r = z_diff z) as Ecv
      by (rewrite Er; apply crid_value_select).
  rewrite Ecv. rewrite Er.
  cbn [select_row with_crid_row crid_volatility cr_crid_volatility].
  rewrite map_app in Em. cbn [map] in Em. rewrite Ecv in Em.
  unfold both_z, z_diff in *.
  destruct (z_mds_z_score z) as [mz|], (z_claims_z_score z) as [cz|];
    try reflexivity.
  simpl Sql.holds. cbv iota. rewrite <- Em.
  apply stddev_pop_nonempty. rewrite non_null_app. simpl.
  intros E. now apply app_eq_nil in E.
Qed.

End Volatility.

(** ** The window as a set of periods *)

Section Suffix.

Context {A : Type}.

Lemma lastn_length W (l : list A) : (List.length (lastn W l) <= W)%nat.
Proof. unfold lastn. rewrite length_skipn. lia. Qed.

(** The last [W] rows are the end of the list, and all [W] of them when
    the list has rows before them. *)
Lemma lastn_suffix W (l : list A) :
  exists older,
    l = older ++ lastn W l
    /\ (older <> [] -> List.length (lastn W l) = W).
Proof.
  exists (firstn (List.length l - W) l). split.
  - unfold lastn. symmetry. apply firstn_skipn.
  - intros N. unfold lastn. rewrite length_skipn.
    destruct (Nat.le_gt_cases (List.length l) W) as [L|L]; [|lia].
    exfalso. apply N.
    replace (List.length l - W)%nat with 0%nat by lia. reflexivity.
Qed.

Lemma lastn_member W (l1 : list A) x l2 :
  NoDup (l1 ++ x :: l2) ->
  In x (lastn W (l1 ++ x :: l2)) <-> (List.length l2 < W)%nat.
Proof.
  intros ND. unfold lastn. rewrite length_app. cbn [List.length].
  set (n := (List.length l1 + S (List.length l2) - W)%nat).
  rewrite skipn_app.
  apply NoDup_remove_2 in ND.
  split.
  - intros H. apply in_app_or in H. destruct H as [H|H].
    + exfalso. apply ND, in_or_app. left.
      rewrite <- (firstn_skipn n l1). apply in_or_app. now right.
    + destruct (n - List.length l1)%nat as [|k] eqn:E; [lia|].
      exfalso. cbn [skipn] in H. apply ND, in_or_app. right.
      rewrite <- (firstn_skipn k l2). apply in_or_app. now right.
  - intros L. apply in_or_app. right.
    replace (n - List.length l1)%nat with 0%nat by lia. now left.
Qed.

End Suffix.

Section Strict.

Context {A : Type} (key : A -> Z).

Lemma insert_by_perm x (l : list A) :
  Permutation (insert_by key x l) (x :: l).
Proof.
  induction l as [|a l IH]; cbn [insert_by]; [reflexivity|].
  destruct (key x <=? key a); [reflexivity|].
  rewrite IH. apply perm_swap.
Qed.

Lemma order_by_perm (l : list A) : Permutation (order_by key l) l.
Proof.
  induction l as [|a l IH]; [reflexivity|].
  unfold order_by in *. cbn [fold_right].
  rewrite insert_by_perm. now constructor.
Qed.

(** An ordered relation with distinct keys is in strict order. *)
Lemma ascending_strict (l : list A) :
  ascending key l -> NoDup (map key l) ->
  StronglySorted Z.lt (map key l).
Proof.
  induction l as [|a l IH]; intros Hs Hn; cbn [map]; [constructor|].
  apply ascending_cons in Hs. destruct Hs as [Hle Hs].
  cbn [map] in Hn. inversion Hn as [|? ? Hin Hn']; subst.
  constructor; [now apply IH|].
  apply Forall_forall. intros k Hk.
  apply in_map_iff in Hk. destruct Hk as [y [<- Hy]].
  assert (key a <= key y) by auto.
  assert (key a <> key y); [|lia].
  intros E. apply Hin. rewrite E. now apply in_map.
Qed.

(** In an ordered partition with distinct keys, the rows after the key
    of a row are the rows that follow it. *)
Lemma filter_after l1 x (l2 : list A) :
  ascending key (l1 ++ x :: l2) ->
  NoDup (map key (l1 ++ x :: l2)) ->
  filter (fun y => key x <? key y) (l1 ++ x :: l2) = l2.
Proof.
  intros Hs Hn. rewrite filter_app. cbn [filter].
  rewrite Z.ltb_irrefl.
  apply ascending_app in Hs. destruct Hs as [_ [Hs2 Hle]].
  apply ascending_cons in Hs2. destruct Hs2 as [Hx _].
  rewrite filter_none, filter_all; auto.
  - intros y Hy. apply Z.ltb_lt.
    assert (key x <= key y) by auto.
    assert (key y <> key x); [|lia].
    intros E. rewrite map_app in Hn. cbn [map] in Hn.
    apply NoDup_remove_2 in Hn. apply Hn, in_or_app. right.
    rewrite <- E. now apply in_map.
  - intros y Hy. apply Z.ltb_ge. apply Hle; [exact Hy|now left].
Qed.

End Strict.

Lemma filter_length_perm {A} (f : A -> bool) (l l' : list A) :
  Permutation l l' ->
  List.length (filter f l) = List.length (filter f l').
Proof.
  induction 1 as [|a l l' _ IH|a b l|l l' l'' _ IH1 _ IH2];
    cbn [filter]; auto.
  - destruct (f a); cbn [List.length]; now rewrite IH.
  - destruct (f a), (f b); reflexivity.
  - now rewrite IH1.
Qed.

Lemma history_keys rows r :
  crid_monthly_unique rows = true ->
  NoDup (map extract_id (history_of rows r)).
Proof.
  intros U. apply crid_monthly_unique_NoDup in U.
  unfold history_of.
  eapply Permutation_NoDup;
    [apply Permutation_map; symmetry; apply order_by_perm|].
  induction rows as [|a rows IH]; cbn [filter map]; [constructor|].
  cbn [map] in U. inversion U as [|? ? Hin U']; subst.
  destruct (String.eqb (ccn r) (ccn a) && (extract_id a <=? extract_id r))
    eqn:E; [|now apply IH].
  cbn [map]. constructor; [|now apply IH].
  intros H. apply in_map_iff in H. destruct H as [y [Ey Hy]].
  apply filter_In in Hy. destruct Hy as [Hy Py].
  apply andb_true_iff in E, Py. destruct E as [E _], Py as [Py _].
  apply String.eqb_eq in E, Py.
  apply Hin. apply in_map_iff. exists y. split; [|exact Hy].
  unfold crid_key. now rewrite Ey, <- E, <- Py.
Qed.

(** The window holds the periods of the facility up to the current one
    that have fewer than [W] periods after them. *)
Lemma window_members rows r W x :
  crid_monthly_unique rows = true ->
  In x (window_of rows r W)
  <-> In x rows /\ ccn x = ccn r /\ extract_id x <= extract_id r
      /\ (periods_after rows r x < W)%nat.
Proof.
  intros U.
  pose proof (history_keys rows r U) as Hn.
  pose proof (order_by_ascending extract_id
                (filter (fun x => String.eqb (ccn r) (ccn x)
                                  && (extract_id x <=? extract_id r)) rows))
    as Hs.
  change (window_of rows r W) with (lastn W (history_of rows r)).
  fold (history_of rows r) in Hs.
  assert (forall y, In y (history_of rows r)
                    <-> In y rows /\ ccn y = ccn r
                        /\ extract_id y <= extract_id r) as Hin.
  { intros y. unfold history_of. rewrite order_by_In, filter_In.
    rewrite andb_true_iff, String.eqb_eq, Z.leb_le. intuition. }
  assert (periods_after rows r x
          = List.length (filter (fun y => extract_id x <? extract_id y)
                                (history_of rows r))) as Hp.
  { unfold periods_after, history_of.
    rewrite (filter_length_perm _ _ _ (order_by_perm extract_id _)).
    rewrite filter_filter. f_equal. apply filter_ext. intros y.
    destruct (String.eqb (ccn r) (ccn y)), (extract_id x <? extract_id y),
      (extract_id y <=? extract_id r); reflexivity. }
  split.
  - intros H.
    assert (In x (history_of rows r)) as Hx.
    { unfold lastn in H.
      rewrite <- (firstn_skipn (List.length (history_of rows r) - W)
                               (history_of rows r)).
      apply in_or_app. right. exact H. }
    destruct (in_split _ _ Hx) as [l1 [l2 E]].
    rewrite E in H, Hs, Hn, Hp.
    rewrite (filter_after extract_id l1 x l2 Hs Hn) in Hp.
    apply lastn_member in H;
      [|eapply NoDup_map_inv; exact Hn].
    apply Hin in Hx. intuition. lia.
  - intros [H1 [H2 [H3 H4]]].
    assert (In x (history_of rows r)) as Hx by (apply Hin; auto).
    destruct (in_split _ _ Hx) as [l1 [l2 E]].
    rewrite E in Hs, Hn, Hp. rewrite E.
    rewrite (filter_after extract_id l1 x l2 Hs Hn) in Hp.
    apply lastn_member; [eapply NoDup_map_inv; exact Hn|]. lia.
Qed.

Lemma window_strict rows r W :
  crid_monthly_unique rows = true ->
  StronglySorted Z.lt (map extract_id (window_of rows r W)).
Proof.
  intros U.
  change (window_of rows r W) with (lastn W (history_of rows r)).
  pose proof (history_keys rows r U) as Hn.
  assert (ascending extract_id (history_of rows r)) as Hs
      by apply order_by_ascending.
  destruct (lastn_suffix W (history_of rows r)) as [older [E _]].
  rewrite E in Hn, Hs.
  apply ascending_app in Hs. destruct Hs as [_ [Hs _]].
  rewrite map_app in Hn. apply NoDup_app_remove_l in Hn.
  now apply ascending_strict.
Qed.

Section Windowing.

Variable numeric_sqrt : Q -> Q.

Lemma window_size W : W = 3 \/ W = 4 -> Z.to_nat W = S (Z.to_nat (W - 1)).
Proof. intros [-> | ->]; reflexivity. Qed.

(** C3. Volatility windowing: in a run whose rows pass
    crid_monthly_unique, with the periods of a facility in ascending
    extract_id and W in {3, 4}, the window of a row ends with the row,
    is in strictly ascending extract_id, has at most W rows, and holds
    exactly the periods of the facility up to the row's that have fewer
    than W periods of the facility after them: the last W of the
    facility's history when the history is longer. crid_volatility is
    NULL when the row's crid_value is NULL and otherwise the population
    standard deviation (root of the mean squared deviation from the
    mean) of the crid_value entries of the window that are not NULL;
    with the three values 0.5, 1.0, 1.5 in the window and W = 3 it is
    the root of 1/6, which lies between 0.4082 and 0.4083. *)
Theorem volatility_windowing W defs mds claims rows r :
  W = 3 \/ W = 4 ->
  materialize_sql numeric_sqrt (W - 1) defs mds claims = Ok rows ->
  crid_monthly_unique rows = true ->
  In r rows ->
  let win := window_of rows r (Z.to_nat W) in
  let values := Sql.non_null (map crid_value win) in
  (exists before, win = before ++ [r])
  /\ ((List.length win <= Z.to_nat W)%nat
      /\ StronglySorted Z.lt (map extract_id win)
      /\ (forall x,
             In x win
             <-> In x rows /\ ccn x = ccn r
                 /\ extract_id x <= extract_id r
                 /\ (periods_after rows r x < Z.to_nat W)%nat)
      /\ exists older,
          history_of rows r = older ++ win
          /\ (older <> [] -> List.length win = Z.to_nat W))
  /\ (crid_value r = None -> crid_volatility r = None)
  /\ (crid_value r <> None ->
      crid_volatility r = stddev_pop numeric_sqrt (map crid_value win)
      /\ crid_volatility r
         = Some (numeric_sqrt
                   (Sql.sum_sq_dev values
                    / inject_Z (Z.of_nat (List.length values))))
      /\ crid_volatility r
         = Some (numeric_sqrt (population_variance values)))
  /\ (W = 3 ->
      forall c1 c2 c3,
        map crid_value win = [Some c1; Some c2; Some c3] ->
        (c1 == 1 # 2)%Q -> (c2 == 1)%Q -> (c3 == 3 # 2)%Q ->
        exists v,
          crid_volatility r = Some (numeric_sqrt v)
          /\ (v == 1 # 6)%Q
          /\ ((4082 # 10000) * (4082 # 10000) < v)%Q
          /\ (v < (4083 # 10000) * (4083 # 10000))%Q).
Proof.
  intros HW E U Hr win values.
  assert ((List.length win <= Z.to_nat W)%nat
          /\ StronglySorted Z.lt (map extract_id win)
          /\ (forall x,
                 In x win
                 <-> In x rows /\ ccn x = ccn r
                     /\ extract_id x <= extract_id r
                     /\ (periods_after rows r x < Z.to_nat W)%nat)
          /\ exists older,
              history_of rows r = older ++ win
              /\ (older <> [] -> List.length win = Z.to_nat W)) as Hwin.
  { split; [apply lastn_length|].
    split; [now apply window_strict|].
    split; [intros x; now apply window_members|].
    apply (lastn_suffix (Z.to_nat W) (history_of rows r)). }
  revert Hwin.
  rewrite materialize_sql_ok in E. inversion E as [E']. clear E.
  intros Hwin.
  rewrite <- E' in U, Hr.
  pose proof (volatility_over_window numeric_sqrt _ _ _ U Hr) as V.
  destruct (window_frame numeric_sqrt _ _ _ U Hr)
    as [z [frame [before [_ [Ew _]]]]].
  rewrite <- (window_size W HW), E' in V, Ew.
  fold win in V, Ew. fold values in V.
  split; [now exists before|].
  split; [exact Hwin|].
  split; [intros N; now rewrite N in V|].
  assert (crid_value r <> None ->
          crid_volatility r
          = Some (numeric_sqrt (Sql.var_pop values))) as V'.
  { intros N. destruct (crid_value r); [exact V|congruence]. }
  split.
  - intros N. split; [|split; [exact (V' N)|]].
    + rewrite (V' N). symmetry. apply stddev_pop_nonempty.
      rewrite Ew, map_app, non_null_app. simpl.
      destruct (crid_value r); [|congruence].
      intros H. now apply app_eq_nil in H.
    + rewrite population_variance_eq. exact (V' N).
  - intros _ c1 c2 c3 Hw H1 H2 H3.
    assert (crid_value r <> None) as N.
    { rewrite Ew, map_app in Hw. cbn [map] in Hw.
      change [Some c1; Some c2; Some c3]
        with ([Some c1; Some c2] ++ [Some c3]) in Hw.
      apply app_inj_tail in Hw. destruct Hw as [_ ->]. discriminate. }
    exists (Sql.var_pop values). split; [exact (V' N)|].
    assert (Sql.var_pop values == 1 # 6)%Q as Hv.
    { unfold values. rewrite Hw. unfold Sql.var_pop, Sql.sum_sq_dev,
        Sql.mean, Sql.sum_q. simpl. rewrite H1, H2, H3. reflexivity. }
    split; [exact Hv|]. rewrite Hv. split; reflexivity.
Qed.

(** C10. For every output row crid_volatility is not NULL exactly when
    crid_value is not NULL, the frame of the window always holding the
    row's own value; and when that value is the only one in the window
    that is not NULL (the facility's earliest valid period),
    crid_volatility is 0, the population standard deviation of a single
    value. *)
Theorem volatility_nullness W defs mds claims rows r :
  (forall x, (x == 0)%Q -> (numeric_sqrt x == 0)%Q) ->
  W = 3 \/ W = 4 ->
  materialize_sql numeric_sqrt (W - 1) defs mds claims = Ok rows ->
  In r rows ->
  (crid_volatility r <> None <-> crid_value r <> None)
  /\ (crid_monthly_unique rows = true ->
      forall c,
        crid_value r = Some c ->
        Sql.non_null (map crid_value (window_of rows r (Z.to_nat W))) = [c] ->
        exists v, crid_volatility r = Some v /\ (v == 0)%Q).
Proof.
  intros Hsqrt HW E Hr. split.
  - destruct (output_row _ _ _ _ _ _ _ E Hr) as [f [frame [_ [Hz ->]]]].
    set (z := with_z_scores_value f _) in *.
    cbn [select_row with_crid_row crid_volatility crid_value
         cr_crid_volatility cr_crid_value].
    destruct (both_z z) eqn:Bz; [|tauto].
    assert (exists d, z_diff z = Some d) as [d Hd].
    { unfold both_z, z_diff in *.
      destruct (z_mds_z_score z), (z_claims_z_score z); try discriminate.
      eexists. reflexivity. }
    rewrite Hd. rewrite stddev_pop_nonempty; [split; discriminate|].
    intros N.
    assert (In d (Sql.non_null (map z_diff frame))) as Hin.
    { apply non_null_In. rewrite <- Hd. now apply in_map. }
    rewrite N in Hin. destruct Hin.
  - intros U c Hv Hc.
    rewrite materialize_sql_ok in E. inversion E as [E']. clear E.
    rewrite <- E' in U, Hr.
    pose proof (volatility_over_window numeric_sqrt _ _ _ U Hr) as V.
    rewrite <- (window_size W HW), E', Hc, Hv in V.
    eexists. split; [exact V|]. apply Hsqrt.
    unfold Sql.var_pop, Sql.sum_sq_dev, Sql.mean, Sql.sum_q. simpl.
    field.
Qed.

End Windowing.

(** ** Runs of [main] *)

Lemma insert_into_empty rows :
  insert_into [] rows
  = if crid_monthly_unique rows then Ok rows else Raise UniqueViolation.
Proof. reflexivity. Qed.

Lemma valid_window W :
  existsb (Z.eqb W) [3; 4] = true <-> W = 3 \/ W = 4.
Proof.
  simpl. rewrite !orb_true_iff, !Z.eqb_eq. intuition discriminate.
Qed.

Section Runs.

Variable numeric_sqrt : Q -> Q.

(** The rows a rebuild offers to the empty table. *)
Lemma materialize_crid_rebuild conn W :
  W = 3 \/ W = 4 ->
  crid_monthly (session conn) = Some [] ->
  let db := session conn in
  let rows :=
    map select_row
        (with_crid numeric_sqrt (W - 1)
           (with_z_scores_rows numeric_sqrt
              (with_composites (nh_measure_definitions db)
                               (nh_quality_mds db) (nh_quality_claims db)))) in
  materialize_crid numeric_sqrt conn W
  = if crid_monthly_unique rows
    then (Ok (Sql.count_star rows),
          commit {| committed := committed conn;
                    session := set_crid_monthly (Some rows) db |})
    else (Raise UniqueViolation, abort conn).
Proof.
  intros HW Ht db rows. subst rows db. unfold materialize_crid.
  apply valid_window in HW. rewrite HW. cbn [negb].
  rewrite Ht, materialize_sql_ok.
  cbn [bind]. rewrite insert_into_empty.
  destruct (crid_monthly_unique _); reflexivity.
Qed.

(** A rebuild ends in one of two states: the table holds every row of
    the SELECT, or the table is empty. *)
Lemma main_rebuild args db :
  validate args = false -> dry_run args = false ->
  volatility_window args = 3 \/ volatility_window args = 4 ->
  let rows :=
    map select_row
        (with_crid numeric_sqrt (volatility_window args - 1)
           (with_z_scores_rows numeric_sqrt
              (with_composites (nh_measure_definitions db)
                               (nh_quality_mds db) (nh_quality_claims db)))) in
  main numeric_sqrt args db
  = if crid_monthly_unique rows
    then (None, set_crid_monthly (Some rows) db)
    else (Some UniqueViolation, set_crid_monthly (Some []) db).
Proof.
  intros Hv Hd HW rows. subst rows. unfold main.
  rewrite (proj2 (valid_window _) HW), Hv, Hd. cbn [negb].
  rewrite materialize_crid_rebuild; auto.
  cbn [session drop_and_create_table create_schema commit get_connection
       set_crid_monthly nh_measure_definitions nh_quality_mds
       nh_quality_claims].
  destruct (crid_monthly_unique _); reflexivity.
Qed.

(** C9. Volatility-window configuration: a window size other than 3 or
    4 is rejected with an error before anything is read or written;
    [main] leaves the database as it was and [materialize_crid] leaves
    the connection as it was; with 3 or 4 neither rejects, and a rebuild
    goes on to replace the output table. *)
Theorem window_configuration args db conn W :
  (volatility_window args <> 3 -> volatility_window args <> 4 ->
   main numeric_sqrt args db = (Some UsageError, db))
  /\ (W <> 3 -> W <> 4 ->
      materialize_crid numeric_sqrt conn W = (Raise ValueError, conn))
  /\ (W = 3 \/ W = 4 ->
      fst (materialize_crid numeric_sqrt conn W) <> Raise ValueError)
  /\ (volatility_window args = 3 \/ volatility_window args = 4 ->
      fst (main numeric_sqrt args db) <> Some UsageError
      /\ fst (main numeric_sqrt args db) <> Some ValueError
      /\ (validate args = false -> dry_run args = false ->
          crid_monthly (snd (main numeric_sqrt args db)) <> None)).
Proof.
  assert (forall V, V <> 3 -> V <> 4 -> existsb (Z.eqb V) [3; 4] = false)
    as Hbad.
  { intros V H3 H4. destruct (existsb _ _) eqn:E; auto.
    apply valid_window in E. tauto. }
  split; [intros H3 H4; unfold main; now rewrite Hbad|].
  split; [intros H3 H4; unfold materialize_crid; now rewrite Hbad|].
  split.
  - intros HW. unfold materialize_crid.
    rewrite (proj2 (valid_window _) HW). cbn [negb].
    destruct (crid_monthly (session conn)); [|discriminate].
    rewrite materialize_sql_ok. cbn [bind]. unfold insert_into.
    destruct (crid_monthly_unique _); discriminate.
  - intros HW.
    destruct (dry_run args) eqn:Hd.
    { unfold main. rewrite (proj2 (valid_window _) HW), Hd. cbn.
      repeat split; try discriminate. }
    destruct (validate args) eqn:Hv.
    { unfold main. rewrite (proj2 (valid_window _) HW), Hd, Hv.
      unfold run_validation.
      destruct (crid_monthly (session (get_connection db))); cbn;
        repeat split; try discriminate. }
    rewrite main_rebuild by assumption.
    destruct (crid_monthly_unique _); cbn; repeat split; discriminate.
Qed.

End Runs.

(** ** Coverage of the source *)

Section Coverage.

Variable numeric_sqrt : Q -> Q.

Lemma mds_base_source mds b :
  In b (mds_base mds) -> in_mds_source mds (mb_ccn b) (mb_extract_id b).
Proof.
  unfold mds_base. rewrite in_map_iff.
  intros [[[[[c e] d] s] g] [<- H]].
  apply (group_by_In _ mds_key_eqb_eq) in H. destruct H as [Hk _].
  apply in_map_iff in Hk. destruct Hk as [m [Ek Hm]].
  apply filter_In in Hm. destruct Hm as [Hm Hc].
  unfold mds_key_of in Ek. inversion Ek; subst.
  exists m. simpl. auto.
Qed.

Lemma source_mds_base mds c e :
  in_mds_source mds c e ->
  exists b, In b (mds_base mds) /\ mb_ccn b = c /\ mb_extract_id b = e.
Proof.
  intros [m [Hm [<- [<- Hc]]]].
  assert (In m (filter (fun m => code_in mds_codes (m_measure_code m)) mds))
    as Hf by (apply filter_In; auto).
  pose proof (group_by_intro _ mds_key_eqb_eq mds_key_of _ m Hf) as Hg.
  eexists. split.
  - unfold mds_base. apply in_map. exact Hg.
  - split; reflexivity.
Qed.

Lemma output_source wp defs mds claims rows r :
  materialize_sql numeric_sqrt wp defs mds claims = Ok rows ->
  In r rows -> in_mds_source mds (ccn r) (extract_id r).
Proof.
  intros E Hr.
  destruct (output_row _ _ _ _ _ _ _ E Hr) as [f [frame [Hf [_ ->]]]].
  apply with_composites_In in Hf. destruct Hf as [[b c] [Hj ->]].
  apply joined_In in Hj. destruct Hj as [Hb _].
  apply mds_base_source in Hb. exact Hb.
Qed.

Lemma source_output wp defs mds claims rows c e :
  materialize_sql numeric_sqrt wp defs mds claims = Ok rows ->
  in_mds_source mds c e ->
  exists r, In r rows /\ ccn r = c /\ extract_id r = e.
Proof.
  rewrite materialize_sql_ok. intros E. inversion E. clear E.
  intros H. apply source_mds_base in H.
  destruct H as [b [Hb [<- <-]]].
  assert (In (b, find (on_ccn_extract b) (claims_base claims))
             (joined mds claims)) as Hj.
  { rewrite joined_single.
    apply (in_map (fun m => (m, find (on_ccn_extract m)
                                     (claims_base claims)))).
    exact Hb. }
  set (mc := (b, find (on_ccn_extract b) (claims_base claims))) in *.
  set (f := with_composites_row (weight_values defs)
                                (all_facilities_row mc)).
  assert (In f (with_composites defs mds claims)) as Hf
      by (apply with_composites_In; now exists mc).
  set (wc := with_composites defs mds claims) in *.
  set (z := with_z_scores_value
              f (find (on_state_extract f) (state_stats numeric_sqrt wc))).
  assert (In z (with_z_scores_rows numeric_sqrt wc)) as Hz.
  { unfold with_z_scores_rows.
    apply (in_map (fun f => with_z_scores_value
                              f (find (on_state_extract f)
                                      (state_stats numeric_sqrt wc)))).
    exact Hf. }
  destruct (with_crid_intro numeric_sqrt wp _ z Hz) as [frame Hx].
  exists (select_row (with_crid_row numeric_sqrt (z, frame))).
  split; [now apply in_map|]. split; reflexivity.
Qed.

(** C6 as the transform has it. After a rebuild that succeeds, every
    (ccn, extract_id) with an MDS observation of one of the four MDS
    codes has exactly one row in the output table, and every other
    (ccn, extract_id), one that occurs in the claims source only
    included, has none. *)
Theorem output_coverage args db db' :
  validate args = false -> dry_run args = false ->
  main numeric_sqrt args db = (None, db') ->
  exists rows,
    crid_monthly db' = Some rows
    /\ forall c e,
        (in_mds_source (nh_quality_mds db) c e ->
         exists r, rows_of rows c e = [r])
        /\ (~ in_mds_source (nh_quality_mds db) c e ->
            rows_of rows c e = []).
Proof.
  intros Hv Hd Hm.
  assert (volatility_window args = 3 \/ volatility_window args = 4) as HW.
  { apply valid_window. destruct (existsb _ _) eqn:E; auto.
    unfold main in Hm. rewrite E in Hm. discriminate. }
  rewrite main_rebuild in Hm by assumption.
  set (rows := map select_row _) in Hm.
  destruct (crid_monthly_unique rows) eqn:U; [|discriminate].
  inversion Hm; subst db'. clear Hm.
  exists rows. split; [reflexivity|].
  assert (materialize_sql numeric_sqrt (volatility_window args - 1)
            (nh_measure_definitions db) (nh_quality_mds db)
            (nh_quality_claims db) = Ok rows) as E
      by apply materialize_sql_ok.
  intros c e. split.
  - intros H. destruct (source_output _ _ _ _ _ _ _ E H) as [r [Hr [<- <-]]].
    exists r. now apply rows_of_unique.
  - intros H. unfold rows_of. apply filter_none. intros r Hr.
    destruct (_ && _) eqn:B; auto. exfalso. apply H.
    apply andb_true_iff in B. destruct B as [Bc Be].
    apply String.eqb_eq in Bc. apply Z.eqb_eq in Be. subst.
    exact (output_source _ _ _ _ _ _ E Hr).
Qed.


End Coverage.

(** ** Weights *)

Lemma Qmax_cases x y :
  (Sql.Qmax x y = x \/ Sql.Qmax x y = y)
  /\ (x <= Sql.Qmax x y)%Q /\ (y <= Sql.Qmax x y)%Q.
Proof.
  unfold Sql.Qmax. destruct (Qle_bool x y) eqn:E.
  - apply Qle_bool_iff in E. repeat split; auto. apply Qle_refl.
  - repeat split; auto; [apply Qle_refl|].
    apply Qlt_le_weak, Qnot_le_lt. intros H.
    apply Qle_bool_iff in H. congruence.
Qed.

Lemma fold_Qmax l x :
  In (fold_left Sql.Qmax l x) (x :: l)
  /\ forall a, In a (x :: l) -> (a <= fold_left Sql.Qmax l x)%Q.
Proof.
  revert x. induction l as [|y l IH]; intros x; simpl.
  - split; [now left|]. intros a [<-|[]]. apply Qle_refl.
  - destruct (IH (Sql.Qmax x y)) as [Hin Hle].
    destruct (Qmax_cases x y) as [Hc [Hx Hy]]. split.
    + destruct Hin as [Hin|Hin]; [|auto].
      rewrite <- Hin. destruct Hc as [-> | ->]; auto.
    + intros a [<-|[<-|Ha]].
      * eapply Qle_trans; [exact Hx|]. apply Hle. now left.
      * eapply Qle_trans; [exact Hy|]. apply Hle. now left.
      * apply Hle. now right.
Qed.

(** MAX returns one of the values that are not NULL, the largest. *)
Lemma max_q_spec l :
  match Sql.max_q l with
  | Some w => In (Some w) l /\ forall a, In (Some a) l -> (a <= w)%Q
  | None => forall a, ~ In (Some a) l
  end.
Proof.
  unfold Sql.max_q. destruct (Sql.non_null l) as [|x t] eqn:E.
  - intros a Ha. apply non_null_In in Ha. rewrite E in Ha. destruct Ha.
  - destruct (fold_Qmax t x) as [Hin Hle]. split.
    + apply non_null_In. now rewrite E.
    + intros a Ha. apply Hle. rewrite <- E. now apply non_null_In.
Qed.

Section Weights.

Variable numeric_sqrt : Q -> Q.

Lemma z_value_null ic fc mean sd : z_score_value ic fc None mean sd = None.
Proof.
  unfold z_score_value. destruct (Sql.holds _); reflexivity.
Qed.

(** C7 as the transform has it. The weight set is not validated: no
    weight set makes the transform raise. A code without a used
    definition (or whose weights are all NULL) has a NULL weight, never
    zero, and a NULL weight makes the composite of its family, the
    z-score and crid_value NULL on every output row. Among several used
    definitions of one code the weight taken is the weight of one of
    them and no other of them has a larger one. *)
Theorem weight_set_not_validated wp defs mds claims :
  let w := weight_values defs in
  (exists rows, materialize_sql numeric_sqrt wp defs mds claims = Ok rows)
  /\ (forall code,
         (forall d, In d (measure_weights defs) ->
                    d_measure_code d = code -> d_crid_weight d = None) ->
         weight_of code (measure_weights defs) = None)
  /\ (forall code d a,
         In d (measure_weights defs) -> d_measure_code d = code ->
         d_crid_weight d = Some a ->
         exists m, weight_of code (measure_weights defs) = Some m
                   /\ (a <= m)%Q
                   /\ exists d', In d' (measure_weights defs)
                                 /\ d_measure_code d' = code
                                 /\ d_crid_weight d' = Some m)
  /\ forall rows r,
      materialize_sql numeric_sqrt wp defs mds claims = Ok rows ->
      In r rows ->
      (w_410 w = None \/ w_453 w = None \/ w_407 w = None \/ w_409 w = None ->
       mds_composite r = None /\ mds_z_score r = None /\ crid_value r = None)
      /\ (w_551 w = None \/ w_552 w = None ->
          claims_utilization r = None /\ claims_z_score r = None
          /\ crid_value r = None).
Proof.
  intros w. split; [eexists; apply materialize_sql_ok|].
  split.
  { intros code H. unfold weight_of.
    pose proof (max_q_spec
                  (map (fun d => if String.eqb (d_measure_code d) code
                                 then d_crid_weight d else None)
                       (measure_weights defs))) as S.
    destruct (Sql.max_q _) as [m|]; auto. destruct S as [Hin _].
    apply in_map_iff in Hin. destruct Hin as [d [Ed Hd]].
    destruct (String.eqb (d_measure_code d) code) eqn:Ec; [|discriminate].
    apply String.eqb_eq in Ec. rewrite (H d Hd Ec) in Ed. discriminate. }
  split.
  { intros code d a Hd Ec Ea. unfold weight_of.
    pose proof (max_q_spec
                  (map (fun d => if String.eqb (d_measure_code d) code
                                 then d_crid_weight d else None)
                       (measure_weights defs))) as S.
    assert (In (Some a)
               (map (fun d => if String.eqb (d_measure_code d) code
                              then d_crid_weight d else None)
                    (measure_weights defs))) as Hin.
    { apply in_map_iff. exists d. split; auto.
      apply String.eqb_eq in Ec. now rewrite Ec. }
    destruct (Sql.max_q _) as [m|].
    - exists m. split; auto. destruct S as [Hm Hle].
      split; [now apply Hle|].
      apply in_map_iff in Hm. destruct Hm as [d' [Ed' Hd']].
      exists d'. split; [exact Hd'|].
      destruct (String.eqb (d_measure_code d') code) eqn:Ec';
        [|discriminate Ed'].
      apply String.eqb_eq in Ec'. split; assumption.
    - exfalso. exact (S a Hin). }
  intros rows r E Hr.
  destruct (output_row _ _ _ _ _ _ _ E Hr) as [f [frame [Hf [_ ->]]]].
  rewrite with_z_scores_fields.
  cbn [select_row with_crid_row cr_z z_f mds_composite claims_utilization
       mds_z_score claims_z_score crid_value cr_crid_value z_mds_z_score
       z_claims_z_score both_z z_diff].
  apply with_composites_In in Hf. destruct Hf as [mc [_ Ef]].
  fold w in Ef.
  split.
  - intros Hw.
    assert (wc_mds_composite f = None) as ->.
    { rewrite Ef. cbn [with_composites_row wc_mds_composite].
      destruct (af_is_complete _); auto.
      destruct Hw as [-> | [-> | [-> | ->]]];
        destruct (w_410 w), (w_453 w), (w_407 w), (w_409 w),
                 (af_measure_410 _), (af_measure_453 _),
                 (af_measure_407 _), (af_measure_409 _); reflexivity. }
    rewrite z_value_null. auto.
  - intros Hw.
    assert (wc_claims_utilization f = None) as ->.
    { rewrite Ef. cbn [with_composites_row wc_claims_utilization].
      destruct (af_is_complete _); auto.
      destruct Hw as [-> | ->];
        destruct (w_551 w), (w_552 w),
                 (af_measure_551 _), (af_measure_552 _); reflexivity. }
    rewrite z_value_null.
    destruct (z_score_value _ _ (wc_mds_composite f) _ _); auto.
Qed.

End Weights.

(** ** The executable square root *)

Lemma sqrt_floor_zero x : (x == 0)%Q -> (sqrt_floor x == 0)%Q.
Proof.
  intros H. unfold sqrt_floor. rewrite (Qred_complete x 0 H). reflexivity.
Qed.

Lemma sqrt_floor_pos x : (0 < x)%Q -> (0 < sqrt_floor x)%Q.
Proof.
  intros H. unfold sqrt_floor.
  assert (0 < Qnum (Qred x)) as Hn.
  { assert (0 < Qred x)%Q as Hr by (now rewrite Qred_correct).
    unfold Qlt in Hr. simpl in Hr. lia. }
  destruct (Qnum (Qred x) <=? 0) eqn:E; [apply Z.leb_le in E; lia|].
  rewrite Qred_correct.
  unfold Qlt. simpl. rewrite Z.mul_1_r.
  apply Z.sqrt_pos.
  assert (0 < Z.pos (Qden (Qred x))) by lia.
  assert (0 < Z.pos sqrt_digits) by lia.
  repeat apply Z.mul_pos_pos; assumption.
Qed.

(** ** The sample run *)

(** The transform over the sample relations yields [sample_rows]. *)
Example sample_run :
  materialize_sql sqrt_floor 2 sample_defs sample_mds sample_claims
  = Ok sample_rows.
Proof. vm_compute. reflexivity. Qed.

(** Facility 015001: crid_value 0.5, 1, 1.5, and the volatility over one,
    two and three values. *)
Example sample_facility_015001 :
  map (fun r => (extract_id r, option_map Qred (crid_value r),
                 option_map Qred (crid_volatility r)))
      (firstn 3 sample_rows)
  = [ (202401, Some (1 # 2)%Q, Some 0%Q);
      (202402, Some 1%Q, Some (1 # 4)%Q);
      (202403, Some (3 # 2)%Q,
       Some (408248290463863 # 1000000000000000)%Q) ].
Proof. vm_compute. reflexivity. Qed.

(** Facility 015011 lacks a measure and facility 025001 has no peers:
    neither is scored. *)
Example sample_unscored :
  map (fun r => (ccn r, measures_present r, Qred (completeness_pct r),
                 crid_value r, flags r))
      (skipn 30 sample_rows)
  = [ ("015011"%string, 5, (8333 # 100)%Q, None,
       ["INCOMPLETE_MEASURES"%string]);
      ("025001"%string, 6, 100%Q, None, ["SMALL_STATE"%string]) ].
Proof. vm_compute. reflexivity. Qed.

Lemma gating_invariant_witness :
  In sample_row_3 sample_rows
  /\ (crid_value sample_row_3 <> None
      <-> mds_z_score sample_row_3 <> None
          /\ claims_z_score sample_row_3 <> None).
Proof.
  assert (materialize_sql sqrt_floor 2 sample_defs sample_mds sample_claims
          = Ok sample_rows) as E by (vm_compute; reflexivity).
  assert (In sample_row_3 sample_rows) as H
      by (apply nth_In; vm_compute; lia).
  split; [exact H|].
  exact (proj1 (proj2 (gating_invariant sqrt_floor 2 sample_defs sample_mds
                                        sample_claims)
                      sample_rows sample_row_3 E H)).
Defined.

Example four_run :
  materialize_sql sqrt_floor (3 - 1) sample_defs
                  (flat_map fst four_extracts) (flat_map snd four_extracts)
  = Ok four_rows.
Proof. vm_compute. reflexivity. Qed.

Lemma volatility_windowing_witness :
  (In sample_row_3 sample_rows
   /\ exists v,
       crid_volatility sample_row_3 = Some (sqrt_floor v)
       /\ (v == 1 # 6)%Q)
  /\ In four_row_4 four_rows
  /\ map extract_id
         (filter (fun x => String.eqb (ccn four_row_4) (ccn x)) four_rows)
     = [202401; 202402; 202403; 202404]
  /\ map extract_id (window_of four_rows four_row_4 (Z.to_nat 3))
     = [202402; 202403; 202404]
  /\ crid_volatility four_row_4
     = stddev_pop sqrt_floor
                  (map crid_value
                       (window_of four_rows four_row_4 (Z.to_nat 3))).
Proof.
  split.
  - assert (materialize_sql sqrt_floor (3 - 1) sample_defs sample_mds
                            sample_claims
            = Ok sample_rows) as E by (vm_compute; reflexivity).
    assert (crid_monthly_unique sample_rows = true) as U
        by (vm_compute; reflexivity).
    assert (In sample_row_3 sample_rows) as H
        by (apply nth_In; vm_compute; lia).
    split; [exact H|].
    destruct (volatility_windowing sqrt_floor 3 sample_defs sample_mds
                                   sample_claims sample_rows sample_row_3
                                   (or_introl eq_refl) E U H)
      as [_ [_ [_ [_ T]]]].
    specialize (T eq_refl).
    assert (exists c1 c2 c3,
               map crid_value
                   (window_of sample_rows sample_row_3 (Z.to_nat 3))
               = [Some c1; Some c2; Some c3]
               /\ (c1 == 1 # 2)%Q /\ (c2 == 1)%Q /\ (c3 == 3 # 2)%Q)
      as [c1 [c2 [c3 [Hw [H1 [H2 H3]]]]]].
    { do 3 eexists. split; [vm_compute; reflexivity|].
      repeat split; vm_compute; reflexivity. }
    destruct (T c1 c2 c3 Hw H1 H2 H3) as [v [Hv [Ev _]]].
    exists v. split; assumption.
  - assert (crid_monthly_unique four_rows = true) as U
        by (vm_compute; reflexivity).
    assert (In four_row_4 four_rows) as H
        by (apply nth_In; vm_compute; lia).
    split; [exact H|].
    split; [vm_compute; reflexivity|].
    split; [vm_compute; reflexivity|].
    destruct (volatility_windowing sqrt_floor 3 sample_defs
                                   (flat_map fst four_extracts)
                                   (flat_map snd four_extracts)
                                   four_rows four_row_4
                                   (or_introl eq_refl) four_run U H)
      as [_ [_ [_ [T _]]]].
    apply T. vm_compute. discriminate.
Defined.

Lemma completeness_tracker_witness :
  In sample_incomplete
     (with_composites sample_defs sample_mds sample_claims)
  /\ af_measures_present (wc_f sample_incomplete) = 5
  /\ (wc_completeness_pct sample_incomplete == 8333 # 100)%Q
  /\ af_is_complete (wc_f sample_incomplete) = false.
Proof.
  assert (In sample_incomplete
             (with_composites sample_defs sample_mds sample_claims)) as H
      by (apply nth_In; vm_compute; lia).
  split; [exact H|].
  destruct (completeness_tracker sample_defs sample_mds sample_claims
                                 sample_incomplete H)
    as [m [c [_ [_ [P [_ [_ [_ S]]]]]]]].
  assert (af_measures_present (wc_f sample_incomplete) = 5) as P5
      by (vm_compute; reflexivity).
  split; [exact P5|]. apply S. rewrite <- P. exact P5.
Defined.

Lemma window_configuration_witness :
  main sqrt_floor sample_args_window_5 sample_db = (Some UsageError, sample_db).
Proof.
  apply (proj1 (window_configuration sqrt_floor sample_args_window_5
                                     sample_db (get_connection sample_db) 5));
    simpl; lia.
Defined.

Lemma volatility_nullness_witness :
  In sample_row_1 sample_rows
  /\ (crid_volatility sample_row_1 <> None <-> crid_value sample_row_1 <> None)
  /\ exists v, crid_volatility sample_row_1 = Some v /\ (v == 0)%Q.
Proof.
  assert (materialize_sql sqrt_floor (3 - 1) sample_defs sample_mds
                          sample_claims
          = Ok sample_rows) as E by (vm_compute; reflexivity).
  assert (crid_monthly_unique sample_rows = true) as U
      by (vm_compute; reflexivity).
  assert (In sample_row_1 sample_rows) as H
      by (apply nth_In; vm_compute; lia).
  split; [exact H|].
  destruct (volatility_nullness sqrt_floor 3 sample_defs sample_mds
                                sample_claims sample_rows sample_row_1
                                sqrt_floor_zero (or_introl eq_refl) E H)
    as [N Z0].
  split; [exact N|].
  eapply (Z0 U); vm_compute; reflexivity.
Defined.

(** ** The stored samples *)

Example thirds_run :
  materialize_sql sqrt_floor 2 sample_defs (fst thirds) (snd thirds)
  = Ok thirds_rows.
Proof. vm_compute. reflexivity. Qed.

Example thirds_store : store_row thirds_row = Ok thirds_stored.
Proof. vm_compute. reflexivity. Qed.

Example boundary_run :
  materialize_sql sqrt_floor 2 sample_defs (fst boundary) (snd boundary)
  = Ok boundary_rows.
Proof. vm_compute. reflexivity. Qed.

Example boundary_store : store_row boundary_row = Ok boundary_stored.
Proof. vm_compute. reflexivity. Qed.

(** C2 as stated fails on the stored record: facility 015003 of the
    [thirds] cohort is stored with z-scores -0.333333 and 0.333333 and
    crid_value -0.666667. *)
Lemma score_identity_beyond_1e9 :
  materialize_sql sqrt_floor 2 sample_defs (fst thirds) (snd thirds)
  = Ok thirds_rows
  /\ In thirds_row thirds_rows
  /\ store_row thirds_row = Ok thirds_stored
  /\ ~ score_identity_within (1 # 1000000000) thirds_stored.
Proof.
  split; [exact thirds_run|].
  split; [apply nth_In; vm_compute; lia|].
  split; [exact thirds_store|].
  intros H. destruct (H _ eq_refl) as [qz [uz [Hq [Hu B]]]].
  cbn in Hq, Hu. inversion Hq; subst qz. inversion Hu; subst uz.
  vm_compute in B. apply B. reflexivity.
Qed.

Lemma score_identity_witness :
  In thirds_row thirds_rows
  /\ (exists c, crid_value thirds_row = Some c /\ (c == - (2 # 3))%Q)
  /\ mds_z_score thirds_stored = Some (- (333333 # 1000000))%Q
  /\ claims_z_score thirds_stored = Some (333333 # 1000000)%Q
  /\ crid_value thirds_stored = Some (- (666667 # 1000000))%Q
  /\ score_identity_within (1 # 1000000) thirds_stored.
Proof.
  assert (In thirds_row thirds_rows) as H
      by (apply nth_In; vm_compute; lia).
  assert (exists c, crid_value thirds_row = Some c /\ (c == - (2 # 3))%Q)
    as [c [Hc Ec]]
      by (eexists; split; [vm_compute; reflexivity|vm_compute; reflexivity]).
  split; [exact H|]. split; [exists c; split; assumption|].
  destruct (score_identity sqrt_floor 2 sample_defs (fst thirds) (snd thirds)
                           thirds_rows thirds_row _ thirds_run H Hc)
    as [qz [uz [q [u [_ [_ [_ [_ [_ [_ [_ [_ [_ S]]]]]]]]]]]]].
  destruct (S thirds_stored thirds_store) as [_ [_ [_ T]]].
  split; [vm_compute; reflexivity|].
  split; [vm_compute; reflexivity|].
  split; [vm_compute; reflexivity|]. exact T.
Defined.

(** C8 as stated fails on the stored record: facility 015001 of the
    [boundary] cohort is stored with crid_value 2.000000 and
    HIGH_POSITIVE_CRID. *)
Lemma stored_boundary_flagged :
  materialize_sql sqrt_floor 2 sample_defs (fst boundary) (snd boundary)
  = Ok boundary_rows
  /\ In boundary_row boundary_rows
  /\ store_row boundary_row = Ok boundary_stored
  /\ ~ strict_boundary boundary_stored.
Proof.
  split; [exact boundary_run|].
  split; [apply nth_In; vm_compute; lia|].
  split; [exact boundary_store|].
  intros H. apply (H _ eq_refl); [vm_compute; reflexivity|].
  vm_compute. auto.
Qed.

Lemma flag_semantics_witness :
  In boundary_row boundary_rows
  /\ In "HIGH_POSITIVE_CRID"%string (flags boundary_row)
  /\ (exists c, crid_value boundary_row = Some c /\ (2 < c)%Q)
  /\ flags boundary_stored = flags boundary_row
  /\ exists c', crid_value boundary_stored = Some c' /\ (2 <= c')%Q.
Proof.
  assert (In boundary_row boundary_rows) as H
      by (apply nth_In; vm_compute; lia).
  split; [exact H|].
  destruct (flag_semantics sqrt_floor 2 sample_defs (fst boundary)
                           (snd boundary) boundary_rows boundary_row
                           boundary_run H)
    as [[HP _] S].
  assert (In "HIGH_POSITIVE_CRID"%string (flags boundary_row)) as I
      by (vm_compute; auto).
  split; [exact I|]. split; [exact (proj1 HP I)|].
  destruct (S boundary_stored boundary_store) as [Ef [[A _] _]].
  split; [exact Ef|]. apply A. rewrite Ef. exact I.
Defined.




(** C6 as stated fails: facility 015012 is in the measure source, with
    claims observations, and has no output row. *)
Lemma claims_only_not_covered :
  main sqrt_floor sample_args sample_db
  = (None, set_crid_monthly (Some sample_rows) sample_db)
  /\ ~ covers_measure_source sample_mds sample_claims sample_rows.
Proof.
  split; [vm_compute; reflexivity|].
  intros H. destruct (H "015012"%string 202401) as [r Hr].
  - right. exists (sample_claims_row "015012" 202401 "551" 20).
    split; [|repeat split].
    unfold sample_claims. apply in_or_app. right.
    apply in_or_app. right. apply in_or_app. right. now left.
  - vm_compute in Hr. discriminate Hr.
Qed.

Lemma output_coverage_witness :
  exists rows r,
    crid_monthly (snd (main sqrt_floor sample_args sample_db)) = Some rows
    /\ rows_of rows "015001" 202401 = [r].
Proof.
  assert (main sqrt_floor sample_args sample_db
          = (None, snd (main sqrt_floor sample_args sample_db))) as M
      by (vm_compute; reflexivity).
  destruct (output_coverage sqrt_floor sample_args sample_db _
                            eq_refl eq_refl M)
    as [rows [Er C]].
  destruct (proj1 (C "015001"%string 202401)) as [r Hr].
  - exists (sample_mds_row "015001" 202401 "410" 21).
    split; [|repeat split].
    vm_compute. left. reflexivity.
  - exists rows, r. split; assumption.
Defined.

(** C7 as stated fails: without a weight for measure 552 the run ends
    without an error. *)
Lemma missing_weight_not_rejected :
  ~ rejects_invalid_weights sqrt_floor sample_args sample_db_without_552.
Proof.
  unfold rejects_invalid_weights. intros H.
  apply H; [|vm_compute; reflexivity].
  intros V. specialize (V "552"%string).
  assert (In "552"%string (mds_codes ++ claims_codes)) as I
      by (simpl; auto 10).
  specialize (V I). vm_compute in V. discriminate V.
Qed.

Lemma weight_set_not_validated_witness :
  In (nth 2 sample_rows_without_552 null_row) sample_rows_without_552
  /\ claims_utilization (nth 2 sample_rows_without_552 null_row) = None
  /\ claims_z_score (nth 2 sample_rows_without_552 null_row) = None
  /\ crid_value (nth 2 sample_rows_without_552 null_row) = None.
Proof.
  assert (materialize_sql sqrt_floor 2 sample_defs_without_552 sample_mds
                          sample_claims
          = Ok sample_rows_without_552) as E by (vm_compute; reflexivity).
  assert (In (nth 2 sample_rows_without_552 null_row)
             sample_rows_without_552) as H
      by (apply nth_In; vm_compute; lia).
  split; [exact H|].
  apply (proj2 (proj2 (proj2 (proj2
           (weight_set_not_validated sqrt_floor 2 sample_defs_without_552
                                     sample_mds sample_claims)))
           sample_rows_without_552 _ E H)).
  right. vm_compute. reflexivity.
Defined.

(** ** The flags array *)

Lemma flags_of_filter (x : WithCrid) :
  flags_of x
  = map snd (filter (fun cn => Sql.holds (fst cn)) (flag_conditions x)).
Proof.
  assert (forall l : list (Sql.tri * string),
             Sql.non_null (map (fun cn => flag_when (fst cn) (snd cn)) l)
             = map snd (filter (fun cn => Sql.holds (fst cn)) l)) as H.
  { induction l as [|[c n] l IH]; auto.
    cbn [map filter fst snd]. unfold flag_when at 1.
    destruct (Sql.holds c); cbn [Sql.non_null map snd]; now rewrite IH. }
  exact (H (flag_conditions x)).
Qed.

Lemma subsequence_filter {A B} (h : A -> B) (p : A -> bool) (l : list A) :
  subsequence (map h (filter p l)) (map h l).
Proof.
  induction l as [|a l IH]; simpl; [constructor|].
  destruct (p a); simpl; now constructor.
Qed.

Lemma subsequence_In {A} (s l : list A) x :
  subsequence s l -> In x s -> In x l.
Proof.
  induction 1; simpl; intros H'; auto.
  destruct H'; auto.
Qed.

Lemma subsequence_NoDup {A} (s l : list A) :
  subsequence s l -> NoDup l -> NoDup s.
Proof.
  induction 1; intros N; auto.
  - inversion N; auto.
  - inversion N as [|? ? Hn N']; subst. constructor; auto.
    intros Hin. apply Hn. eapply subsequence_In; eauto.
Qed.

Lemma flag_names_NoDup : NoDup flag_names.
Proof.
  unfold flag_names.
  repeat (constructor;
          [simpl; intros H;
           repeat (destruct H as [H|H]; [discriminate H|]); exact H|]).
  constructor.
Qed.

(** X1. The flags array of every row the final SELECT builds holds no
    flag twice and lists its flags in the order of the ARRAY constructor:
    it is a subsequence of the nine flag names. *)
Theorem flags_well_formed (x : WithCrid) :
  NoDup (flags (select_row x))
  /\ subsequence (flags (select_row x)) flag_names.
Proof.
  assert (subsequence (flags (select_row x)) flag_names) as S.
  { cbn [select_row flags]. rewrite flags_of_filter.
    change flag_names with (map snd (flag_conditions x)).
    apply subsequence_filter. }
  split; [|exact S].
  exact (subsequence_NoDup _ _ S flag_names_NoDup).
Qed.

Lemma flag_high_positive x :
  In "HIGH_POSITIVE_CRID"%string (flags_of x)
  <-> exists c, cr_crid_value x = Some c /\ (2 < c)%Q.
Proof.
  rewrite <- holds_gt. split; intros H.
  - pick_flag H. tauto.
  - apply flags_of_In. tauto.
Qed.

Lemma flag_high_negative x :
  In "HIGH_NEGATIVE_CRID"%string (flags_of x)
  <-> exists c, cr_crid_value x = Some c /\ (c < -2)%Q.
Proof.
  rewrite <- holds_lt. split; intros H.
  - pick_flag H. tauto.
  - apply flags_of_In. tauto.
Qed.

Lemma flag_mds_outlier x :
  In "MDS_OUTLIER"%string (flags_of x)
  <-> exists q u, z_mds_z_score (cr_z x) = Some q
                  /\ z_claims_z_score (cr_z x) = Some u
                  /\ (2 < Qabs q)%Q /\ (Qabs u < 1)%Q.
Proof.
  split; intros H.
  - pick_flag H. destruct H as [H _].
    apply holds_true, and3_true in H. destruct H as [H1 H2].
    apply holds_true, holds_gt, abs_some in H1.
    apply holds_true, holds_lt, abs_some_lt in H2.
    destruct H1 as [q [Eq Hq]], H2 as [u [Eu Hu]].
    now exists q, u.
  - destruct H as [q [u [Eq [Eu [Hq Hu]]]]].
    apply flags_of_In. do 7 right. left. split; auto.
    apply holds_true, and3_true. split; apply holds_true.
    + apply holds_gt, abs_some. now exists q.
    + apply holds_lt, abs_some_lt. now exists u.
Qed.

Lemma flag_claims_outlier x :
  In "CLAIMS_OUTLIER"%string (flags_of x)
  <-> exists q u, z_mds_z_score (cr_z x) = Some q
                  /\ z_claims_z_score (cr_z x) = Some u
                  /\ (2 < Qabs u)%Q /\ (Qabs q < 1)%Q.
Proof.
  split; intros H.
  - pick_flag H. destruct H as [H _].
    apply holds_true, and3_true in H. destruct H as [H1 H2].
    apply holds_true, holds_gt, abs_some in H1.
    apply holds_true, holds_lt, abs_some_lt in H2.
    destruct H1 as [u [Eu Hu]], H2 as [q [Eq Hq]].
    now exists q, u.
  - destruct H as [q [u [Eq [Eu [Hu Hq]]]]].
    apply flags_of_In. do 8 right. split; auto.
    apply holds_true, and3_true. split; apply holds_true.
    + apply holds_gt, abs_some. now exists u.
    + apply holds_lt, abs_some_lt. now exists q.
Qed.

Lemma flag_incomplete x :
  In "INCOMPLETE_MEASURES"%string (flags_of x)
  <-> wc_is_complete (z_f (cr_z x)) = false.
Proof.
  split; intros H.
  - pick_flag H. tauto.
  - apply flags_of_In. tauto.
Qed.

Lemma flag_small_state x :
  In "SMALL_STATE"%string (flags_of x)
  <-> z_is_small_state (cr_z x) = true.
Proof.
  split; intros H.
  - pick_flag H. tauto.
  - apply flags_of_In. tauto.
Qed.

(** X2. No row is flagged in both directions: HIGH_POSITIVE_CRID and
    HIGH_NEGATIVE_CRID never occur together, nor do MDS_OUTLIER and
    CLAIMS_OUTLIER; an outlier flag is raised only on a row whose two
    z-scores are both not NULL. *)
Theorem flag_exclusions (x : WithCrid) :
  let has flag := In flag (flags (select_row x)) in
  ~ (has "HIGH_POSITIVE_CRID"%string /\ has "HIGH_NEGATIVE_CRID"%string)
  /\ ~ (has "MDS_OUTLIER"%string /\ has "CLAIMS_OUTLIER"%string)
  /\ (has "MDS_OUTLIER"%string \/ has "CLAIMS_OUTLIER"%string ->
      z_mds_z_score (cr_z x) <> None /\ z_claims_z_score (cr_z x) <> None).
Proof.
  cbv zeta. cbn [select_row flags]. split; [|split].
  - intros [HP HN]. apply flag_high_positive in HP.
    apply flag_high_negative in HN.
    destruct HP as [c [Ec Hc]], HN as [c' [Ec' Hc']].
    rewrite Ec in Ec'. inversion Ec'; subst c'.
    apply (Qlt_irrefl c). apply Qlt_trans with (y := (-2)%Q); auto.
    apply Qlt_trans with (y := 2%Q); [reflexivity|exact Hc].
  - intros [HM HC]. apply flag_mds_outlier in HM.
    apply flag_claims_outlier in HC.
    destruct HM as [q [u [Eq [Eu [Hq Hu]]]]].
    destruct HC as [q' [u' [Eq' [Eu' [Hu' Hq']]]]].
    rewrite Eq in Eq'. inversion Eq'; subst q'.
    apply (Qlt_irrefl (Qabs q)). apply Qlt_trans with (y := 1%Q); auto.
    apply Qlt_trans with (y := 2%Q); [reflexivity|exact Hq].
  - intros [H|H].
    + apply flag_mds_outlier in H. destruct H as [q [u [-> [-> _]]]].
      split; discriminate.
    + apply flag_claims_outlier in H. destruct H as [q [u [-> [-> _]]]].
      split; discriminate.
Qed.

(** ** Rows without a score, and what the report says about them *)

Lemma z_value_off ic fc v m s :
  ic = false \/ (Sql.coalesce fc 0 <? 10) = true ->
  z_score_value ic fc v m s = None.
Proof.
  intros H. unfold z_score_value.
  destruct (Sql.holds _) eqn:G; auto.
  apply z_guard in G. destruct G as [-> [[n [-> Hn]] _]].
  destruct H as [H|H]; [discriminate|].
  simpl in H. apply Z.ltb_lt in H. lia.
Qed.

Lemma present_bit_range v s : 0 <= present_bit v s <= 1.
Proof. unfold present_bit. destruct (Sql.holds _); lia. Qed.

Lemma measures_present_range mc :
  0 <= af_measures_present (all_facilities_row mc) <= 6.
Proof.
  destruct mc as [m c]. unfold all_facilities_row.
  cbn [af_measures_present].
  pose proof (present_bit_range (mb_measure_410 m) (mb_sup_410 m)).
  pose proof (present_bit_range (mb_measure_453 m) (mb_sup_453 m)).
  pose proof (present_bit_range (mb_measure_407 m) (mb_sup_407 m)).
  pose proof (present_bit_range (mb_measure_409 m) (mb_sup_409 m)).
  pose proof (present_bit_range (c_measure_551 c)
                                (Some (Sql.coalesce (c_sup_551 c) 0))).
  pose proof (present_bit_range (c_measure_552 c)
                                (Some (Sql.coalesce (c_sup_552 c) 0))).
  lia.
Qed.

Lemma any_flag_In flag r : any_flag flag r = true <-> In flag (flags r).
Proof.
  unfold any_flag. rewrite existsb_exists. split.
  - intros [x [Hx E]]. apply String.eqb_eq in E. now subst.
  - intros H. exists flag. split; auto. apply String.eqb_refl.
Qed.

Section Unscored.

Variable numeric_sqrt : Q -> Q.

(** The gate of crid_value on a with_z_scores row. *)
Lemma z_row_gate defs mds claims f :
  let wc := with_composites defs mds claims in
  let co := cohort wc (wc_state f) (wc_extract_id f) in
  let z := with_z_scores_value
             f (find (on_state_extract f) (state_stats numeric_sqrt wc)) in
  In f wc ->
  (z_mds_z_score z <> None /\ z_claims_z_score z <> None)
  <-> (wc_is_complete f = true
       /\ 10 <= Z.of_nat (List.length co)
       /\ (exists s, z_state_mds_stddev z = Some s /\ (0 < s)%Q)
       /\ (exists s, z_state_claims_stddev z = Some s /\ (0 < s)%Q)).
Proof.
  intros wc co z Hf. subst z. rewrite with_z_scores_fields.
  cbn [z_mds_z_score z_claims_z_score z_state_mds_stddev
       z_state_claims_stddev].
  fold wc. fold co.
  rewrite (z_value_gate numeric_sqrt (wc_is_complete f) co
             (map wc_mds_composite co) (wc_mds_composite f)
             (cohort_composite_mds _ _ _ f Hf)).
  rewrite (z_value_gate numeric_sqrt (wc_is_complete f) co
             (map wc_claims_utilization co) (wc_claims_utilization f)
             (cohort_composite_claims _ _ _ f Hf)).
  tauto.
Qed.

Lemma bool_cases (b : bool) (P : Prop) :
  (b = true <-> P) -> (b = true /\ P) \/ (b = false /\ ~ P).
Proof.
  destruct b; intros H; [left|right]; split; auto.
  - now apply H.
  - intros p. apply H in p. discriminate.
Qed.

(** An output row with the with_composites row it stems from and its
    flags. *)
Lemma output_row_flags wp defs mds claims rows r :
  materialize_sql numeric_sqrt wp defs mds claims = Ok rows ->
  In r rows ->
  let wc := with_composites defs mds claims in
  exists f x,
    In f wc /\ r = select_row x
    /\ cr_z x = with_z_scores_value
                  f (find (on_state_extract f) (state_stats numeric_sqrt wc))
    /\ cr_crid_value x = z_diff (cr_z x)
    /\ (cr_crid_value x = None -> cr_crid_volatility x = None).
Proof.
  intros E Hr wc.
  destruct (output_row _ _ _ _ _ _ _ E Hr) as [f [frame [Hf [_ ->]]]].
  exists f. eexists. split; [exact Hf|]. split; [reflexivity|].
  cbn [with_crid_row cr_z cr_crid_value cr_crid_volatility].
  split; [reflexivity|]. split; [apply z_diff_both|].
  rewrite z_diff_both. unfold both_z, z_diff.
  destruct (z_mds_z_score _), (z_claims_z_score _); simpl;
    try discriminate; reflexivity.
Qed.

Lemma row_incomplete_flag wp defs mds claims rows r :
  materialize_sql numeric_sqrt wp defs mds claims = Ok rows ->
  In r rows ->
  In "INCOMPLETE_MEASURES"%string (flags r) <-> measures_present r <> 6.
Proof.
  intros E Hr.
  destruct (output_row_flags _ _ _ _ _ _ E Hr) as [f [x [Hf [-> [Ez _]]]]].
  assert (z_f (cr_z x) = f) as Ef by now rewrite Ez.
  cbn [select_row flags measures_present].
  rewrite flag_incomplete, Ef.
  rewrite <- (wc_complete_present _ _ _ _ Hf).
  destruct (wc_is_complete f); split; congruence.
Qed.

Lemma row_small_flag wp defs mds claims rows r :
  materialize_sql numeric_sqrt wp defs mds claims = Ok rows ->
  In r rows ->
  In "SMALL_STATE"%string (flags r)
  <-> Z.of_nat (List.length (cohort (with_composites defs mds claims)
                                    (state r) (extract_id r))) < 10.
Proof.
  intros E Hr.
  destruct (output_row_flags _ _ _ _ _ _ E Hr) as [f [x [Hf [-> [Ez _]]]]].
  assert (z_f (cr_z x) = f) as Ef by now rewrite Ez.
  cbn [select_row flags state extract_id].
  rewrite flag_small_state, Ef, Ez, with_z_scores_fields.
  cbn [z_is_small_state].
  apply small_state_cohort.
Qed.

(** The gate of crid_value, on the columns of an output row. *)
Lemma row_gate wp defs mds claims rows r :
  materialize_sql numeric_sqrt wp defs mds claims = Ok rows ->
  In r rows ->
  crid_value r <> None
  <-> (measures_present r = 6
       /\ 10 <= Z.of_nat (List.length
                            (cohort (with_composites defs mds claims)
                                    (state r) (extract_id r)))
       /\ (exists s, state_mds_stddev r = Some s /\ (0 < s)%Q)
       /\ (exists s, state_claims_stddev r = Some s /\ (0 < s)%Q)).
Proof.
  intros E Hr.
  destruct (output_row_flags _ _ _ _ _ _ E Hr)
    as [f [x [Hf [-> [Ez [Ev _]]]]]].
  cbn [select_row crid_value measures_present state extract_id
       state_mds_stddev state_claims_stddev].
  pose proof (z_row_gate defs mds claims f Hf) as G. cbv zeta in G.
  rewrite <- Ez in G. rewrite Ev.
  assert (z_f (cr_z x) = f) as -> by now rewrite Ez.
  rewrite <- (wc_complete_present _ _ _ _ Hf).
  fold (wc_state f) (wc_extract_id f).
  rewrite <- G. unfold z_diff.
  destruct (z_mds_z_score (cr_z x)), (z_claims_z_score (cr_z x)); simpl;
    (split; [intros H; split; intros C; congruence
            |intros [H1 H2] C; congruence]).
Qed.

(** A row without crid_value carries no flag that reads a score. *)
Lemma unscored_flags x flag :
  z_mds_z_score (cr_z x) = None \/ z_claims_z_score (cr_z x) = None ->
  cr_crid_value x = None -> cr_crid_volatility x = None ->
  In flag (flags_of x) ->
  flag = "INCOMPLETE_MEASURES"%string \/ flag = "SMALL_STATE"%string.
Proof.
  intros Hz Cv Cvol Hflag. apply flags_of_In in Hflag.
  rewrite Cv, Cvol in Hflag.
  destruct Hflag as [[_ H]|[[_ H]|H]]; auto.
  exfalso.
  do 5 (destruct H as [[H _]|H]; [discriminate H|]).
  destruct H as [[H _]|[H _]];
    apply holds_true, and3_true in H; destruct H as [H1 H2];
    destruct Hz as [Hz|Hz]; rewrite Hz in *; discriminate.
Qed.

(** X3. A row is flagged INCOMPLETE_MEASURES exactly when fewer than six
    measures are present, and then both composites are NULL; a row
    flagged INCOMPLETE_MEASURES or SMALL_STATE has no z-score, no
    crid_value and no crid_volatility, and carries none of the other
    seven flags. *)
Theorem unscored_rows wp defs mds claims rows r :
  materialize_sql numeric_sqrt wp defs mds claims = Ok rows ->
  In r rows ->
  let has flag := In flag (flags r) in
  (has "INCOMPLETE_MEASURES"%string <-> measures_present r <> 6)
  /\ (has "INCOMPLETE_MEASURES"%string ->
      mds_composite r = None /\ claims_utilization r = None)
  /\ (has "INCOMPLETE_MEASURES"%string \/ has "SMALL_STATE"%string ->
      mds_z_score r = None /\ claims_z_score r = None
      /\ crid_value r = None /\ crid_volatility r = None
      /\ forall flag, has flag ->
                      flag = "INCOMPLETE_MEASURES"%string
                      \/ flag = "SMALL_STATE"%string).
Proof.
  intros E Hr. cbv zeta.
  split; [exact (row_incomplete_flag _ _ _ _ _ _ E Hr)|].
  destruct (output_row_flags _ _ _ _ _ _ E Hr)
    as [f [x [Hf [-> [Ez [Ev Evol]]]]]].
  cbn [select_row flags mds_composite claims_utilization mds_z_score
       claims_z_score crid_value crid_volatility].
  rewrite flag_incomplete, flag_small_state.
  assert (z_f (cr_z x) = f) as Ef by now rewrite Ez.
  rewrite Ef.
  split.
  { intros Hc. apply with_composites_In in Hf. destruct Hf as [mc [_ Em]].
    rewrite Em in *. unfold wc_is_complete in Hc.
    cbn [with_composites_row wc_f wc_mds_composite wc_claims_utilization]
      in *.
    now rewrite Hc. }
  intros Hoff.
  assert (z_mds_z_score (cr_z x) = None
          /\ z_claims_z_score (cr_z x) = None) as [Zm Zc].
  { rewrite Ez in *. cbn [with_z_scores_value z_mds_z_score z_claims_z_score
                          z_is_small_state] in *.
    split; apply z_value_off; exact Hoff. }
  assert (cr_crid_value x = None) as Cv
      by (rewrite Ev; unfold z_diff; now rewrite Zm).
  repeat split; auto.
  intros flag Hflag.
  exact (unscored_flags x flag (or_introl Zm) Cv (Evol Cv) Hflag).
Qed.

(** The NULL-reason label of the validation report on a row of the
    SELECT. *)
Lemma null_reason_select wp defs mds claims rows r :
  materialize_sql numeric_sqrt wp defs mds claims = Ok rows ->
  In r rows ->
  let co := cohort (with_composites defs mds claims)
                   (state r) (extract_id r) in
  let small := Z.of_nat (List.length co) < 10 in
  (null_reason r = "Both: incomplete + small state"%string
   <-> measures_present r <> 6 /\ small)
  /\ (null_reason r = "Incomplete measures"%string
      <-> measures_present r <> 6 /\ ~ small)
  /\ (null_reason r = "Small state (<10 facilities)"%string
      <-> measures_present r = 6 /\ small)
  /\ (null_reason r = "Other/Unknown"%string
      <-> measures_present r = 6 /\ ~ small)
  /\ (null_reason r = "Other/Unknown"%string ->
      (crid_value r = None
       <-> ~ ((exists s, state_mds_stddev r = Some s /\ (0 < s)%Q)
              /\ (exists s, state_claims_stddev r = Some s /\ (0 < s)%Q)))).
Proof.
  intros E Hr co small.
  pose proof (row_incomplete_flag _ _ _ _ _ _ E Hr) as Hi.
  pose proof (row_small_flag _ _ _ _ _ _ E Hr) as Hs.
  pose proof (row_gate _ _ _ _ _ _ E Hr) as Hg.
  fold co in Hs, Hg. fold small in Hs.
  rewrite <- any_flag_In in Hi, Hs.
  apply bool_cases in Hi. apply bool_cases in Hs.
  unfold null_reason, small in *.
  destruct Hi as [[-> Hi]|[-> Hi]], Hs as [[-> Hs]|[-> Hs]];
    (repeat split; intros; try discriminate; try reflexivity; try lia).
  - intros [Hm Hc]. apply (proj2 Hg); [|assumption].
    repeat split; auto; lia.
  - destruct (crid_value r) as [q|]; [exfalso|reflexivity].
    match goal with H : ~ (_ /\ _) |- _ => apply H end.
    apply Hg. discriminate.
Qed.

(** X4. The NULL-reason label of the validation report, read off the
    stored record, follows the completeness of the row and the size of
    its cohort of complete facilities: "Both" when incomplete in a
    cohort under 10, "Incomplete measures" and "Small state" when only
    one holds, "Other/Unknown" when neither holds; a record labelled
    "Other/Unknown" whose crid_value is NULL has a stored cohort
    standard deviation that is NULL or not above zero. *)
Theorem null_reason_classification wp defs mds claims rows r r' :
  materialize_sql numeric_sqrt wp defs mds claims = Ok rows ->
  In r rows ->
  store_row r = Ok r' ->
  let co := cohort (with_composites defs mds claims)
                   (state r') (extract_id r') in
  let small := Z.of_nat (List.length co) < 10 in
  (null_reason r' = "Both: incomplete + small state"%string
   <-> measures_present r' <> 6 /\ small)
  /\ (null_reason r' = "Incomplete measures"%string
      <-> measures_present r' <> 6 /\ ~ small)
  /\ (null_reason r' = "Small state (<10 facilities)"%string
      <-> measures_present r' = 6 /\ small)
  /\ (null_reason r' = "Other/Unknown"%string
      <-> measures_present r' = 6 /\ ~ small)
  /\ (null_reason r' = "Other/Unknown"%string ->
      crid_value r' = None ->
      ~ ((exists s, state_mds_stddev r' = Some s /\ (0 < s)%Q)
         /\ (exists s, state_claims_stddev r' = Some s /\ (0 < s)%Q))).
Proof.
  intros E Hr S.
  pose proof (null_reason_select wp defs mds claims rows r E Hr) as C.
  cbv zeta in C. apply store_row_ok in S.
  destruct S
    as [[_ [Se [_ Ss]]] [[Sp [_ Sf]] [_ [[_ [_ [Sv _]]] [_ [Sms [_ Scs]]]]]]].
  assert (null_reason r' = null_reason r) as En
      by (unfold null_reason, any_flag; now rewrite Sf).
  cbv zeta. rewrite En, Sp, Se, Ss.
  destruct C as [C1 [C2 [C3 [C4 C5]]]].
  split; [exact C1|]. split; [exact C2|].
  split; [exact C3|]. split; [exact C4|].
  intros Ho Hn [[s1 [E1 P1]] [s2 [E2 P2]]].
  assert (crid_value r = None) as Hv.
  { rewrite Sv in Hn. destruct (crid_value r); [discriminate Hn|reflexivity]. }
  apply (proj1 (C5 Ho) Hv).
  rewrite Sms in E1. rewrite Scs in E2. split.
  - destruct (state_mds_stddev r) as [s|]; [|discriminate E1].
    cbn [option_map] in E1. inversion E1; subst s1.
    exists s. split; [reflexivity|].
    now apply (round_threshold s 0 6 round_0).
  - destruct (state_claims_stddev r) as [s|]; [|discriminate E2].
    cbn [option_map] in E2. inversion E2; subst s2.
    exists s. split; [reflexivity|].
    now apply (round_threshold s 0 6 round_0).
Qed.

End Unscored.

(** ** The output as a rearrangement of the facility-periods *)

Lemma filter_split_perm {A} (f : A -> bool) (l : list A) :
  Permutation (filter f l ++ filter (fun x => negb (f x)) l) l.
Proof.
  induction l as [|a l IH]; simpl; auto.
  destruct (f a); simpl.
  - now constructor.
  - apply Permutation_sym, Permutation_cons_app, Permutation_sym. exact IH.
Qed.

Lemma flat_map_ext_In {A B} (f g : A -> list B) (l : list A) :
  (forall a, In a l -> f a = g a) -> flat_map f l = flat_map g l.
Proof.
  induction l as [|a l IH]; simpl; intros H; auto.
  rewrite (H a), IH; auto.
Qed.

Lemma flat_map_perm {A B} (f g : A -> list B) (l : list A) :
  (forall a, In a l -> Permutation (f a) (g a)) ->
  Permutation (flat_map f l) (flat_map g l).
Proof.
  induction l as [|a l IH]; simpl; intros H; auto.
  apply Permutation_app; auto.
Qed.

Lemma map_flat_map {A B C} (h : B -> C) (f : A -> list B) (l : list A) :
  map h (flat_map f l) = flat_map (fun a => map h (f a)) l.
Proof.
  induction l as [|a l IH]; simpl; auto.
  now rewrite map_app, IH.
Qed.

Lemma flat_map_of_map {A B C} (f : B -> list C) (g : A -> B) (l : list A) :
  flat_map f (map g l) = flat_map (fun a => f (g a)) l.
Proof.
  induction l as [|a l IH]; simpl; auto.
  now rewrite IH.
Qed.

Section Partition.

Context {K A : Type} (eqb : K -> K -> bool) (key : A -> K).
Hypothesis eqb_eq : forall a b, eqb a b = true <-> a = b.

Lemma groups_perm ks : forall rows,
  NoDup ks -> (forall r, In r rows -> In (key r) ks) ->
  Permutation (flat_map (fun k => filter (fun r => eqb k (key r)) rows) ks)
              rows.
Proof.
  induction ks as [|k ks IH]; intros rows ND Hk.
  - destruct rows as [|r rows]; [constructor|].
    destruct (Hk r (or_introl eq_refl)).
  - inversion ND as [|? ? Hn ND']; subst. cbn [flat_map].
    set (rest := filter (fun r => negb (eqb k (key r))) rows).
    rewrite (flat_map_ext_In
               (fun k' => filter (fun r => eqb k' (key r)) rows)
               (fun k' => filter (fun r => eqb k' (key r)) rest)).
    + eapply Permutation_trans; [|apply (filter_split_perm
                                           (fun r => eqb k (key r)))].
      apply Permutation_app_head. apply IH; auto.
      intros r Hr. apply filter_In in Hr. destruct Hr as [Hr E].
      cbn beta in E.
      destruct (Hk r Hr) as [H|H]; auto.
      rewrite (proj2 (eqb_eq _ _) H) in E. discriminate E.
    + intros k' Hk'. unfold rest. rewrite filter_filter.
      apply filter_ext. intros r.
      destruct (eqb k' (key r)) eqn:E; [|now rewrite andb_false_r].
      rewrite andb_true_r. apply eqb_eq in E. subst k'.
      destruct (eqb k (key r)) eqn:E'; auto.
      apply eqb_eq in E'. subst k. contradiction.
Qed.

(** GROUP BY splits a relation: the groups together hold its rows. *)
Lemma group_by_perm rows :
  Permutation (flat_map snd (Sql.group_by eqb key rows)) rows.
Proof.
  unfold Sql.group_by. rewrite flat_map_of_map. cbn [snd].
  apply groups_perm.
  - now apply distinct_NoDup.
  - intros r Hr. apply (proj2 (distinct_In eqb eqb_eq _ _)).
    now apply in_map.
Qed.

End Partition.

Lemma NoDup_map_inj_on {A B} (f : A -> B) (l : list A) :
  NoDup l ->
  (NoDup (map f l)
   <-> forall x y, In x l -> In y l -> f x = f y -> x = y).
Proof.
  induction l as [|a l IH]; intros ND; simpl.
  - split; [intros _ x y []|constructor].
  - inversion ND as [|? ? Hn ND']; subst. split.
    + intros H. inversion H as [|? ? Hm NDm]; subst.
      intros x y [<-|Hx] [<-|Hy] E; auto.
      * exfalso. apply Hm. rewrite E. now apply in_map.
      * exfalso. apply Hm. rewrite <- E. now apply in_map.
      * apply (proj1 (IH ND') NDm); auto.
    + intros H. constructor.
      * rewrite in_map_iff. intros [x [E Hx]].
        apply Hn. rewrite <- (H x a); auto.
      * apply (IH ND'). intros x y Hx Hy. apply H; auto.
Qed.

Section Rows.

Variable numeric_sqrt : Q -> Q.

Lemma with_crid_perm wp zs :
  Permutation (map cr_z (with_crid numeric_sqrt wp zs)) zs.
Proof.
  unfold with_crid. rewrite map_flat_map.
  eapply Permutation_trans;
    [|apply (group_by_perm String.eqb z_ccn String.eqb_eq zs)].
  apply flat_map_perm. intros [k g] _. cbn [snd].
  rewrite map_map.
  rewrite (map_ext (fun rf => cr_z (with_crid_row numeric_sqrt rf)) fst)
    by (now intros [z frame]).
  rewrite rows_preceding_fst. apply order_by_perm.
Qed.

Lemma mds_base_facility_periods mds :
  map (fun m => (mb_ccn m, mb_extract_id m, mb_as_of_date m, mb_state m))
      (mds_base mds)
  = facility_periods mds.
Proof.
  unfold mds_base, facility_periods. rewrite map_map.
  rewrite <- (group_by_keys mds_key_eqb mds_key_of).
  apply map_ext. now intros [[[[c e] d] s] g].
Qed.

(** The grouping columns of the output rows, in the order of the
    pivoted relation. *)
Lemma output_keys_perm wp defs mds claims rows :
  materialize_sql numeric_sqrt wp defs mds claims = Ok rows ->
  Permutation (map output_key rows) (facility_periods mds).
Proof.
  rewrite materialize_sql_ok. intros E. inversion E; subst. clear E.
  rewrite map_map.
  rewrite <- (map_map cr_z (fun z => output_key
                                       (select_row {| cr_z := z;
                                                      cr_crid_value := None;
                                                      cr_crid_volatility := None |}))).
  eapply Permutation_trans;
    [apply Permutation_map, with_crid_perm|].
  unfold with_z_scores_rows, with_composites, all_facilities.
  fold (joined mds claims). rewrite joined_single.
  rewrite !map_map. rewrite <- mds_base_facility_periods.
  apply Permutation_refl.
Qed.

End Rows.

(** ** Runs and the facility-periods of the source *)

Lemma facility_periods_In mds k :
  In k (facility_periods mds)
  <-> exists m, In m mds /\ code_in mds_codes (m_measure_code m) = true
                /\ mds_key_of m = k.
Proof.
  unfold facility_periods.
  rewrite (distinct_In mds_key_eqb mds_key_eqb_eq), in_map_iff.
  split.
  - intros [m [E H]]. apply filter_In in H. exists m. tauto.
  - intros [m [H [C E]]]. exists m. split; auto. apply filter_In. auto.
Qed.

Lemma facility_periods_NoDup mds : NoDup (facility_periods mds).
Proof. apply (distinct_NoDup mds_key_eqb mds_key_eqb_eq). Qed.

(** The UNIQUE (ccn, extract_id) constraint holds on the facility-periods
    exactly when (ccn, extract_id) determines as_of_date and state. *)
Lemma facility_periods_unique mds :
  NoDup (map (fun k : mds_key => (fst (fst (fst k)), snd (fst (fst k))))
             (facility_periods mds))
  <-> period_determined mds.
Proof.
  rewrite (NoDup_map_inj_on _ _ (facility_periods_NoDup mds)).
  unfold period_determined. split.
  - intros H m1 m2 H1 H2 C1 C2 Ec Ee.
    assert (mds_key_of m1 = mds_key_of m2) as E.
    { apply H.
      - apply facility_periods_In. now exists m1.
      - apply facility_periods_In. now exists m2.
      - unfold mds_key_of. cbn [fst snd]. now rewrite Ec, Ee. }
    unfold mds_key_of in E. inversion E. auto.
  - intros H k1 k2 H1 H2 E.
    apply facility_periods_In in H1, H2.
    destruct H1 as [m1 [I1 [C1 <-]]], H2 as [m2 [I2 [C2 <-]]].
    unfold mds_key_of in *. cbn [fst snd] in E. inversion E as [[Ec Ee]].
    destruct (H m1 m2 I1 I2 C1 C2 Ec Ee) as [-> ->].
    now rewrite Ec, Ee.
Qed.

Lemma NoDup_app_common {A} (a b : list A) x :
  NoDup (a ++ b) -> In x a -> In x b -> False.
Proof.
  induction a as [|y a IH]; simpl; intros ND Ha Hb; auto.
  inversion ND as [|? ? Hn ND']; subst.
  destruct Ha as [->|Ha]; auto.
  apply Hn, in_or_app. now right.
Qed.

Section Reruns.

Variable numeric_sqrt : Q -> Q.

Lemma select_rows_unique wp defs mds claims :
  crid_monthly_unique
    (map select_row
         (with_crid numeric_sqrt wp
            (with_z_scores_rows numeric_sqrt
               (with_composites defs mds claims)))) = true
  <-> period_determined mds.
Proof.
  rewrite crid_monthly_unique_NoDup, <- facility_periods_unique.
  pose proof (output_keys_perm numeric_sqrt wp defs mds claims _
                (materialize_sql_ok numeric_sqrt wp defs mds claims)) as P.
  apply (Permutation_map
           (fun k : mds_key => (fst (fst (fst k)), snd (fst (fst k))))) in P.
  rewrite map_map in P.
  rewrite (map_ext _ crid_key) in P by reflexivity.
  split; intros H.
  - exact (Permutation_NoDup P H).
  - exact (Permutation_NoDup (Permutation_sym P) H).
Qed.

(** X5. A run of the transform that returns has one row for each
    facility-period of the MDS source: the (ccn, extract_id, as_of_date,
    state) of its rows are the distinct such keys of the MDS rows with
    a recognized code, each once, so the row count is their number. *)
Theorem output_facility_periods wp defs mds claims rows :
  materialize_sql numeric_sqrt wp defs mds claims = Ok rows ->
  Permutation (map output_key rows) (facility_periods mds)
  /\ NoDup (map output_key rows)
  /\ Sql.count_star rows = Z.of_nat (List.length (facility_periods mds)).
Proof.
  intros E.
  pose proof (output_keys_perm numeric_sqrt wp defs mds claims _ E) as P.
  split; [exact P|]. split.
  - exact (Permutation_NoDup (Permutation_sym P) (facility_periods_NoDup mds)).
  - unfold Sql.count_star. apply f_equal.
    rewrite <- (Permutation_length P). symmetry. apply length_map.
Qed.

(** X6. A rebuild that ends without error had (ccn, extract_id)
    determine as_of_date and state among the MDS rows with a recognized
    code; when they do not, the rebuild ends with an error and the table
    is left empty. *)
Theorem rebuild_needs_determined_periods args db :
  validate args = false -> dry_run args = false ->
  volatility_window args = 3 \/ volatility_window args = 4 ->
  (fst (main numeric_sqrt args db) = None ->
   period_determined (nh_quality_mds db))
  /\ (~ period_determined (nh_quality_mds db) ->
      fst (main numeric_sqrt args db) <> None
      /\ crid_monthly (snd (main numeric_sqrt args db)) = Some []).
Proof.
  intros Hv Hd HW. rewrite main_rebuild by assumption.
  rewrite <- (select_rows_unique (volatility_window args - 1)
                                 (nh_measure_definitions db)
                                 (nh_quality_mds db) (nh_quality_claims db)).
  destruct (crid_monthly_unique _); cbn [fst snd]; split.
  - reflexivity.
  - intros H. now destruct H.
  - discriminate 1.
  - intros _. split; [discriminate 1|reflexivity].
Qed.

Lemma set_crid_monthly_sources t db :
  nh_measure_definitions (set_crid_monthly t db) = nh_measure_definitions db
  /\ nh_quality_mds (set_crid_monthly t db) = nh_quality_mds db
  /\ nh_quality_claims (set_crid_monthly t db) = nh_quality_claims db.
Proof. repeat split. Qed.

(** The modes of [main]: only a rebuild leaves another database. *)
Lemma main_modes args db :
  (main numeric_sqrt args db = (Some UsageError, db)
   /\ volatility_window args <> 3 /\ volatility_window args <> 4)
  \/ (snd (main numeric_sqrt args db) = db
      /\ (volatility_window args = 3 \/ volatility_window args = 4)
      /\ (dry_run args = true \/ validate args = true))
  \/ ((volatility_window args = 3 \/ volatility_window args = 4)
      /\ dry_run args = false /\ validate args = false).
Proof.
  destruct (existsb (Z.eqb (volatility_window args)) [3; 4]) eqn:EW.
  - pose proof (proj1 (valid_window _) EW) as HW. right.
    destruct (dry_run args) eqn:Hd.
    { left. unfold main. rewrite EW, Hd. auto. }
    destruct (validate args) eqn:Hv.
    { left. unfold main, run_validation. rewrite EW, Hd, Hv.
      cbn [negb get_connection session].
      destruct (crid_monthly db); auto. }
    right. auto.
  - left. unfold main. rewrite EW. split; [reflexivity|].
    split; intros H; rewrite H in EW; discriminate EW.
Qed.

(** X8. [main] never writes to the source relations, and a rebuild does
    not read the output table: two databases that differ in
    metrics.crid_monthly only end with the same outcome and the same
    table. *)
Theorem rebuild_frame args db t :
  (nh_measure_definitions (snd (main numeric_sqrt args db))
   = nh_measure_definitions db
   /\ nh_quality_mds (snd (main numeric_sqrt args db)) = nh_quality_mds db
   /\ nh_quality_claims (snd (main numeric_sqrt args db))
      = nh_quality_claims db)
  /\ (validate args = false -> dry_run args = false ->
      volatility_window args = 3 \/ volatility_window args = 4 ->
      main numeric_sqrt args (set_crid_monthly t db)
      = main numeric_sqrt args db).
Proof.
  split.
  - destruct (main_modes args db) as [[E _]|[[E _]|[HW [Hd Hv]]]].
    + rewrite E. auto.
    + rewrite E. auto.
    + rewrite main_rebuild by assumption.
      destruct (crid_monthly_unique _); cbn [snd];
        apply set_crid_monthly_sources.
  - intros Hv Hd HW. rewrite !main_rebuild by assumption.
    cbn [set_crid_monthly nh_measure_definitions nh_quality_mds
         nh_quality_claims].
    reflexivity.
Qed.

(** X9. [materialize_crid] is no upsert: on a table that still holds a
    row of a (ccn, extract_id) of the MDS source the INSERT fails, and
    the database the connection leaves when it is closed is the one it
    would have left before the call. *)
Theorem materialize_crid_rerun conn W table r :
  W = 3 \/ W = 4 ->
  crid_monthly (session conn) = Some table ->
  In r table ->
  in_mds_source (nh_quality_mds (session conn)) (ccn r) (extract_id r) ->
  (exists e, fst (materialize_crid numeric_sqrt conn W) = Raise e)
  /\ close (snd (materialize_crid numeric_sqrt conn W)) = close conn.
Proof.
  intros HW Ht Hr Hs.
  assert (materialize_crid numeric_sqrt conn W
          = (Raise UniqueViolation, abort conn)) as ->.
  { unfold materialize_crid.
    rewrite (proj2 (valid_window _) HW). cbn [negb]. rewrite Ht.
    rewrite materialize_sql_ok. cbn [bind].
    destruct (source_output numeric_sqrt (W - 1)
                (nh_measure_definitions (session conn)) _
                (nh_quality_claims (session conn)) _ _ _
                (materialize_sql_ok _ _ _ _ _) Hs) as [r' [Hr' [Ec Ee]]].
    unfold insert_into.
    destruct (crid_monthly_unique _) eqn:U; [exfalso|reflexivity].
    apply crid_monthly_unique_NoDup in U. rewrite map_app in U.
    apply (NoDup_app_common _ _ (crid_key r) U).
    - now apply in_map.
    - replace (crid_key r) with (crid_key r')
        by (unfold crid_key; now rewrite Ec, Ee).
      now apply in_map. }
  split; [now exists UniqueViolation|reflexivity].
Qed.

End Reruns.

(** ** Completeness in the validation report *)

Lemma count_disjoint (pairs : list (option Q * bool)) :
  count_present pairs + count_suppressed pairs
  <= Z.of_nat (List.length pairs).
Proof.
  unfold count_present, count_suppressed.
  induction pairs as [|[v s] pairs IH]; [simpl; lia|].
  cbn [filter fst snd].
  destruct (Sql.is_not_null v), s; cbn [andb negb List.length]; lia.
Qed.

Section Completeness.

Variable numeric_sqrt : Q -> Q.

(** An output row with the pair of the LEFT JOIN it stems from. *)
Lemma output_row_joined wp defs mds claims rows r :
  materialize_sql numeric_sqrt wp defs mds claims = Ok rows ->
  In r rows ->
  exists m c,
    In (m, c) (joined mds claims)
    /\ output_key r
       = (mb_ccn m, mb_extract_id m, mb_as_of_date m, mb_state m)
    /\ measures_present r = af_measures_present (all_facilities_row (m, c))
    /\ measures_suppressed r
       = af_measures_suppressed (all_facilities_row (m, c))
    /\ completeness_pct r
       = completeness_pct_of
           (af_measures_present (all_facilities_row (m, c))).
Proof.
  intros E Hr.
  destruct (output_row _ _ _ _ _ _ _ E Hr) as [f [frame [Hf [_ ->]]]].
  apply with_composites_In in Hf. destruct Hf as [[m c] [Hj ->]].
  exists m, c. split; [exact Hj|]. repeat split.
Qed.

(** X10. The completeness bucket of the validation report reads
    measures_present: six measures give "100% (complete)", five give
    "83-99% (5 measures)", and every row with four or fewer gives
    "<67% (3 or fewer)"; no row gets "67-82% (4 measures)", since four
    of six measures round to 66.67. *)
Theorem completeness_buckets wp defs mds claims rows r :
  materialize_sql numeric_sqrt wp defs mds claims = Ok rows ->
  In r rows ->
  0 <= measures_present r <= 6
  /\ (completeness_bucket r = "100% (complete)"%string
      <-> measures_present r = 6)
  /\ (completeness_bucket r = "83-99% (5 measures)"%string
      <-> measures_present r = 5)
  /\ (completeness_bucket r = "<67% (3 or fewer)"%string
      <-> measures_present r <= 4)
  /\ completeness_bucket r <> "67-82% (4 measures)"%string.
Proof.
  intros E Hr.
  destruct (output_row_joined _ _ _ _ _ _ E Hr)
    as [m [c [_ [_ [Ep [_ Epct]]]]]].
  pose proof (measures_present_range (m, c)) as R.
  rewrite <- Ep in R, Epct. split; [exact R|].
  unfold completeness_bucket. rewrite Epct.
  assert (measures_present r = 0 \/ measures_present r = 1
          \/ measures_present r = 2 \/ measures_present r = 3
          \/ measures_present r = 4 \/ measures_present r = 5
          \/ measures_present r = 6) as C by lia.
  destruct C as [C|[C|[C|[C|[C|[C|C]]]]]]; rewrite C;
    match goal with
    | |- context [if ?a then ?x else ?y] =>
        let b := eval vm_compute in (if a then x else y) in
        change (if a then x else y) with b
    end;
    (repeat split; intros H; try discriminate H; try reflexivity;
     try lia).
Qed.

(** X11. measures_present and measures_suppressed count disjoint sets of
    the six measures: measures_suppressed is never NULL, neither count
    is negative, and together they are at most six; a row with a
    suppressed measure is not complete. *)
Theorem count_bounds wp defs mds claims rows r :
  materialize_sql numeric_sqrt wp defs mds claims = Ok rows ->
  In r rows ->
  exists s,
    measures_suppressed r = Some s
    /\ 0 <= measures_present r /\ 0 <= s
    /\ measures_present r + s <= 6
    /\ (0 < s -> In "INCOMPLETE_MEASURES"%string (flags r)).
Proof.
  intros E Hr.
  destruct (output_row_joined _ _ _ _ _ _ E Hr)
    as [m [c [Hj [_ [Ep [Es _]]]]]].
  rewrite (present_counts _ _ _ _ Hj) in Ep.
  rewrite (suppressed_counts _ _ _ _ Hj) in Es.
  pose proof (count_disjoint (measure_pairs m c)) as D.
  change (Z.of_nat (List.length (measure_pairs m c))) with 6 in D.
  exists (count_suppressed (measure_pairs m c)).
  rewrite Ep. split; [exact Es|].
  assert (0 <= count_present (measure_pairs m c)) as P
      by (unfold count_present; lia).
  assert (0 <= count_suppressed (measure_pairs m c)) as S
      by (unfold count_suppressed; lia).
  repeat split; auto.
  intros H. apply (row_incomplete_flag numeric_sqrt _ _ _ _ _ _ E Hr).
  rewrite Ep. lia.
Qed.

End Completeness.

(** ** The peer statistics of a row *)

Lemma filter_map_length {A B} (p : B -> bool) (h : A -> B) (l : list A) :
  List.length (filter p (map h l))
  = List.length (filter (fun a => p (h a)) l).
Proof.
  induction l as [|a l IH]; simpl; auto.
  destruct (p (h a)); simpl; now rewrite IH.
Qed.

Section Peers.

Variable numeric_sqrt : Q -> Q.

(** The statistics columns of an output row, over its cohort. *)
Lemma output_row_stats wp defs mds claims rows r :
  materialize_sql numeric_sqrt wp defs mds claims = Ok rows ->
  In r rows ->
  let co := cohort (with_composites defs mds claims)
                   (state r) (extract_id r) in
  state_facility_count r = facility_count_of co
  /\ state_mds_mean r = Sql.avg (map wc_mds_composite co)
  /\ state_mds_stddev r = stddev_pop numeric_sqrt (map wc_mds_composite co)
  /\ state_claims_mean r = Sql.avg (map wc_claims_utilization co)
  /\ state_claims_stddev r
     = stddev_pop numeric_sqrt (map wc_claims_utilization co).
Proof.
  intros E Hr.
  destruct (output_row_flags numeric_sqrt _ _ _ _ _ _ E Hr)
    as [f [x [Hf [-> [Ez _]]]]].
  assert (z_f (cr_z x) = f) as Ef by now rewrite Ez.
  cbn [select_row state extract_id state_facility_count state_mds_mean
       state_mds_stddev state_claims_mean state_claims_stddev].
  rewrite Ef, Ez, with_z_scores_fields.
  cbn [z_state_facility_count z_state_mds_mean z_state_mds_stddev
       z_state_claims_mean z_state_claims_stddev].
  repeat split.
Qed.

(** The complete rows of a (state, extract_id) in the output are as many
    as the cohort of the key. *)
Lemma peers_length wp defs mds claims rows st e :
  materialize_sql numeric_sqrt wp defs mds claims = Ok rows ->
  List.length
    (filter (fun x => (measures_present x =? 6)
                      && String.eqb st (state x)
                      && (e =? extract_id x)) rows)
  = List.length (cohort (with_composites defs mds claims) st e).
Proof.
  rewrite materialize_sql_ok. intros E. inversion E; subst. clear E.
  set (wc := with_composites defs mds claims).
  set (pz := fun z : WithZScores =>
               (af_measures_present (wc_f (z_f z)) =? 6)
               && String.eqb st (af_state (wc_f (z_f z)))
               && (e =? af_extract_id (wc_f (z_f z)))).
  rewrite filter_map_length.
  rewrite (filter_ext _ (fun x => pz (cr_z x))) by reflexivity.
  rewrite <- filter_map_length.
  rewrite (filter_length_perm pz _ _
             (with_crid_perm numeric_sqrt wp
                             (with_z_scores_rows numeric_sqrt wc))).
  unfold with_z_scores_rows. rewrite filter_map_length.
  unfold cohort. f_equal. apply filter_ext_in. intros f Hf.
  unfold pz. cbn [with_z_scores_value z_f].
  unfold wc_state, wc_extract_id. do 2 f_equal.
  pose proof (wc_complete_present _ _ _ _ Hf) as C.
  destruct (wc_is_complete f).
  - apply Z.eqb_eq. now apply C.
  - apply Z.eqb_neq. intros H. apply C in H. discriminate H.
Qed.

(** X12. An output row carries the statistics of its (state,
    extract_id): state_facility_count is the number of rows of that key
    with six measures present, NULL when there is none, and two rows of
    the same key carry the same count, means and standard deviations. *)
Theorem peer_statistics wp defs mds claims rows r :
  materialize_sql numeric_sqrt wp defs mds claims = Ok rows ->
  In r rows ->
  let peers := filter (fun x => (measures_present x =? 6)
                                && String.eqb (state r) (state x)
                                && (extract_id r =? extract_id x)) rows in
  state_facility_count r
  = match peers with [] => None | _ => Some (Sql.count_star peers) end
  /\ forall r',
      In r' rows -> state r' = state r -> extract_id r' = extract_id r ->
      state_facility_count r' = state_facility_count r
      /\ state_mds_mean r' = state_mds_mean r
      /\ state_mds_stddev r' = state_mds_stddev r
      /\ state_claims_mean r' = state_claims_mean r
      /\ state_claims_stddev r' = state_claims_stddev r.
Proof.
  intros E Hr peers.
  destruct (output_row_stats _ _ _ _ _ _ E Hr) as [Hc [Hm [Hs [Hcm Hcs]]]].
  split.
  - rewrite Hc.
    pose proof (peers_length wp defs mds claims rows (state r) (extract_id r) E)
      as L.
    fold peers in L. unfold facility_count_of, Sql.count_star.
    destruct peers, (cohort _ _ _); try discriminate L; auto.
    now rewrite L.
  - intros r' Hr' Es Ee.
    destruct (output_row_stats _ _ _ _ _ _ E Hr') as [Hc' [Hm' [Hs' [Hcm' Hcs']]]].
    rewrite Es, Ee in *.
    rewrite Hc, Hm, Hs, Hcm, Hcs, Hc', Hm', Hs', Hcm', Hcs'. repeat split.
Qed.

End Peers.

(** ** Suppressed observations *)

Lemma code_in_cases codes code :
  code_in codes code = true <-> In code codes.
Proof.
  unfold code_in. rewrite existsb_exists. split.
  - intros [x [Hx E]]. apply String.eqb_eq in E. now subst.
  - intros H. exists code. split; auto. apply String.eqb_refl.
Qed.

(** A suppressed observation of a code sets the suppression bit of the
    code in the pivot of its group. *)
Lemma mds_sup_set code g m :
  In m g -> m_measure_code m = code -> m_has_suppression m = Some true ->
  mds_sup code g = Some 1.
Proof.
  intros Hm Ec Hs. unfold mds_sup.
  rewrite (max_z_bits
             (fun m => Sql.holds
                         (Sql.and3 (Some (String.eqb (m_measure_code m) code))
                                   (m_has_suppression m)))).
  - replace (existsb _ g) with true; [reflexivity|].
    symmetry. apply existsb_exists. exists m. split; auto.
    now rewrite Ec, Hs, String.eqb_refl.
  - intros ->. destruct Hm.
Qed.

Lemma claims_sup_set code g x :
  In x g -> c_measure_code x = code -> c_has_suppression x = Some true ->
  claims_sup code g = Some 1.
Proof.
  intros Hx Ec Hs. unfold claims_sup.
  rewrite (max_z_bits
             (fun c => Sql.holds
                         (Sql.and3 (Some (String.eqb (c_measure_code c) code))
                                   (c_has_suppression c)))).
  - replace (existsb _ g) with true; [reflexivity|].
    symmetry. apply existsb_exists. exists x. split; auto.
    now rewrite Ec, Hs, String.eqb_refl.
  - intros ->. destruct Hx.
Qed.

Lemma present_bit_suppressed v : present_bit v (Some 1) = 0.
Proof. unfold present_bit, present_cond. now destruct v. Qed.

(** The pivot row of the group of an MDS observation. *)
Lemma mds_base_group mds b m :
  In b (mds_base mds) -> In m mds ->
  code_in mds_codes (m_measure_code m) = true ->
  (mb_ccn b, mb_extract_id b, mb_as_of_date b, mb_state b) = mds_key_of m ->
  exists g, In m g /\ b = mds_base_row (mds_key_of m, g).
Proof.
  unfold mds_base. rewrite in_map_iff.
  intros [[[[[c e] d] s] g] [<- H]] Hm Hc Ek.
  cbn [mds_base_row mb_ccn mb_extract_id mb_as_of_date mb_state] in Ek.
  apply (group_by_In _ mds_key_eqb_eq) in H. destruct H as [_ Hg].
  exists g. rewrite <- Ek. split; [|reflexivity].
  rewrite Hg. apply filter_In. split.
  - apply filter_In. auto.
  - apply mds_key_eqb_eq. exact Ek.
Qed.

(** The pivot row the LEFT JOIN pairs with the key of a claims
    observation. *)
Lemma claims_base_group mds claims m c x :
  In (m, c) (joined mds claims) -> In x claims ->
  code_in claims_codes (c_measure_code x) = true ->
  mb_ccn m = c_ccn x -> mb_extract_id m = c_extract_id x ->
  exists g, In x g /\ c = Some (claims_base_row (claims_key_of x, g)).
Proof.
  intros Hj Hx Hc Ec Ee.
  assert (In x (filter (fun c => code_in claims_codes (c_measure_code c))
                       claims)) as Hf by (apply filter_In; auto).
  pose proof (group_by_intro _ claims_key_eqb_eq claims_key_of _ x Hf) as Hg.
  apply (in_map claims_base_row) in Hg. fold (claims_base claims) in Hg.
  destruct c as [cb|].
  - destruct (proj2 (joined_In _ _ _ _ Hj) cb eq_refl) as [Hcb Hon].
    unfold claims_base in Hcb. apply in_map_iff in Hcb.
    destruct Hcb as [[[k e] g] [<- H]].
    apply (group_by_In _ claims_key_eqb_eq) in H. destruct H as [_ Eg].
    unfold on_ccn_extract in Hon.
    cbn [claims_base_row cb_ccn cb_extract_id] in Hon.
    apply andb_true_iff in Hon. destruct Hon as [H1 H2].
    apply String.eqb_eq in H1. apply Z.eqb_eq in H2.
    assert ((k, e) = claims_key_of x) as Ek
        by (unfold claims_key_of; congruence).
    exists g. rewrite <- Ek. split; [|reflexivity].
    rewrite Eg. apply filter_In. split; auto.
    apply claims_key_eqb_eq. exact Ek.
  - exfalso. rewrite joined_single in Hj. apply in_map_iff in Hj.
    destruct Hj as [m' [E _]]. inversion E as [[Em Hnone]]. subst m'.
    apply (find_none _ _ Hnone) in Hg.
    unfold on_ccn_extract in Hg.
    cbn [claims_base_row claims_key_of cb_ccn cb_extract_id] in Hg.
    rewrite Ec, Ee, String.eqb_refl, Z.eqb_refl in Hg. discriminate Hg.
Qed.

Section Suppression.

Variable numeric_sqrt : Q -> Q.

(** X13. A suppressed observation of one of the six measures takes its
    facility-period out of scoring, whatever values the group holds: the
    row has at most five measures present, counts at least one
    suppressed measure, is flagged INCOMPLETE_MEASURES and has no
    crid_value. *)
Theorem suppression_excludes wp defs mds claims rows r :
  materialize_sql numeric_sqrt wp defs mds claims = Ok rows ->
  In r rows ->
  (exists m, In m mds /\ code_in mds_codes (m_measure_code m) = true
             /\ m_has_suppression m = Some true
             /\ output_key r = mds_key_of m)
  \/ (exists x, In x claims
                /\ code_in claims_codes (c_measure_code x) = true
                /\ c_has_suppression x = Some true
                /\ ccn r = c_ccn x /\ extract_id r = c_extract_id x) ->
  measures_present r <= 5
  /\ (exists s, measures_suppressed r = Some s /\ 1 <= s)
  /\ In "INCOMPLETE_MEASURES"%string (flags r)
  /\ crid_value r = None.
Proof.
  intros E Hr Hsup.
  destruct (output_row_joined numeric_sqrt _ _ _ _ _ _ E Hr)
    as [b [c [Hj [Ek [Ep [Es _]]]]]].
  assert (af_measures_present (all_facilities_row (b, c)) <= 5
          /\ 1 <= count_suppressed (measure_pairs b c)) as [P S].
  { pose proof (present_bit_range (mb_measure_410 b) (mb_sup_410 b)).
    pose proof (present_bit_range (mb_measure_453 b) (mb_sup_453 b)).
    pose proof (present_bit_range (mb_measure_407 b) (mb_sup_407 b)).
    pose proof (present_bit_range (mb_measure_409 b) (mb_sup_409 b)).
    pose proof (present_bit_range (c_measure_551 c)
                                  (Some (Sql.coalesce (c_sup_551 c) 0))).
    pose proof (present_bit_range (c_measure_552 c)
                                  (Some (Sql.coalesce (c_sup_552 c) 0))).
    assert (forall l : list (option Q * bool),
               0 <= Z.of_nat (List.length (filter snd l))) as N by (intros; lia).
    destruct Hsup as [[m [Hm [Hc [Hs Em]]]]|[x [Hx [Hc [Hs [Ec Ee]]]]]].
    - rewrite Ek in Em.
      destruct (mds_base_group mds b m (proj1 (joined_In _ _ _ _ Hj))
                               Hm Hc Em) as [g [Hg Eb]].
      apply code_in_cases in Hc.
      unfold all_facilities_row, measure_pairs, count_suppressed.
      cbn [af_measures_present filter snd].
      destruct Hc as [Hc|[Hc|[Hc|[Hc|[]]]]]; symmetry in Hc;
        [ assert (mb_sup_410 b = Some 1) as B
        | assert (mb_sup_453 b = Some 1) as B
        | assert (mb_sup_407 b = Some 1) as B
        | assert (mb_sup_409 b = Some 1) as B ];
        try (rewrite Eb; unfold mds_key_of; cbn [mds_base_row mb_sup_410
               mb_sup_453 mb_sup_407 mb_sup_409];
             apply (mds_sup_set _ g m); assumption);
        rewrite B in *; rewrite present_bit_suppressed in *;
        cbn [suppressed Z.eqb Pos.eqb];
        (split; [lia|]);
        repeat match goal with
               | |- context [if ?b then _ else _] => destruct b
               end;
        cbn [List.length]; lia.
    - unfold output_key in Ek. inversion Ek as [[Kc Ke Kd Ks]].
      rewrite Kc in Ec. rewrite Ke in Ee.
      destruct (claims_base_group mds claims b c x Hj Hx Hc Ec Ee)
        as [g [Hg Eb]].
      apply code_in_cases in Hc.
      unfold all_facilities_row, measure_pairs, count_suppressed.
      cbn [af_measures_present filter snd].
      destruct Hc as [Hc|[Hc|[]]]; symmetry in Hc;
        [ assert (c_sup_551 c = Some 1) as B
        | assert (c_sup_552 c = Some 1) as B ];
        try (rewrite Eb; unfold claims_key_of;
             cbn [claims_base_row c_sup_551 c_sup_552 cb_sup_551 cb_sup_552];
             apply (claims_sup_set _ g x); assumption);
        rewrite B in *; cbn [Sql.coalesce] in *;
        rewrite present_bit_suppressed in *;
        cbn [suppressed Z.eqb Pos.eqb];
        (split; [lia|]);
        repeat match goal with
               | |- context [if ?b then _ else _] => destruct b
               end;
        cbn [List.length]; lia. }
  rewrite Ep, Es, (suppressed_counts _ _ _ _ Hj).
  split; [exact P|]. split; [eexists; split; [reflexivity|exact S]|].
  assert (measures_present r <> 6) as N by (rewrite Ep; lia).
  split.
  - now apply (row_incomplete_flag numeric_sqrt _ _ _ _ _ _ E Hr).
  - destruct (crid_value r) eqn:Ev; auto. exfalso. apply N.
    apply (row_gate numeric_sqrt _ _ _ _ _ _ E Hr). rewrite Ev. discriminate.
Qed.

End Suppression.

(** ** The pivots *)

Lemma is_largest_ext v l l' :
  (forall a, In (Some a) l <-> In (Some a) l') ->
  is_largest v l -> is_largest v l'.
Proof.
  intros H. unfold is_largest. destruct v as [w|].
  - intros [Hin Hle]. split; [now apply H|].
    intros a Ha. apply Hle. now apply H.
  - intros Hn a Ha. apply (Hn a). now apply H.
Qed.

(** The values a pivot column of mds_base ranges over. *)
Lemma mds_pivot_values mds k code a :
  code_in mds_codes code = true ->
  In (Some a)
     (map (fun m => if String.eqb (m_measure_code m) code
                    then m_four_quarter_avg m else None)
          (filter (fun m => mds_key_eqb k (mds_key_of m))
                  (filter (fun m => code_in mds_codes (m_measure_code m))
                          mds)))
  <-> In (Some a)
         (map m_four_quarter_avg
              (filter (fun m => mds_key_eqb k (mds_key_of m)
                                && String.eqb (m_measure_code m) code) mds)).
Proof.
  intros Hc. rewrite !in_map_iff. split.
  - intros [m [E H]]. apply filter_In in H. destruct H as [H Hk].
    apply filter_In in H. destruct H as [H _].
    destruct (String.eqb (m_measure_code m) code) eqn:Ec; [|discriminate].
    exists m. split; auto. apply filter_In. now rewrite Hk, Ec.
  - intros [m [E H]]. apply filter_In in H. destruct H as [H Hk].
    apply andb_true_iff in Hk. destruct Hk as [Hk Ec].
    exists m. rewrite Ec. split; auto.
    apply filter_In. split; auto. apply filter_In. split; auto.
    apply String.eqb_eq in Ec. now rewrite Ec.
Qed.

Lemma claims_pivot_values claims k code a :
  code_in claims_codes code = true ->
  In (Some a)
     (map (fun c => if String.eqb (c_measure_code c) code
                    then c_adjusted_score c else None)
          (filter (fun c => claims_key_eqb k (claims_key_of c))
                  (filter (fun c => code_in claims_codes (c_measure_code c))
                          claims)))
  <-> In (Some a)
         (map c_adjusted_score
              (filter (fun c => claims_key_eqb k (claims_key_of c)
                                && String.eqb (c_measure_code c) code)
                      claims)).
Proof.
  intros Hc. rewrite !in_map_iff. split.
  - intros [m [E H]]. apply filter_In in H. destruct H as [H Hk].
    apply filter_In in H. destruct H as [H _].
    destruct (String.eqb (c_measure_code m) code) eqn:Ec; [|discriminate].
    exists m. split; auto. apply filter_In. now rewrite Hk, Ec.
  - intros [m [E H]]. apply filter_In in H. destruct H as [H Hk].
    apply andb_true_iff in Hk. destruct Hk as [Hk Ec].
    exists m. rewrite Ec. split; auto.
    apply filter_In. split; auto. apply filter_In. split; auto.
    apply String.eqb_eq in Ec. now rewrite Ec.
Qed.

Section Pivots.

Variable numeric_sqrt : Q -> Q.

(** The measure columns of an output row. *)
Lemma output_row_measures wp defs mds claims rows r :
  materialize_sql numeric_sqrt wp defs mds claims = Ok rows ->
  In r rows ->
  exists b c,
    In (b, c) (joined mds claims)
    /\ output_key r
       = (mb_ccn b, mb_extract_id b, mb_as_of_date b, mb_state b)
    /\ measure_410_score r = mb_measure_410 b
    /\ measure_453_score r = mb_measure_453 b
    /\ measure_407_score r = mb_measure_407 b
    /\ measure_409_score r = mb_measure_409 b
    /\ measure_551_score r = c_measure_551 c
    /\ measure_552_score r = c_measure_552 c.
Proof.
  intros E Hr.
  destruct (output_row _ _ _ _ _ _ _ E Hr) as [f [frame [Hf [_ ->]]]].
  apply with_composites_In in Hf. destruct Hf as [[m c] [Hj ->]].
  exists m, c. split; [exact Hj|]. repeat split.
Qed.

Lemma max_q_largest l : is_largest (Sql.max_q l) l.
Proof. exact (max_q_spec l). Qed.

(** The claims side of a pair of the LEFT JOIN: the pivot of the group
    of the key, or NULL when the claims source has no recognized row of
    the key. *)
Lemma joined_claims_group mds claims b c :
  In (b, c) (joined mds claims) ->
  let k := (mb_ccn b, mb_extract_id b) in
  (c = None
   /\ forall x, In x claims ->
                code_in claims_codes (c_measure_code x) = true ->
                claims_key_of x <> k)
  \/ c = Some (claims_base_row
                 (k, filter (fun x => claims_key_eqb k (claims_key_of x))
                            (filter (fun x => code_in claims_codes
                                                      (c_measure_code x))
                                    claims))).
Proof.
  intros Hj k. destruct c as [cb|].
  - right. destruct (proj2 (joined_In _ _ _ _ Hj) cb eq_refl) as [Hcb Hon].
    unfold claims_base in Hcb. apply in_map_iff in Hcb.
    destruct Hcb as [[[kc e] g] [<- H]].
    apply (group_by_In _ claims_key_eqb_eq) in H. destruct H as [_ ->].
    unfold on_ccn_extract in Hon.
    cbn [claims_base_row cb_ccn cb_extract_id] in Hon.
    apply andb_true_iff in Hon. destruct Hon as [H1 H2].
    apply String.eqb_eq in H1. apply Z.eqb_eq in H2.
    subst k. now rewrite H1, H2.
  - left. split; auto. intros x Hx Hc Ek.
    unfold claims_key_of in Ek. inversion Ek as [[Ec Ee]].
    destruct (claims_base_group mds claims b None x Hj Hx Hc
                                (eq_sym Ec) (eq_sym Ee)) as [g [_ E]].
    discriminate E.
Qed.

Lemma claims_pivot_largest mds claims b c code :
  In (b, c) (joined mds claims) ->
  code_in claims_codes code = true ->
  is_largest
    (match c with
     | Some cb =>
         claims_measure
           code (filter (fun x => claims_key_eqb (mb_ccn b, mb_extract_id b)
                                                 (claims_key_of x))
                        (filter (fun x => code_in claims_codes
                                                  (c_measure_code x))
                                claims))
     | None => None
     end)
    (map c_adjusted_score
         (filter (fun x => claims_key_eqb (mb_ccn b, mb_extract_id b)
                                          (claims_key_of x)
                           && String.eqb (c_measure_code x) code) claims)).
Proof.
  intros Hj Hc.
  destruct (joined_claims_group _ _ _ _ Hj) as [[-> Hn]| ->].
  - intros a Ha. apply in_map_iff in Ha. destruct Ha as [x [_ Hx]].
    apply filter_In in Hx. destruct Hx as [Hx Hk].
    apply andb_true_iff in Hk. destruct Hk as [Hk Ec].
    apply claims_key_eqb_eq in Hk. apply String.eqb_eq in Ec.
    apply (Hn x Hx); [now rewrite Ec|now symmetry].
  - eapply is_largest_ext; [|apply max_q_largest].
    intros a. now apply claims_pivot_values.
Qed.

(** X14. Each measure column of an output row is the largest non-NULL
    value the source holds for the code at the facility-period of the
    row (the claims source is matched on ccn and extract_id), and NULL
    when the source has no such value. *)
Theorem measure_pivot wp defs mds claims rows r :
  materialize_sql numeric_sqrt wp defs mds claims = Ok rows ->
  In r rows ->
  is_largest (measure_410_score r) (mds_observations mds r "410")
  /\ is_largest (measure_453_score r) (mds_observations mds r "453")
  /\ is_largest (measure_407_score r) (mds_observations mds r "407")
  /\ is_largest (measure_409_score r) (mds_observations mds r "409")
  /\ is_largest (measure_551_score r) (claims_observations claims r "551")
  /\ is_largest (measure_552_score r) (claims_observations claims r "552").
Proof.
  intros E Hr.
  destruct (output_row_measures _ _ _ _ _ _ E Hr)
    as [b [c [Hj [Ek [E1 [E2 [E3 [E4 [E5 E6]]]]]]]]].
  unfold mds_observations, claims_observations.
  assert (ccn r = mb_ccn b /\ extract_id r = mb_extract_id b) as [Kc Ke]
      by (unfold output_key in Ek; inversion Ek; auto).
  rewrite Ek, Kc, Ke, E1, E2, E3, E4, E5, E6.
  pose proof (proj1 (joined_In _ _ _ _ Hj)) as Hb.
  assert (forall code, code_in mds_codes code = true ->
            is_largest
              (Sql.max_q
                 (map (fun m => if String.eqb (m_measure_code m) code
                                then m_four_quarter_avg m else None)
                      (filter (fun m =>
                                 mds_key_eqb (mb_ccn b, mb_extract_id b,
                                              mb_as_of_date b, mb_state b)
                                             (mds_key_of m))
                              (filter (fun m => code_in mds_codes
                                                        (m_measure_code m))
                                      mds))))
              (map m_four_quarter_avg
                   (filter (fun m =>
                              mds_key_eqb (mb_ccn b, mb_extract_id b,
                                           mb_as_of_date b, mb_state b)
                                          (mds_key_of m)
                              && String.eqb (m_measure_code m) code) mds)))
    as M.
  { intros code Hc. eapply is_largest_ext; [|apply max_q_largest].
    intros a. now apply mds_pivot_values. }
  assert (b = mds_base_row
                ((mb_ccn b, mb_extract_id b, mb_as_of_date b, mb_state b),
                 filter (fun m =>
                           mds_key_eqb (mb_ccn b, mb_extract_id b,
                                        mb_as_of_date b, mb_state b)
                                       (mds_key_of m))
                        (filter (fun m => code_in mds_codes
                                                  (m_measure_code m)) mds)))
    as Eb.
  { unfold mds_base in Hb. apply in_map_iff in Hb.
    destruct Hb as [[[[[kc e] d] s] g] [<- H]].
    apply (group_by_In _ mds_key_eqb_eq) in H. destruct H as [_ ->].
    reflexivity. }
  pose proof (claims_pivot_largest mds claims b c "551" Hj eq_refl) as C1.
  pose proof (claims_pivot_largest mds claims b c "552" Hj eq_refl) as C2.
  assert (c_measure_551 c
          = match c with
            | Some cb => cb_measure_551 cb
            | None => None
            end) as F1 by reflexivity.
  assert (c_measure_552 c
          = match c with
            | Some cb => cb_measure_552 cb
            | None => None
            end) as F2 by reflexivity.
  rewrite F1, F2.
  destruct (joined_claims_group _ _ _ _ Hj) as [[-> _]| ->];
    cbn [claims_base_row cb_measure_551 cb_measure_552] in *;
    (repeat split; try assumption;
     rewrite Eb at 1;
     cbn [mds_base_row mb_measure_410 mb_measure_453 mb_measure_407
          mb_measure_409];
     unfold mds_measure; apply M; reflexivity).
Qed.

End Pivots.

(** ** The rows the transform reads *)

Lemma filter_twice {A} (f : A -> bool) (l : list A) :
  filter f (filter f l) = filter f l.
Proof.
  rewrite filter_filter. apply filter_ext. intros a. now destruct (f a).
Qed.

Lemma non_null_map_filter {A B} (h : A -> option B) (g : A -> bool)
      (l : list A) :
  (forall a, g a = false -> h a = None) ->
  Sql.non_null (map h (filter g l)) = Sql.non_null (map h l).
Proof.
  intros H. induction l as [|a l IH]; simpl; auto.
  destruct (g a) eqn:E; simpl.
  - destruct (h a); now rewrite IH.
  - now rewrite (H a E).
Qed.

Lemma weight_of_definitions code defs :
  code_in (mds_codes ++ claims_codes) code = true ->
  weight_of code (measure_weights (filter weight_definition defs))
  = weight_of code (measure_weights defs).
Proof.
  intros Hc. unfold weight_of, measure_weights, Sql.max_q.
  replace (filter (fun d => Sql.holds (d_used_in_crid d))
                  (filter weight_definition defs))
    with (filter (fun d => code_in (mds_codes ++ claims_codes)
                                   (d_measure_code d))
                 (filter (fun d => Sql.holds (d_used_in_crid d)) defs)).
  - rewrite non_null_map_filter; auto.
    intros d Hd. destruct (String.eqb (d_measure_code d) code) eqn:E; auto.
    apply String.eqb_eq in E. rewrite E in Hd. congruence.
  - rewrite !filter_filter. apply filter_ext. intros d.
    unfold weight_definition.
    destruct (Sql.holds (d_used_in_crid d)),
             (code_in (mds_codes ++ claims_codes) (d_measure_code d));
      reflexivity.
Qed.

Section Inputs.

Variable numeric_sqrt : Q -> Q.

(** X15. The transform reads the rows of the six recognized codes and
    the definitions used in CRID of those codes, nothing else: MDS rows
    of other codes, claims rows of other codes and other definitions do
    not change the rows it returns. *)
Theorem unused_inputs_ignored wp defs mds claims :
  materialize_sql numeric_sqrt wp defs mds claims
  = materialize_sql
      numeric_sqrt wp
      (filter weight_definition defs)
      (filter (fun m => code_in mds_codes (m_measure_code m)) mds)
      (filter (fun c => code_in claims_codes (c_measure_code c)) claims).
Proof.
  unfold materialize_sql, with_composites, all_facilities.
  assert (weight_values (filter weight_definition defs) = weight_values defs)
    as ->.
  { unfold weight_values.
    rewrite !weight_of_definitions by reflexivity. reflexivity. }
  unfold mds_base, claims_base. now rewrite !filter_twice.
Qed.

End Inputs.

(** ** Scores are centred *)















Section Centred.

Variable numeric_sqrt : Q -> Q.







End Centred.

(** ** The properties on the sample relations *)

Lemma unscored_rows_witness :
  In sample_row_31 sample_rows
  /\ (In "INCOMPLETE_MEASURES"%string (flags sample_row_31)
      <-> measures_present sample_row_31 <> 6).
Proof.
  assert (In sample_row_31 sample_rows) as H
      by (apply nth_In; vm_compute; lia).
  split; [exact H|].
  exact (proj1 (unscored_rows sqrt_floor 2 sample_defs sample_mds
                              sample_claims sample_rows sample_row_31
                              sample_run H)).
Defined.

Lemma null_reason_classification_witness :
  In sample_row_31 sample_rows
  /\ store_row sample_row_31 = Ok (nth 30 sample_table null_row)
  /\ (null_reason (nth 30 sample_table null_row)
      = "Incomplete measures"%string
      <-> measures_present (nth 30 sample_table null_row) <> 6
          /\ ~ Z.of_nat
                 (List.length
                    (cohort (with_composites sample_defs sample_mds
                                             sample_claims)
                            (state (nth 30 sample_table null_row))
                            (extract_id (nth 30 sample_table null_row))))
               < 10).
Proof.
  assert (In sample_row_31 sample_rows) as H
      by (apply nth_In; vm_compute; lia).
  assert (store_row sample_row_31 = Ok (nth 30 sample_table null_row)) as S
      by (vm_compute; reflexivity).
  split; [exact H|]. split; [exact S|].
  exact (proj1 (proj2 (null_reason_classification
                         sqrt_floor 2 sample_defs sample_mds sample_claims
                         sample_rows sample_row_31 _ sample_run H S))).
Defined.

Lemma output_facility_periods_witness :
  Sql.count_star sample_rows
  = Z.of_nat (List.length (facility_periods sample_mds)).
Proof.
  exact (proj2 (proj2 (output_facility_periods
                         sqrt_floor 2 sample_defs sample_mds sample_claims
                         sample_rows sample_run))).
Defined.

Lemma rebuild_needs_determined_periods_witness :
  period_determined (nh_quality_mds sample_db).
Proof.
  apply (proj1 (rebuild_needs_determined_periods
                  sqrt_floor sample_args sample_db
                  eq_refl eq_refl (or_introl eq_refl))).
  vm_compute. reflexivity.
Defined.

Lemma materialize_crid_rerun_witness :
  (exists e, fst (materialize_crid sqrt_floor stale_connection 3) = Raise e)
  /\ close (snd (materialize_crid sqrt_floor stale_connection 3))
     = close stale_connection.
Proof.
  apply (materialize_crid_rerun sqrt_floor stale_connection 3
                                [sample_row_1] sample_row_1).
  - left. reflexivity.
  - reflexivity.
  - left. reflexivity.
  - exists (sample_mds_row "015001" 202401 "410" 21).
    split; [|repeat split].
    vm_compute. left. reflexivity.
Defined.

Lemma completeness_buckets_witness :
  In sample_row_31 sample_rows
  /\ (completeness_bucket sample_row_31 = "83-99% (5 measures)"%string
      <-> measures_present sample_row_31 = 5).
Proof.
  assert (In sample_row_31 sample_rows) as H
      by (apply nth_In; vm_compute; lia).
  split; [exact H|].
  exact (proj1 (proj2 (proj2 (completeness_buckets
                                sqrt_floor 2 sample_defs sample_mds
                                sample_claims sample_rows sample_row_31
                                sample_run H)))).
Defined.

Lemma count_bounds_witness :
  In sample_row_31 sample_rows
  /\ exists s,
      measures_suppressed sample_row_31 = Some s
      /\ 0 <= measures_present sample_row_31 /\ 0 <= s
      /\ measures_present sample_row_31 + s <= 6
      /\ (0 < s -> In "INCOMPLETE_MEASURES"%string (flags sample_row_31)).
Proof.
  assert (In sample_row_31 sample_rows) as H
      by (apply nth_In; vm_compute; lia).
  split; [exact H|].
  exact (count_bounds sqrt_floor 2 sample_defs sample_mds sample_claims
                      sample_rows sample_row_31 sample_run H).
Defined.

Lemma peer_statistics_witness :
  In sample_row_1 sample_rows
  /\ forall r',
      In r' sample_rows ->
      state r' = state sample_row_1 ->
      extract_id r' = extract_id sample_row_1 ->
      state_facility_count r' = state_facility_count sample_row_1.
Proof.
  assert (In sample_row_1 sample_rows) as H
      by (apply nth_In; vm_compute; lia).
  split; [exact H|].
  intros r' Hr' Es Ee.
  exact (proj1 (proj2 (peer_statistics sqrt_floor 2 sample_defs sample_mds
                                       sample_claims sample_rows sample_row_1
                                       sample_run H)
                      r' Hr' Es Ee)).
Defined.

Lemma suppression_excludes_witness :
  measures_present (nth 0 suppressed_rows null_row) <= 5
  /\ (exists s, measures_suppressed (nth 0 suppressed_rows null_row) = Some s
                /\ 1 <= s)
  /\ In "INCOMPLETE_MEASURES"%string (flags (nth 0 suppressed_rows null_row))
  /\ crid_value (nth 0 suppressed_rows null_row) = None.
Proof.
  apply (suppression_excludes sqrt_floor 2 sample_defs
                              [suppressed_observation] [] suppressed_rows).
  - vm_compute. reflexivity.
  - left. reflexivity.
  - left. exists suppressed_observation.
    split; [left; reflexivity|]. repeat split.
Defined.

Lemma measure_pivot_witness :
  In sample_row_1 sample_rows
  /\ is_largest (measure_410_score sample_row_1)
                (mds_observations sample_mds sample_row_1 "410").
Proof.
  assert (In sample_row_1 sample_rows) as H
      by (apply nth_In; vm_compute; lia).
  split; [exact H|].
  exact (proj1 (measure_pivot sqrt_floor 2 sample_defs sample_mds
                              sample_claims sample_rows sample_row_1
                              sample_run H)).
Defined.



(** * The ingest helpers *)

Import Ingest.

Lemma space_not_alnum c : is_space c = true -> is_alnum c = false.
Proof.
  destruct c as [[] [] [] [] [] [] [] []]; intros H;
    first [reflexivity | discriminate H].
Qed.

Lemma filter_lstrip s :
  filter_chars is_alnum (lstrip s) = filter_chars is_alnum s.
Proof.
  induction s as [|c t IH]; cbn [lstrip]; auto.
  destruct (is_space c) eqn:E; [|reflexivity].
  cbn [filter_chars]. now rewrite (space_not_alnum c E).
Qed.

Lemma filter_rstrip s :
  filter_chars is_alnum (rstrip s) = filter_chars is_alnum s.
Proof.
  induction s as [|c t IH]; cbn [rstrip]; auto.
  destruct (rstrip t) as [|c' t'] eqn:R.
  - cbn [filter_chars] in *. rewrite <- IH.
    destruct (is_space c) eqn:E.
    + now rewrite (space_not_alnum c E).
    + reflexivity.
  - cbn [filter_chars] in *. now rewrite IH.
Qed.

Lemma filter_strip s :
  filter_chars is_alnum (strip s) = filter_chars is_alnum s.
Proof. unfold strip. now rewrite filter_rstrip, filter_lstrip. Qed.

Lemma str_all_filter p s : all_chars p (filter_chars p s) = true.
Proof.
  induction s as [|c t IH]; simpl; auto.
  destruct (p c) eqn:E; simpl; auto. now rewrite E.
Qed.

Lemma filter_all_chars p s : all_chars p s = true -> filter_chars p s = s.
Proof.
  induction s as [|c t IH]; simpl; auto.
  intros H. apply andb_true_iff in H. destruct H as [-> H].
  now rewrite IH.
Qed.

Lemma all_chars_app p a b :
  all_chars p (a ++ b) = all_chars p a && all_chars p b.
Proof.
  induction a as [|c t IH]; simpl; auto. now rewrite IH, andb_assoc.
Qed.

Lemma str_length_app a b :
  String.length (a ++ b) = (String.length a + String.length b)%nat.
Proof. induction a as [|c t IH]; simpl; auto. Qed.

Lemma zeros_length n : String.length (zeros n) = n.
Proof. induction n; simpl; auto. Qed.

Lemma zeros_alnum n : all_chars is_alnum (zeros n) = true.
Proof. induction n; simpl; auto. Qed.

Lemma prefix_length n s :
  String.length (substring 0 n s) = Nat.min n (String.length s).
Proof.
  revert s. induction n as [|n IH]; intros [|c t]; simpl; auto.
Qed.

Lemma prefix_all p n s :
  all_chars p s = true -> all_chars p (substring 0 n s) = true.
Proof.
  revert s. induction n as [|n IH]; intros [|c t]; simpl; auto.
  intros H. apply andb_true_iff in H. destruct H as [-> H]. now apply IH.
Qed.

Lemma prefix_whole n s : String.length s = n -> substring 0 n s = s.
Proof.
  revert s. induction n as [|n IH]; intros [|c t]; simpl; auto;
    try discriminate.
  intros H. f_equal. apply IH. now inversion H.
Qed.

Lemma append_empty_right s : (s ++ "")%string = s.
Proof. induction s as [|c t IH]; simpl; auto. now rewrite IH. Qed.

(** zfill on alphanumerics: no sign, the zeros go in front. *)
Lemma zfill_alnum w s :
  all_chars is_alnum s = true ->
  zfill w s = (zeros (w - String.length s) ++ s)%string.
Proof.
  intros H. unfold zfill.
  destruct (Nat.leb w (String.length s)) eqn:E.
  - apply Nat.leb_le in E.
    replace (w - String.length s)%nat with 0%nat by lia. reflexivity.
  - destruct s as [|c t]; [now rewrite append_empty_right|].
    cbn [all_chars] in H. apply andb_true_iff in H. destruct H as [Hc _].
    destruct (Ascii.eqb c "+" || Ascii.eqb c "-") eqn:S; [|reflexivity].
    exfalso. apply orb_true_iff in S.
    destruct S as [S|S]; apply Ascii.eqb_eq in S; subst c; discriminate Hc.
Qed.

(** The value standardize_ccn returns for a str. *)
Lemma standardize_ccn_value v :
  let kept := filter_chars is_alnum v in
  standardize_ccn (Some v)
  = Some (substring 0 6 (zeros (6 - String.length kept) ++ kept)).
Proof.
  intros kept. unfold standardize_ccn. rewrite filter_strip. fold kept.
  assert (all_chars is_alnum kept = true) as A by apply str_all_filter.
  destruct (Nat.ltb (String.length kept) 6) eqn:E.
  - rewrite (zfill_alnum 6 kept A).
    apply Nat.ltb_lt in E.
    destruct (zeros (6 - String.length kept) ++ kept)%string eqn:Z;
      [|reflexivity].
    exfalso. apply (f_equal String.length) in Z.
    rewrite str_length_app, zeros_length in Z.
    cbn [String.length] in Z. lia.
  - apply Nat.ltb_ge in E.
    replace (6 - String.length kept)%nat with 0%nat by lia.
    cbn [zeros append].
    destruct kept; [simpl in E; lia|reflexivity].
Qed.

Lemma standardize_ccn_shape v :
  exists c,
    standardize_ccn (Some v) = Some c
    /\ String.length c = 6%nat
    /\ all_chars is_alnum c = true.
Proof.
  eexists. split; [apply standardize_ccn_value|]. cbv zeta.
  set (kept := filter_chars is_alnum v). split.
  - rewrite prefix_length, str_length_app, zeros_length. lia.
  - apply prefix_all. rewrite all_chars_app, zeros_alnum.
    apply str_all_filter.
Qed.

(** X17. standardize_ccn returns None for NA only; for a str it returns
    six alphanumeric characters, which it leaves unchanged when they are
    standardized again; the strings it leaves unchanged are the strings
    of six alphanumeric characters. *)
Theorem standardize_ccn_six :
  standardize_ccn None = None
  /\ (forall v, exists c,
         standardize_ccn (Some v) = Some c
         /\ String.length c = 6%nat
         /\ all_chars is_alnum c = true
         /\ standardize_ccn (Some c) = Some c)
  /\ (forall v, standardize_ccn (Some v) = Some v
                <-> String.length v = 6%nat /\ all_chars is_alnum v = true).
Proof.
  assert (forall v, String.length v = 6%nat -> all_chars is_alnum v = true ->
                    standardize_ccn (Some v) = Some v) as Fix.
  { intros v L A. rewrite standardize_ccn_value. cbv zeta.
    rewrite (filter_all_chars _ _ A), L. cbn [Nat.sub zeros append].
    now rewrite prefix_whole. }
  split; [reflexivity|]. split.
  - intros v. destruct (standardize_ccn_shape v) as [c [E [L A]]].
    exists c. repeat split; auto.
  - intros v. split.
    + intros E. destruct (standardize_ccn_shape v) as [c [E' [L A]]].
      rewrite E in E'. inversion E'; subst. auto.
    + intros [L A]. now apply Fix.
Qed.

(** X18. The state code read off a standardized CCN is its first two
    characters: get_state_from_ccn never returns None on the result of
    standardize_ccn. *)
Theorem state_of_standardized_ccn v :
  exists c st,
    standardize_ccn (Some v) = Some c
    /\ get_state_from_ccn c = Some st
    /\ String.length st = 2%nat
    /\ (st ++ substring 2 4 c)%string = c.
Proof.
  destruct (standardize_ccn_shape v) as [c [E [L _]]].
  exists c.
  destruct c as [|c1 [|c2 [|c3 [|c4 [|c5 [|c6 [|c7 t]]]]]]];
    try discriminate L.
  exists (String c1 (String c2 EmptyString)). repeat split; auto.
Qed.


(** ** parse_filename_date *)

Lemma digit_value_range c : is_digit c = true -> 0 <= digit_value c <= 9.
Proof.
  unfold is_digit, in_range, digit_value. intros H.
  apply andb_true_iff in H. destruct H as [H1 H2].
  apply Nat.leb_le in H1, H2. lia.
Qed.

Lemma digit_value_zero c : is_digit c = true -> digit_value c = 0 -> c = "0"%char.
Proof.
  unfold is_digit, in_range, digit_value, code. intros H Z.
  apply andb_true_iff in H. destruct H as [H1 H2].
  apply Nat.leb_le in H1, H2.
  assert (nat_of_ascii c = 48%nat) as E by lia.
  rewrite <- (ascii_nat_embedding c), E. reflexivity.
Qed.

Lemma int_from_app acc a b :
  int_from acc (a ++ b) = int_from (int_from acc a) b.
Proof.
  revert acc. induction a as [|c t IH]; intros acc; simpl; auto.
Qed.

(** A match of the pattern: a month name and four digits. *)
Lemma match_here_groups s name yr :
  match_here s = Some (name, yr) ->
  In name month_names
  /\ exists c1 c2 c3 c4,
      yr = String c1 (String c2 (String c3 (String c4 EmptyString)))
      /\ is_digit c1 = true /\ is_digit c2 = true
      /\ is_digit c3 = true /\ is_digit c4 = true.
Proof.
  unfold match_here.
  destruct (existsb _ _ && _ && _) eqn:E; [|discriminate].
  intros H. inversion H; subst. clear H.
  apply andb_true_iff in E. destruct E as [E D].
  apply andb_true_iff in E. destruct E as [M L].
  apply Nat.eqb_eq in L. split.
  - apply existsb_exists in M. destruct M as [x [Hx Ex]].
    apply String.eqb_eq in Ex. now subst.
  - destruct (substring 3 4 s) as [|c1 [|c2 [|c3 [|c4 [|c5 t]]]]];
      try discriminate L.
    exists c1, c2, c3, c4. cbn [all_chars] in D.
    repeat (apply andb_true_iff in D; destruct D as [? D]).
    repeat split; assumption.
Qed.

Lemma re_search_groups s name yr :
  re_search s = Some (name, yr) ->
  exists t, match_here t = Some (name, yr).
Proof.
  induction s as [|c t IH]; cbn [re_search].
  - destruct (match_here "") as [g|] eqn:E; [|discriminate].
    intros H. inversion H; subst. now exists ""%string.
  - destruct (match_here (String c t)) as [g|] eqn:E.
    + intros H. inversion H; subst. now exists (String c t).
    + exact IH.
Qed.

(** ** The places where the pattern occurs *)

Lemma month_names_length name :
  In name month_names -> String.length name = 3%nat.
Proof.
  intros H. cbn [month_names In] in H.
  repeat (destruct H as [<-|H]; [reflexivity|]). destruct H.
Qed.

Lemma append_inj a : forall a' b b',
  String.length a = String.length a' ->
  (a ++ b)%string = (a' ++ b')%string -> a = a' /\ b = b'.
Proof.
  induction a as [|c a IH]; intros [|c' a'] b b' L E;
    cbn [String.length] in L; try discriminate L.
  - now split.
  - cbn [String.append] in E. inversion E; subst.
    destruct (IH a' b b') as [-> ->]; auto.
Qed.

Lemma match_here_occurs s name yr :
  match_here s = Some (name, yr) <-> occurs_at s "" name yr.
Proof.
  split.
  - intros M.
    destruct (match_here_groups _ _ _ M)
      as [Hn [c1 [c2 [c3 [c4 [Ey [D1 [D2 [D3 D4]]]]]]]]].
    unfold match_here in M.
    destruct (existsb _ _ && _ && _); [|discriminate M].
    inversion M as [[En Eyr]]. clear M.
    rewrite <- En in Hn. rewrite Ey in Eyr. rewrite Eyr. clear En Ey.
    destruct s as [|a1 [|a2 [|a3 [|a4 [|a5 [|a6 [|a7 post]]]]]]];
      cbn [substring] in Eyr; try discriminate Eyr.
    injection Eyr as E1 E2 E3 E4 _. subst a4 a5 a6 a7.
    cbn [substring] in Hn |- *.
    exists post.
    split; [reflexivity|]. split; [exact Hn|]. split; [reflexivity|].
    cbn [all_chars]. now rewrite D1, D2, D3, D4.
  - intros [post [E [Hn [L D]]]]. cbn [String.append] in E. subst s.
    destruct yr as [|c1 [|c2 [|c3 [|c4 [|c5 t]]]]]; try discriminate L.
    unfold match_here.
    cbn [month_names In] in Hn.
    repeat (destruct Hn as [<-|Hn];
            [cbn [String.append substring];
             destruct post; cbn [substring]; cbn [String.length Nat.eqb];
             rewrite D; reflexivity|]).
    destruct Hn.
Qed.

Lemma occurs_at_cons c t c' pre name yr :
  occurs_at (String c t) (String c' pre) name yr
  <-> c = c' /\ occurs_at t pre name yr.
Proof.
  unfold occurs_at. cbn [String.append]. split.
  - intros [post [E H]]. inversion E; subst. split; [reflexivity|].
    now exists post.
  - intros [-> [post [-> H]]]. now exists post.
Qed.

Lemma occurs_at_empty pre name yr : ~ occurs_at "" pre name yr.
Proof.
  intros [post [E [Hn _]]]. apply month_names_length in Hn.
  destruct pre; [|discriminate E].
  destruct name; [discriminate Hn|discriminate E].
Qed.

(** re.search finds nothing exactly when the pattern occurs nowhere. *)
Lemma re_search_none s :
  re_search s = None <-> forall pre name yr, ~ occurs_at s pre name yr.
Proof.
  induction s as [|c t IH].
  - split; [intros _ pre name yr; apply occurs_at_empty|reflexivity].
  - cbn [re_search].
    destruct (match_here (String c t)) as [[n y]|] eqn:M.
    + split; [discriminate 1|]. intros H. exfalso.
      apply (H ""%string n y). now apply match_here_occurs.
    + rewrite IH. split.
      * intros H [|c' pre] name yr O.
        -- apply match_here_occurs in O. congruence.
        -- apply occurs_at_cons in O. destruct O as [_ O].
           exact (H _ _ _ O).
      * intros H pre name yr O. apply (H (String c pre) name yr).
        now apply occurs_at_cons.
Qed.

(** What re.search finds is the leftmost occurrence. *)
Lemma re_search_leftmost s name yr :
  re_search s = Some (name, yr) -> exists pre, leftmost s pre name yr.
Proof.
  induction s as [|c t IH]; [discriminate 1|].
  cbn [re_search].
  destruct (match_here (String c t)) as [[n y]|] eqn:M.
  - intros H. inversion H; subst. exists ""%string. split.
    + now apply match_here_occurs.
    + intros. cbn [String.length]. lia.
  - intros H. destruct (IH H) as [pre [O L]].
    exists (String c pre). split.
    + now apply occurs_at_cons.
    + intros [|c' pre'] name' yr' O'.
      * apply match_here_occurs in O'. congruence.
      * apply occurs_at_cons in O'. destruct O' as [_ O'].
        cbn [String.length]. apply le_n_S. exact (L _ _ _ O').
Qed.

(** The leftmost occurrence is the one re.search finds. *)
Lemma leftmost_re_search s pre name yr :
  leftmost s pre name yr -> re_search s = Some (name, yr).
Proof.
  intros [O L].
  destruct (re_search s) as [[n y]|] eqn:S.
  - destruct (re_search_leftmost _ _ _ S) as [pre0 [O0 L0]].
    assert (String.length pre = String.length pre0) as El.
    { apply Nat.le_antisymm; [exact (L _ _ _ O0)|exact (L0 _ _ _ O)]. }
    destruct O as [post [E [Hn [Ly _]]]].
    destruct O0 as [post0 [E0 [Hn0 [Ly0 _]]]].
    rewrite E in E0.
    destruct (append_inj _ _ _ _ El E0) as [_ E1].
    apply month_names_length in Hn, Hn0.
    destruct (append_inj _ _ _ _ (eq_trans Hn (eq_sym Hn0)) E1) as [-> E2].
    destruct (append_inj _ _ _ _ (eq_trans Ly (eq_sym Ly0)) E2) as [-> _].
    reflexivity.
  - exfalso. exact (proj1 (re_search_none s) S _ _ _ O).
Qed.

(** The month number of a name of the pattern. *)
Lemma month_map_names name :
  In name month_names ->
  exists mm,
    month_map name = Returns mm
    /\ String.length mm = 2%nat /\ all_chars is_digit mm = true
    /\ 1 <= int mm <= 12
    /\ forall acc, int_from acc mm = acc * 100 + int mm.
Proof.
  intros H. cbn [month_names In] in H.
  repeat (destruct H as [<-|H];
          [eexists; split; [reflexivity|];
           split; [reflexivity|]; split; [reflexivity|];
           split; [split; vm_compute; discriminate|];
           intros acc; unfold int; cbn [snd int_from]; lia|]).
  destruct H.
Qed.

(** What parse_filename_date returns and when it raises. *)
Lemma parse_filename_date_cases filename :
  match parse_filename_date filename with
  | Returns (extract_id, as_of_date) =>
      String.length extract_id = 6%nat
      /\ all_chars is_digit extract_id = true
      /\ 1 <= year as_of_date <= 9999
      /\ 1 <= month as_of_date <= 12
      /\ day as_of_date = 1
      /\ int extract_id = year as_of_date * 100 + month as_of_date
  | Raises e =>
      e = ValueError
      /\ (re_search filename = None
          \/ exists name, re_search filename = Some (name, "0000"%string))
  end.
Proof.
  unfold parse_filename_date.
  destruct (re_search filename) as [[name yr]|] eqn:S; [|auto].
  destruct (re_search_groups _ _ _ S) as [t M].
  apply match_here_groups in M.
  destruct M as [Hn [c1 [c2 [c3 [c4 [-> [D1 [D2 [D3 D4]]]]]]]]].
  destruct (month_map_names name Hn) as [mm [-> [L [A [R I]]]]].
  pose proof (digit_value_range _ D1) as R1.
  pose proof (digit_value_range _ D2) as R2.
  pose proof (digit_value_range _ D3) as R3.
  pose proof (digit_value_range _ D4) as R4.
  set (yr := String c1 (String c2 (String c3 (String c4 "")))) in *.
  assert (int yr = ((digit_value c1 * 10 + digit_value c2) * 10
                    + digit_value c3) * 10 + digit_value c4) as Ey
      by reflexivity.
  unfold first_of_month.
  destruct ((1 <=? int yr) && (int yr <=? 9999) && (1 <=? int mm)
            && (int mm <=? 12)) eqn:G.
  - cbn [year month day].
    split; [subst yr; rewrite str_length_app, L; reflexivity|].
    split.
    { rewrite all_chars_app, A. subst yr. cbn [all_chars].
      now rewrite D1, D2, D3, D4. }
    unfold int at 5. rewrite int_from_app, I. fold (int yr). lia.
  - split; [reflexivity|]. right. exists name.
    assert (int yr = 0) as Z.
    { destruct (Z.le_gt_cases 1 (int yr)) as [P|P]; [exfalso|lia].
      rewrite (proj2 (Z.leb_le 1 (int yr))) in G by exact P.
      rewrite (proj2 (Z.leb_le (int yr) 9999)) in G by lia.
      rewrite (proj2 (Z.leb_le 1 (int mm))) in G by lia.
      rewrite (proj2 (Z.leb_le (int mm) 12)) in G by lia.
      discriminate G. }
    assert (digit_value c1 = 0 /\ digit_value c2 = 0
            /\ digit_value c3 = 0 /\ digit_value c4 = 0)
      as [Z1 [Z2 [Z3 Z4]]] by lia.
    subst yr.
    now rewrite (digit_value_zero _ D1 Z1), (digit_value_zero _ D2 Z2),
      (digit_value_zero _ D3 Z3), (digit_value_zero _ D4 Z4).
Qed.

Lemma digit_compare a b :
  is_digit a = true -> is_digit b = true ->
  Ascii.compare a b = (digit_value a ?= digit_value b).
Proof.
  unfold is_digit, in_range, digit_value, code, Ascii.compare, nat_of_ascii.
  intros Ha Hb.
  apply andb_true_iff in Ha, Hb. destruct Ha as [Ha _], Hb as [Hb _].
  apply Nat.leb_le in Ha, Hb.
  destruct (N.compare_spec (N_of_ascii a) (N_of_ascii b)) as [E|E|E].
  - rewrite E. symmetry. apply Z.compare_eq_iff. reflexivity.
  - symmetry. apply Z.compare_lt_iff. lia.
  - symmetry. apply Z.compare_gt_iff. lia.
Qed.

Lemma int_from_digits s : forall acc,
  all_chars is_digit s = true ->
  int_from acc s = acc * 10 ^ Z.of_nat (String.length s) + int s
  /\ 0 <= int s < 10 ^ Z.of_nat (String.length s).
Proof.
  induction s as [|c t IH]; intros acc H.
  - unfold int. simpl. lia.
  - cbn [all_chars] in H. apply andb_true_iff in H. destruct H as [Hc Ht].
    pose proof (digit_value_range c Hc) as R.
    unfold int. cbn [int_from String.length].
    destruct (IH (acc * 10 + digit_value c) Ht) as [E1 B].
    destruct (IH (0 * 10 + digit_value c) Ht) as [E2 _].
    rewrite E1, E2, Nat2Z.inj_succ, Z.pow_succ_r by lia.
    split; nia.
Qed.

(** On digit strings of one length the order of str is the order of the
    numbers. *)
Lemma digits_compare s1 : forall s2,
  String.length s1 = String.length s2 ->
  all_chars is_digit s1 = true -> all_chars is_digit s2 = true ->
  String.compare s1 s2 = (int s1 ?= int s2).
Proof.
  induction s1 as [|c1 t1 IH]; intros [|c2 t2] L A1 A2;
    try discriminate L; [reflexivity|].
  cbn [all_chars] in A1, A2.
  apply andb_true_iff in A1, A2. destruct A1 as [D1 A1], A2 as [D2 A2].
  inversion L as [L'].
  cbn [String.compare]. rewrite (digit_compare c1 c2 D1 D2).
  unfold int. cbn [int_from].
  destruct (int_from_digits t1 (0 * 10 + digit_value c1) A1) as [-> _].
  destruct (int_from_digits t2 (0 * 10 + digit_value c2) A2) as [-> _].
  destruct (int_from_digits t1 0 A1) as [_ B1].
  destruct (int_from_digits t2 0 A2) as [_ B2].
  rewrite <- L' in *.
  set (p := 10 ^ Z.of_nat (String.length t1)) in *.
  destruct (Z.compare_spec (digit_value c1) (digit_value c2)) as [E|E|E].
  - rewrite (IH t2 L' A1 A2), E.
    destruct (Z.compare_spec (int t1) (int t2));
      symmetry; [apply Z.compare_eq_iff|apply Z.compare_lt_iff
                 |apply Z.compare_gt_iff]; lia.
  - symmetry. apply Z.compare_lt_iff. nia.
  - symmetry. apply Z.compare_gt_iff. nia.
Qed.

(** Where the result of parse_filename_date comes from. *)
Lemma parse_filename_date_source filename extract_id as_of_date :
  parse_filename_date filename = Returns (extract_id, as_of_date) ->
  exists pre name yr mm,
    leftmost filename pre name yr
    /\ month_map name = Returns mm
    /\ extract_id = (yr ++ mm)%string
    /\ year as_of_date = int yr /\ month as_of_date = int mm.
Proof.
  unfold parse_filename_date.
  destruct (re_search filename) as [[name yr]|] eqn:S; [|discriminate 1].
  destruct (month_map name) as [mm|x] eqn:Mm; [|discriminate 1].
  destruct (first_of_month (int yr) (int mm)) as [dt|x] eqn:F;
    [|discriminate 1].
  intros H. inversion H; subst. clear H.
  destruct (re_search_leftmost _ _ _ S) as [pre L].
  exists pre, name, yr, mm.
  split; [exact L|]. split; [exact Mm|]. split; [reflexivity|].
  unfold first_of_month in F.
  destruct ((1 <=? int yr) && (int yr <=? 9999) && (1 <=? int mm)
            && (int mm <=? 12)); [|discriminate F].
  inversion F. split; reflexivity.
Qed.

Lemma parse_filename_date_fails filename :
  (exists e, parse_filename_date filename = Raises e)
  <-> (forall pre name yr, ~ occurs_at filename pre name yr)
      \/ exists pre name, leftmost filename pre name "0000".
Proof.
  split.
  - intros [e E]. pose proof (parse_filename_date_cases filename) as C.
    rewrite E in C. destruct C as [_ [N|[name S]]].
    + left. now apply re_search_none.
    + right. destruct (re_search_leftmost _ _ _ S) as [pre L].
      now exists pre, name.
  - intros [N|[pre [name L]]]; unfold parse_filename_date.
    + apply re_search_none in N. rewrite N. now exists ValueError.
    + rewrite (leftmost_re_search _ _ _ _ L).
      destruct L as [[post [_ [Hn _]]] _].
      destruct (month_map_names name Hn) as [mm [-> _]].
      exists ValueError. reflexivity.
Qed.

(** X19. For a file name of 8-bit characters (code points below 256,
    where the digits that \d matches are the ten ASCII digits):
    parse_filename_date reads the leftmost place where a month name of
    the pattern is followed by four digits; it returns the four digits
    followed by the two digits of the month, a six-digit extract_id, and
    the first day of that month, the number the digits spell being
    year * 100 + month; it raises ValueError, and nothing else, exactly
    when the name holds no such place or the leftmost one spells the
    year 0000. *)
Theorem parse_filename_date_result filename :
  (forall extract_id as_of_date,
      parse_filename_date filename = Returns (extract_id, as_of_date) ->
      (String.length extract_id = 6%nat
       /\ all_chars is_digit extract_id = true
       /\ 1 <= year as_of_date <= 9999
       /\ 1 <= month as_of_date <= 12
       /\ day as_of_date = 1
       /\ int extract_id = year as_of_date * 100 + month as_of_date)
      /\ exists pre name yr mm,
          leftmost filename pre name yr
          /\ month_map name = Returns mm
          /\ extract_id = (yr ++ mm)%string
          /\ year as_of_date = int yr /\ month as_of_date = int mm)
  /\ (forall e, parse_filename_date filename = Raises e -> e = ValueError)
  /\ ((exists e, parse_filename_date filename = Raises e)
      <-> (forall pre name yr, ~ occurs_at filename pre name yr)
          \/ exists pre name, leftmost filename pre name "0000").
Proof.
  pose proof (parse_filename_date_cases filename) as C.
  split; [|split].
  - intros extract_id as_of_date E. split.
    + now rewrite E in C.
    + now apply parse_filename_date_source.
  - intros e E. rewrite E in C. tauto.
  - apply parse_filename_date_fails.
Qed.

Lemma sort_key_cases filename :
  match parse_filename_date filename with
  | Returns (extract_id, _) => sort_key filename = Returns extract_id
  | Raises _ => sort_key filename = Returns "000000"%string
  end.
Proof.
  unfold sort_key. pose proof (parse_filename_date_cases filename) as C.
  destruct (parse_filename_date filename) as [[e d]|x]; [reflexivity|].
  destruct C as [-> _]. reflexivity.
Qed.

(** X20. For file names of 8-bit characters (code points below 256,
    where the digits that \d matches are the ten ASCII digits):
    sort_key never raises, and sorting by it puts the files in
    chronological order: the key of a name without a date is '000000',
    below the key of every name with one, and among names with a date
    the order of the keys as str is the order of the dates. *)
Theorem sort_key_chronological f1 f2 :
  (exists k, sort_key f1 = Returns k
             /\ String.length k = 6%nat /\ all_chars is_digit k = true)
  /\ (forall e1 e2 d2,
         parse_filename_date f1 = Raises e1 ->
         parse_filename_date f2 = Returns (e2, d2) ->
         exists k1 k2, sort_key f1 = Returns k1 /\ sort_key f2 = Returns k2
                       /\ String.ltb k1 k2 = true)
  /\ (forall e1 d1 e2 d2,
         parse_filename_date f1 = Returns (e1, d1) ->
         parse_filename_date f2 = Returns (e2, d2) ->
         sort_key f1 = Returns e1 /\ sort_key f2 = Returns e2
         /\ (String.ltb e1 e2 = true <-> earlier d1 d2)
         /\ (e1 = e2 <-> d1 = d2)).
Proof.
  pose proof (parse_filename_date_cases f1) as C1.
  pose proof (parse_filename_date_cases f2) as C2.
  pose proof (sort_key_cases f1) as S1.
  pose proof (sort_key_cases f2) as S2.
  assert (all_chars is_digit "000000" = true) as Z0 by reflexivity.
  assert (int "000000" = 0) as I0 by reflexivity.
  split; [|split].
  - destruct (parse_filename_date f1) as [[e d]|x].
    + exists e. tauto.
    + exists "000000"%string. auto.
  - intros e1 e2 d2 E1 E2. rewrite E1 in S1. rewrite E2 in S2, C2.
    exists "000000"%string, e2. repeat split; auto.
    destruct C2 as [L [A [Y [M [_ I]]]]].
    unfold String.ltb. rewrite digits_compare, I0; auto.
    replace (0 ?= int e2) with Lt; [reflexivity|].
    symmetry. apply Z.compare_lt_iff. lia.
  - intros e1 d1 e2 d2 E1 E2.
    rewrite E1 in S1, C1. rewrite E2 in S2, C2.
    destruct C1 as [L1 [A1 [Y1 [M1 [D1 I1]]]]].
    destruct C2 as [L2 [A2 [Y2 [M2 [D2 I2]]]]].
    repeat split; auto.
    + unfold String.ltb. rewrite digits_compare by congruence.
      destruct (Z.compare_spec (int e1) (int e2)) as [E|E|E];
        intros H; try discriminate H. unfold earlier. lia.
    + unfold String.ltb. rewrite digits_compare by congruence.
      intros H. replace (int e1 ?= int e2) with Lt; [reflexivity|].
      symmetry. apply Z.compare_lt_iff. unfold earlier in H. lia.
    + intros ->. destruct d1, d2. cbn [year month day] in *.
      f_equal; lia.
    + intros ->.
      apply String.compare_eq_iff.
      rewrite digits_compare by congruence.
      apply Z.compare_eq_iff. lia.
Qed.

(** The examples of the docstring of parse_filename_date, a name
    without a date, and a CCN stored without its leading zero. *)
Example ingest_examples :
  parse_filename_date "NH_QualityMsr_MDS_Jan2024.csv"
  = Returns ("202401"%string, {| year := 2024; month := 1; day := 1 |})
  /\ parse_filename_date "NH_QualityMsr_Claims_Dec2023.csv"
     = Returns ("202312"%string, {| year := 2023; month := 12; day := 1 |})
  /\ parse_filename_date "NH_QualityMsr_MDS.csv" = Raises ValueError
  /\ standardize_ccn (Some " 15-001 "%string) = Some "015001"%string
  /\ standardize_ccn (Some ""%string) = Some "000000"%string.
Proof. vm_compute. repeat split. Qed.
